(** * Watch-party API: the room session core of [server.js]

    A shallow embedding of the socket handlers registered in
    [io.on("connection", ...)] of [src/server.js], of the Mongoose
    schemas they persist through, and of the handlers of the earlier
    in-memory server, followed by the properties of the room life
    cycle, the playback gate and the chat relay.

    A handler is a function on the world (the three collections, the
    connection registry, the channel memberships and the sequence of
    writes and emissions so far). Handlers run one at a time, except
    where [join-room] and [create-room] are cut at their suspension
    points to let two calls interleave.

    An id of a payload is a string. A stored id is an ObjectId, and
    every query and every document path of type ObjectId casts the
    string it is given; the handlers' own comparisons
    ([room.admin.toString() === userId]) are on strings. The two meet
    where a payload spells an id otherwise than [toString()] does. *)

From Stdlib Require Import ZArith List Bool Ascii String Lia.
From Stdlib.Strings Require Byte.
From stdpp Require Import gmap strings list pretty vector.
Import ListNotations.

Local Open Scope string_scope.

(** ** JavaScript values in event payloads *)

(** Payload fields that a handler checks itself (ids, [userName]) arrive
    as arbitrary JSON scalars or as an object, whose content no handler
    looks at. Fields it hands on unchecked ([url], [time], [text]) are
    taken at the type their schema gives them. *)
Inductive jsval : Type :=
| JUndefined
| JNull
| JBool (b : bool)
| JNum (n : Z)
| JStr (s : string)
| JObject.

(** A JS number. The handlers store and forward it, they never compute
    with it. *)
Definition number : Type := Z.

(** [!v] is [negb (truthy v)]. *)
Definition truthy (v : jsval) : bool :=
  match v with
  | JUndefined | JNull => false
  | JBool b => b
  | JNum n => negb (n =? 0)%Z
  | JStr s => negb (bool_decide (s = ""))
  | JObject => true
  end.

(** [typeof v === "string"] *)
Definition is_string (v : jsval) : bool :=
  match v with JStr _ => true | _ => false end.

(** [s === v] for a string [s]: strict equality never coerces. *)
Definition strict_eq_string (s : string) (v : jsval) : bool :=
  match v with JStr t => bool_decide (s = t) | _ => false end.

(** [`${v}`] *)
Definition to_string (v : jsval) : string :=
  match v with
  | JUndefined => "undefined"
  | JNull => "null"
  | JBool true => "true"
  | JBool false => "false"
  | JNum n => pretty n
  | JStr s => s
  | JObject => "[object Object]"
  end.

Fixpoint trimStart (s : string) : string :=
  match s with
  | String a s' => if Ascii.is_space a then trimStart s' else s
  | EmptyString => EmptyString
  end.

(** [s.trim()], on ASCII white space. *)
Definition trim (s : string) : string :=
  String.rev (trimStart (String.rev (trimStart s))).

(** [a || null] and [a || d] on an optional string: the empty string is
    falsy too. *)
Definition or_null (a : option string) : option string :=
  match a with
  | Some s => if bool_decide (s = "") then None else Some s
  | None => None
  end.

Definition or_default (a : option string) (d : string) : string :=
  match a with
  | Some s => if bool_decide (s = "") then d else s
  | None => d
  end.

(** ** ObjectId *)

#[global] Instance byte_eq_dec : EqDecision Byte.byte.
Proof.
  intros x y. destruct (Byte.eqb x y) eqn:E.
  - left. now apply Byte.byte_dec_bl.
  - right. intros ->. rewrite Byte.byte_dec_lb in E; [discriminate | reflexivity].
Defined.

(** An ObjectId is twelve bytes. *)
Definition ObjectId : Type := vec Byte.byte 12.

Definition hex_digit (n : N) : ascii :=
  match n with
  | 0 => "0" | 1 => "1" | 2 => "2" | 3 => "3" | 4 => "4" | 5 => "5" | 6 => "6"
  | 7 => "7" | 8 => "8" | 9 => "9" | 10 => "a" | 11 => "b" | 12 => "c"
  | 13 => "d" | 14 => "e" | _ => "f"
  end%N%char.

Definition hex_of_byte (b : Byte.byte) (rest : string) : string :=
  let n := Byte.to_N b in
  String (hex_digit (n / 16)) (String (hex_digit (n mod 16)) rest).

(** [id.toString()]: the 24 hexadecimal digits, in lower case. *)
Definition toString (o : ObjectId) : string :=
  fold_right hex_of_byte "" (vec_to_list o).

(** ** Documents *)

(** Modelled from the spec: [models/User.js] is not among the sources.
    A user document carries the fields the handlers read when they take
    a participant snapshot ([username], [profilePic], [email]); the two
    optional ones may be absent. *)
Record User : Type := {
  u_id : ObjectId;
  u_username : string;
  u_profilePic : option string;
  u_email : option string
}.

(** [{ id, username, profilePic, email }], with the id as [I] has it:
    an ObjectId in a stored document, a string in the object a handler
    writes or sends. *)
Record Participant_ (I : Type) : Type := {
  p_id : I;
  p_username : string;
  p_profilePic : option string;
  p_email : string
}.
Arguments p_id {I} _.
Arguments p_username {I} _.
Arguments p_profilePic {I} _.
Arguments p_email {I} _.

(** An element of [Room.users]. *)
Definition Participant : Type := Participant_ ObjectId.

(** The object literal a handler builds around a string id. *)
Definition Snapshot : Type := Participant_ string.

Definition set_id {I J : Type} (id : J) (p : Participant_ I) : Participant_ J :=
  {| p_id := id; p_username := p_username p; p_profilePic := p_profilePic p;
     p_email := p_email p |}.

(** [RoomSchema] (the schema with participant snapshots, which is the
    one [server.js] reads and writes). *)
Record Room : Type := {
  r_id : ObjectId;
  name : string;
  admin : ObjectId;
  adminName : string;
  users : list Participant;
  videoUrl : string;
  serviceId : string;
  isPlaying : bool;
  playbackTime : number;
  createdAt : Z
}.

(** [messageSchema] *)
Record Message : Type := {
  m_id : ObjectId;
  room : ObjectId;
  senderId : ObjectId;
  text : string;
  timestamp : Z;
  sender : User
}.

(** What [fetchRoomDetails] returns: the participants carry their ids
    as strings. *)
Record RoomDetails : Type := {
  d_adminName : string;
  participants : list Snapshot;
  activeUsersCount : nat
}.

(** ** Observable effects *)

(** [socket.emit] reaches one connection, [io.to(ch).emit] a channel. *)
Inductive target : Type :=
| ToSocket (sid : string)
| ToChannel (ch : string).

Inductive payload : Type :=
| PNone
| PText (message : string)
| PRoomCreated (roomId adminId : string) (userIds : list string) (adminName : string)
| PRoomDetails (details : option RoomDetails)
| PRoomJoined (roomId adminId videoUrl adminName : string) (users : list Participant)
| PParticipants (ps : list Participant)
| PParticipantIds (ids : list string)
| PUrl (url : string)
| PTime (time : number)
| PMessage (m : Message)
| PUserId (userId : jsval)
| PSignal (from : string) (body : jsval).

(** The update document of [findByIdAndUpdate]: plain keys set fields
    (an absent key leaves its field alone), [$push] and [$pull] edit
    [users]. A handler writes it around string ids ([update string]);
    the collection receives it cast ([update ObjectId]). *)
Inductive update (I : Type) : Type :=
| SetFields (videoUrl' serviceId' : option string)
            (isPlaying' : option bool) (playbackTime' : option number)
| Push (p : Participant_ I)
| Pull (userId : I).
Arguments SetFields {I} _ _ _ _.
Arguments Push {I} _.
Arguments Pull {I} _.

(** A write as the collection receives it, after the cast. *)
Inductive write : Type :=
| RoomSave (r : Room)
| RoomDeleteOne (adminId : ObjectId)
| RoomFindByIdAndUpdate (roomId : ObjectId) (u : update ObjectId)
| RoomFindByIdAndDelete (roomId : ObjectId)
| MessageSave (m : Message)
| MessageDeleteMany (roomId : ObjectId).

(** The order in which a handler's completed writes and its emissions
    happen is kept in one sequence. An error that leaves a handler
    uncaught ends the sequence of that handler as an unhandled
    rejection. *)
Inductive effect : Type :=
| Emit (t : target) (event : string) (p : payload)
| Wrote (op : write)
| Unhandled (message : string).

(** ** The world a handler runs in *)

(** The registry [socketToUserMap] holds the user id as the payload
    spelled it. *)
Record World : Type := {
  Users : list User;
  Rooms : list Room;
  Messages : list Message;
  socketToUserMap : gmap string string;
  adapter : gset (string * string);
  trace : list effect
}.

Definition with_Rooms (rs : list Room) (w : World) : World :=
  {| Users := Users w; Rooms := rs; Messages := Messages w;
     socketToUserMap := socketToUserMap w; adapter := adapter w;
     trace := trace w |}.

Definition with_Messages (ms : list Message) (w : World) : World :=
  {| Users := Users w; Rooms := Rooms w; Messages := ms;
     socketToUserMap := socketToUserMap w; adapter := adapter w;
     trace := trace w |}.

Definition with_map (m : gmap string string) (w : World) : World :=
  {| Users := Users w; Rooms := Rooms w; Messages := Messages w;
     socketToUserMap := m; adapter := adapter w; trace := trace w |}.

Definition with_adapter (a : gset (string * string)) (w : World) : World :=
  {| Users := Users w; Rooms := Rooms w; Messages := Messages w;
     socketToUserMap := socketToUserMap w; adapter := a; trace := trace w |}.

Definition log (e : effect) (w : World) : World :=
  {| Users := Users w; Rooms := Rooms w; Messages := Messages w;
     socketToUserMap := socketToUserMap w; adapter := adapter w;
     trace := trace w ++ [e] |}.

(** What the runtime supplies to one handler run: the ObjectId that
    [new Room(...)] or [new Message(...)] generates and the reading of
    [Date.now()]. *)
Record Env : Type := {
  newObjectId : ObjectId;
  dateNow : Z
}.

(** ** Handler monad: state and thrown errors *)

Inductive result (A : Type) : Type :=
| Ok (a : A)
| Thrown (message : string).
Arguments Ok {A} a.
Arguments Thrown {A} message.

Definition M (A : Type) : Type := World -> result A * World.

Definition ret {A} (a : A) : M A := fun w => (Ok a, w).

Definition bind {A B} (c : M A) (k : A -> M B) : M B :=
  fun w =>
    match c w with
    | (Ok a, w') => k a w'
    | (Thrown e, w') => (Thrown e, w')
    end.

(** [throw new Error(message)] *)
Definition throw {A} (message : string) : M A := fun w => (Thrown message, w).

(** [try { body } catch (error) { handler(error.message) }] *)
Definition try_catch (body : M unit) (handler : string -> M unit) : M unit :=
  fun w =>
    match body w with
    | (Ok a, w') => (Ok a, w')
    | (Thrown e, w') => handler e w'
    end.

Declare Scope handler_scope.
Delimit Scope handler_scope with handler.
Notation "x <- c1 ;; c2" := (bind c1 (fun x => c2))
  (at level 100, c1 at next level, right associativity) : handler_scope.
Notation "c1 ;; c2" := (bind c1 (fun _ => c2))
  (at level 100, right associativity) : handler_scope.
Local Open Scope handler_scope.

(** The world a handler leaves behind. An error that no [catch] of the
    handler takes rejects the promise of the [async] listener, which
    nothing handles. *)
Definition exec (c : M unit) (w : World) : World :=
  match c w with
  | (Ok _, w') => w'
  | (Thrown message, w') => log (Unhandled message) w'
  end.

Definition emit (t : target) (event : string) (p : payload) : M unit :=
  fun w => (Ok tt, log (Emit t event p) w).

(** [socket.join(ch)], [socket.leave(ch)] *)
Definition socket_join (sid ch : string) : M unit :=
  fun w => (Ok tt, with_adapter ({[ (sid, ch) ]} ∪ adapter w) w).

Definition socket_leave (sid ch : string) : M unit :=
  fun w => (Ok tt, with_adapter (adapter w ∖ {[ (sid, ch) ]}) w).

Definition map_set (sid userId : string) : M unit :=
  fun w => (Ok tt, with_map (<[ sid := userId ]> (socketToUserMap w)) w).

Definition map_get (sid : string) : M (option string) :=
  fun w => (Ok (socketToUserMap w !! sid), w).

Definition map_delete (sid : string) : M unit :=
  fun w => (Ok tt, with_map (delete sid (socketToUserMap w)) w).

(** [if (b) { c }] *)
Definition when_ (b : bool) (c : M unit) : M unit :=
  if b then c else ret tt.

(** [for (const x of xs) { body(x) }] *)
Fixpoint for_each {A} (xs : list A) (body : A -> M unit) : M unit :=
  match xs with
  | [] => ret tt
  | x :: xs' => body x ;; for_each xs' body
  end.

(** ** Collections *)

(** A collection is the list of its documents in insertion order; a
    query for one document takes the first match. *)

Fixpoint update_first {A} (P : A -> bool) (f : A -> A) (l : list A) : list A :=
  match l with
  | [] => []
  | x :: l' => if P x then f x :: l' else x :: update_first P f l'
  end.

Fixpoint delete_first {A} (P : A -> bool) (l : list A) : list A :=
  match l with
  | [] => []
  | x :: l' => if P x then l' else x :: delete_first P l'
  end.

(** The filters of the queries, on the cast id. *)
Definition is_id (id : ObjectId) (u : User) : bool := bool_decide (u_id u = id).
Definition has_id (id : ObjectId) (r : Room) : bool := bool_decide (r_id r = id).
Definition has_admin (userId : ObjectId) (r : Room) : bool := bool_decide (admin r = userId).
Definition is_user (userId : ObjectId) (p : Participant) : bool := bool_decide (p_id p = userId).
Definition in_room (roomId : ObjectId) (m : Message) : bool := bool_decide (room m = roomId).

(** The query [{ "users.id": userId }] *)
Definition has_member (userId : ObjectId) (r : Room) : bool :=
  existsb (is_user userId) (users r).

(** [u.id.toString() === userId], the test a handler makes itself on
    the string of the payload. *)
Definition spelled (userId : string) (p : Participant) : bool :=
  bool_decide (toString (p_id p) = userId).

Definition set_users (us : list Participant) (r : Room) : Room :=
  {| r_id := r_id r; name := name r; admin := admin r; adminName := adminName r;
     users := us; videoUrl := videoUrl r; serviceId := serviceId r;
     isPlaying := isPlaying r; playbackTime := playbackTime r;
     createdAt := createdAt r |}.

Definition apply_update (u : update ObjectId) (r : Room) : Room :=
  match u with
  | SetFields v s p t =>
      {| r_id := r_id r; name := name r; admin := admin r; adminName := adminName r;
         users := users r;
         videoUrl := default (videoUrl r) v;
         serviceId := default (serviceId r) s;
         isPlaying := default (isPlaying r) p;
         playbackTime := default (playbackTime r) t;
         createdAt := createdAt r |}
  | Push p => set_users (users r ++ [p]) r
  | Pull userId => set_users (List.filter (fun p => negb (is_user userId p)) (users r)) r
  end.

(** The [required: true] paths of [RoomSchema]; a required string must
    be non-empty. *)
Definition Room_valid (r : Room) : bool :=
  negb (bool_decide (name r = "")) &&
  negb (bool_decide (adminName r = "")) &&
  forallb (fun p => negb (bool_decide (p_username p = ""))) (users r).

(** [messageSchema] requires [text] (and [sender], which the handler
    always supplies). *)
Definition Message_valid (m : Message) : bool :=
  negb (bool_decide (text m = "")).

(** ** The earlier server: rooms in a process-global table *)

(** The earlier variant of the server keeps its rooms in the object
    [const rooms = {}] and is the one that registers a listener for
    [get-room-details]. It hands the ids of its payloads to the queries
    unchecked, so the cast to ObjectId that [findById] makes can fail
    there. *)
Module Legacy.

(** A value of the [rooms] table; ids are kept as the payload spelled
    them. *)
Record Entry : Type := {
  admin : string;
  videoUrl : string;
  serviceId : string;
  participants : list string
}.

(** A room document in that server's schema; [fetchRoomDetails] reads
    its [adminName]. *)
Record RoomDoc : Type := {
  r_id : ObjectId;
  name : string;
  users : list ObjectId;
  adminName : string
}.

(** An element of the [participants] array of the details. *)
Record Member : Type := {
  id : string;
  username : string;
  profilePic : option string
}.

Record Details : Type := {
  d_adminName : string;
  d_participants : list Member;
  activeUsersCount : nat
}.

Inductive reply : Type :=
| RText (message : string)
| RDetails (details : Details).

(** [rooms] holds the own properties of the table. *)
Record State : Type := {
  rooms : gmap string Entry;
  Rooms : list RoomDoc;
  Users : list User;
  sent : list (target * string * reply)
}.

Definition send (t : target) (event : string) (r : reply) (s : State) : State :=
  {| rooms := rooms s; Rooms := Rooms s; Users := Users s;
     sent := sent s ++ [(t, event, r)] |}.

(** The table is a plain object, so a key that names a property of
    [Object.prototype], as the runtime sets it up, reads as that
    property when the table has no entry of its own under it:
    [rooms[key]] is then a function (an object for [__proto__]), truthy
    and without [admin] or [participants]. *)
Definition inherited (key : string) : bool :=
  bool_decide (key ∈ ["__proto__"; "constructor"; "hasOwnProperty"; "isPrototypeOf";
                      "propertyIsEnumerable"; "toLocaleString"; "toString"; "valueOf";
                      "__defineGetter__"; "__defineSetter__"; "__lookupGetter__";
                      "__lookupSetter__"]).

(** What [rooms[key]] reads. *)
Inductive slot : Type :=
| Own (entry : Entry)
| Inherited
| Absent.

Definition read (s : State) (key : string) : slot :=
  match rooms s !! key with
  | Some entry => Own entry
  | None => if inherited key then Inherited else Absent
  end.

Section Handlers.

(** [new ObjectId(s)] as the cast inside a query makes it: nothing
    where Mongoose raises a CastError. *)
Variable ObjectId_cast : string -> option ObjectId.

(** [{ id, username: user?.username || "Unknown User",
       profilePic: user?.profilePic || null }], for an [id] that
    casts. *)
Definition member (s : State) (id : string) : Member :=
  let user := ObjectId_cast id ≫= fun o => List.find (is_id o) (Users s) in
  {| id := id;
     username := or_default (u_username <$> user) "Unknown User";
     profilePic := or_null (user ≫= u_profilePic) |}.

(** The [try] body returns the details or throws: on a room id or a
    participant id that does not cast, on a missing document, or on
    reading [participants] of a missing table entry or [map] of the
    [participants] an inherited property lacks. The [catch] turns any
    throw into [null]. *)
Definition fetchRoomDetails (roomId : string) (s : State) : option Details :=
  match ObjectId_cast roomId with
  | None => None
  | Some rid =>
      match List.find (fun r => bool_decide (r_id r = rid)) (Rooms s) with
      | None => None
      | Some room =>
          match read s roomId with
          | Own entry =>
              if negb (forallb (fun id => bool_decide (is_Some (ObjectId_cast id)))
                         (participants entry))
              then None
              else
                let participants := map (member s) (participants entry) in
                Some {| d_adminName := adminName room;
                        d_participants := participants;
                        activeUsersCount := length participants |}
          | Inherited | Absent => None
          end
      end
  end.

(** [socket.on("get-room-details", async ({ roomId }) => ...)]; a
    property key is the string form of [roomId], and a query casts a
    [roomId] that is no string as it casts that string form. *)
Definition get_room_details (sid : string) (roomId : jsval) (s : State) : State :=
  let key := to_string roomId in
  if negb (truthy roomId) ||
     match read s key with Absent => true | _ => false end
  then send (ToSocket sid) "room-error" (RText "Room does not exist.") s
  else
    match fetchRoomDetails key s with
    | Some roomDetails => send (ToSocket sid) "room-details" (RDetails roomDetails) s
    | None => send (ToSocket sid) "room-error" (RText "Failed to fetch room details.") s
    end.

(** The room is known to the table and to the database, and every id
    involved casts. *)
Definition answerable (roomId : jsval) (s : State) : bool :=
  let key := to_string roomId in
  truthy roomId &&
  match ObjectId_cast key with
  | Some rid =>
      bool_decide (is_Some (List.find (fun r => bool_decide (r_id r = rid)) (Rooms s)))
  | None => false
  end &&
  match rooms s !! key with
  | Some entry =>
      forallb (fun id => bool_decide (is_Some (ObjectId_cast id))) (participants entry)
  | None => false
  end.

End Handlers.

End Legacy.

(** ** The earlier server: playback and membership on the table *)

(** The other handlers of the earlier server that work on the [rooms]
    table. Each is a function from the state to the state it leaves,
    the actions it performs, in order, and the error that ends it
    uncaught, if one does: these handlers have no [try]. *)
Module LegacyRooms.

Inductive body : Type :=
| Load (url serviceId : string)
| Time (time : number)
| Sync (time : number) (playing : bool)
| Joined (roomId adminId videoUrl serviceId : string) (participants : list string)
         (adminName : jsval)
| Participants (ids : list string)
| Details (details : Legacy.Details)
| Text (message : string).

Inductive action : Type :=
| Join (sid ch : string)
| Leave (sid ch : string)
| Send (t : target) (event : string) (b : body).

Record outcome : Type := {
  state : Legacy.State;
  actions : list action;
  uncaught : option string
}.

Definition done (s : Legacy.State) (l : list action) : outcome :=
  {| state := s; actions := l; uncaught := None |}.

Definition threw (s : Legacy.State) (l : list action) (message : string) : outcome :=
  {| state := s; actions := l; uncaught := Some message |}.

Definition with_rooms (table : gmap string Legacy.Entry) (s : Legacy.State)
  : Legacy.State :=
  {| Legacy.rooms := table; Legacy.Rooms := Legacy.Rooms s;
     Legacy.Users := Legacy.Users s; Legacy.sent := Legacy.sent s |}.

Definition with_participants (ids : list string) (e : Legacy.Entry) : Legacy.Entry :=
  {| Legacy.admin := Legacy.admin e; Legacy.videoUrl := Legacy.videoUrl e;
     Legacy.serviceId := Legacy.serviceId e; Legacy.participants := ids |}.

(** The gate [rooms[roomId]?.admin === adminId]: without an entry of
    the table's own the left side is [undefined]. *)
Definition authorized (s : Legacy.State) (roomId : string) (adminId : jsval) : bool :=
  match Legacy.rooms s !! roomId with
  | Some entry => strict_eq_string (Legacy.admin entry) adminId
  | None => match adminId with JUndefined => true | _ => false end
  end.

(** [play-video]. Behind the gate it writes [videoUrl] and [serviceId]
    of [rooms[roomId]]: of the entry; of the inherited property when
    the key names one, which leaves the entries of the table as they
    are (what the write does to that property itself, [Object.prototype]
    under the key [__proto__], is outside the state kept here); of
    [undefined] otherwise, which throws before anything is emitted. *)
Definition play_video (roomId url serviceId : string) (adminId : jsval)
    (s : Legacy.State) : outcome :=
  if authorized s roomId adminId
  then
    match Legacy.read s roomId with
    | Legacy.Own entry =>
        let entry' :=
          {| Legacy.admin := Legacy.admin entry; Legacy.videoUrl := url;
             Legacy.serviceId := serviceId;
             Legacy.participants := Legacy.participants entry |} in
        done (with_rooms (<[ roomId := entry' ]> (Legacy.rooms s)) s)
          [Send (ToChannel roomId) "load-video" (Load url serviceId)]
    | Legacy.Inherited =>
        done s [Send (ToChannel roomId) "load-video" (Load url serviceId)]
    | Legacy.Absent =>
        threw s [] "Cannot set properties of undefined (setting 'videoUrl')"
    end
  else done s [].

(** [pause-video], [resume-video] and [seek-video] under their event
    name: a relay behind the gate. *)
Definition relay_time (event : string) (roomId : string) (time : number)
    (adminId : jsval) (s : Legacy.State) : outcome :=
  if authorized s roomId adminId
  then done s [Send (ToChannel roomId) event (Time time)]
  else done s [].

Definition pause_video := relay_time "pause-video".
Definition resume_video := relay_time "resume-video".
Definition seek_video := relay_time "seek-video".

Definition sync_video (roomId : string) (time : number) (playing : bool)
    (adminId : jsval) (s : Legacy.State) : outcome :=
  if authorized s roomId adminId
  then done s [Send (ToChannel roomId) "sync-video" (Sync time playing)]
  else done s [].

Section Membership.

Variable ObjectId_cast : string -> option ObjectId.

(** The refreshed details that follow a change of the participants:
    broadcast when they can be fetched, and otherwise [otherwise]. *)
Definition refreshed (roomId : string) (otherwise : list action) (s : Legacy.State)
  : list action :=
  match Legacy.fetchRoomDetails ObjectId_cast roomId s with
  | Some roomDetails => [Send (ToChannel roomId) "room-details" (Details roomDetails)]
  | None => otherwise
  end.

(** [join-room]; an empty [roomId] is falsy, and the entry has no
    [adminName], so the one of the payload is handed back. Under a key
    that names an inherited property the check passes, the connection
    joins the channel, and reading [includes] of the missing
    [participants] throws. *)
Definition join_room (sid roomId userId : string) (adminName : jsval)
    (s : Legacy.State) : outcome :=
  let unknown := [Send (ToSocket sid) "room-error" (Text "Room does not exist.")] in
  if bool_decide (roomId = "") then done s unknown
  else
    match Legacy.read s roomId with
    | Legacy.Absent => done s unknown
    | Legacy.Inherited =>
        threw s [Join sid roomId]
          "Cannot read properties of undefined (reading 'includes')"
    | Legacy.Own entry =>
        let participants :=
          if bool_decide (userId ∈ Legacy.participants entry)
          then Legacy.participants entry
          else (Legacy.participants entry ++ [userId])%list in
        let s' :=
          with_rooms (<[ roomId := with_participants participants entry ]>
                        (Legacy.rooms s)) s in
        done s'
          ([Join sid roomId;
            Send (ToSocket sid) "room-joined"
              (Joined roomId (Legacy.admin entry) (Legacy.videoUrl entry)
                 (Legacy.serviceId entry) participants adminName);
            Send (ToChannel roomId) "update-participants" (Participants participants)]
           ++ refreshed roomId
                [Send (ToSocket sid) "room-error" (Text "Failed to fetch room details.")]
                s')%list
    end.

(** [leave-room]; under a key that names an inherited property
    [rooms[roomId]] is truthy and reading [filter] of the missing
    [participants] throws. *)
Definition leave_room (sid roomId : string) (userId : jsval) (s : Legacy.State)
  : outcome :=
  match Legacy.read s roomId with
  | Legacy.Own entry =>
      let participants :=
        List.filter (fun id => negb (strict_eq_string id userId))
          (Legacy.participants entry) in
      if (length participants =? 0)%nat
      then done (with_rooms (delete roomId (Legacy.rooms s)) s) [Leave sid roomId]
      else
        let s' :=
          with_rooms (<[ roomId := with_participants participants entry ]>
                        (Legacy.rooms s)) s in
        done s'
          ([Leave sid roomId;
            Send (ToChannel roomId) "update-participants" (Participants participants)]
           ++ refreshed roomId [] s')%list
  | Legacy.Inherited =>
      threw s [Leave sid roomId]
        "Cannot read properties of undefined (reading 'filter')"
  | Legacy.Absent => done s [Leave sid roomId]
  end.

End Membership.

End LegacyRooms.

(** ** A concrete instance *)

(** The value of a hexadecimal digit, by its character code: [0]-[9],
    [a]-[f], [A]-[F]. *)
Definition hex_value (a : ascii) : option N :=
  let code := N_of_ascii a in
  if (48 <=? code)%N && (code <=? 57)%N then Some (code - 48)%N
  else if (97 <=? code)%N && (code <=? 102)%N then Some (code - 87)%N
  else if (65 <=? code)%N && (code <=? 70)%N then Some (code - 55)%N
  else None.

Definition is_hex (a : ascii) : bool :=
  match hex_value a with Some _ => true | None => false end.

(** An [ObjectId.isValid] that accepts the 24 hexadecimal characters of
    an ObjectId in string form, in either case. *)
Definition hex24 (s : string) : bool :=
  (String.length s =? 24)%nat && forallb is_hex (list_ascii_of_string s).

Definition byte_of_hex (a b : ascii) : option Byte.byte :=
  match hex_value a, hex_value b with
  | Some h, Some l => Byte.of_N (16 * h + l)
  | _, _ => None
  end.

Fixpoint bytes_of_hex (s : string) : option (list Byte.byte) :=
  match s with
  | EmptyString => Some []
  | String a (String b s') =>
      match byte_of_hex a b, bytes_of_hex s' with
      | Some x, Some l => Some (x :: l)
      | _, _ => None
      end
  | String _ EmptyString => None
  end.

Fixpoint vec_of_list {A} (n : nat) (l : list A) : option (vec A n) :=
  match n, l with
  | 0, [] => Some [#]
  | S n', x :: l' => vcons x <$> vec_of_list n' l'
  | _, _ => None
  end.

(** A cast that takes the 24 hexadecimal characters of an ObjectId, in
    either case, and nothing else. *)
Definition hex_cast (s : string) : option ObjectId :=
  match bytes_of_hex s with
  | Some l => vec_of_list 12 l
  | None => None
  end.

Definition quoted (s : string) : string :=
  String "034"%char (s ++ String "034"%char "").

(** The message of a CastError. *)
Definition cast_message (value path model : string) : string :=
  "Cast to ObjectId failed for value " ++ quoted value ++ " (type string) at path "
  ++ quoted path ++ " for model " ++ quoted model.

Definition oid (s : string) : ObjectId :=
  default (vreplicate 12 Byte.x00) (hex_cast s).

Definition alice_hex : string := "65f1a0000000000000000001".
Definition bob_hex : string := "65f1a0000000000000000002".
Definition party_hex : string := "65f1b00000000000000000a1".
Definition other_hex : string := "65f1b00000000000000000a2".
Definition third_hex : string := "65f1b00000000000000000a3".

(** The ids of Alice and Bob as a client may also spell them. *)
Definition ALICE_HEX : string := "65F1A0000000000000000001".
Definition BOB_HEX : string := "65F1A0000000000000000002".

Definition alice_id : ObjectId := Eval vm_compute in oid alice_hex.
Definition bob_id : ObjectId := Eval vm_compute in oid bob_hex.
Definition party_id : ObjectId := Eval vm_compute in oid party_hex.
Definition other_id : ObjectId := Eval vm_compute in oid other_hex.
Definition third_id : ObjectId := Eval vm_compute in oid third_hex.
Definition hello_id : ObjectId := Eval vm_compute in oid "65f1c00000000000000000f1".

Definition alice : User :=
  {| u_id := alice_id; u_username := "Alice"; u_profilePic := None;
     u_email := Some "alice@example.org" |}.

Definition bob : User :=
  {| u_id := bob_id; u_username := "Bob"; u_profilePic := Some "bob.png";
     u_email := None |}.

Definition alice_p : Participant :=
  {| p_id := alice_id; p_username := "Alice"; p_profilePic := None;
     p_email := "alice@example.org" |}.

Definition bob_p : Participant :=
  {| p_id := bob_id; p_username := "Bob"; p_profilePic := Some "bob.png";
     p_email := "No email" |}.

Definition party_of (members : list Participant) : Room :=
  {| r_id := party_id; name := "Alice-Room-1700000000000"; admin := alice_id;
     adminName := "Alice"; users := members; videoUrl := "https://x/video";
     serviceId := "1"; isPlaying := true; playbackTime := 17%Z;
     createdAt := 1700000000000%Z |}.

(** Alice's room with Bob in it. *)
Definition party : Room := party_of [alice_p; bob_p].

Definition hello : Message :=
  {| m_id := hello_id; room := party_id; senderId := bob_id;
     text := "hello"; timestamp := 1700000000500%Z; sender := bob |}.

Definition world_of (rooms : list Room) : World :=
  {| Users := [alice; bob]; Rooms := rooms; Messages := [hello];
     socketToUserMap := {[ "sockA" := alice_hex; "sockB" := bob_hex ]};
     adapter := {[ ("sockA", party_hex); ("sockB", party_hex) ]};
     trace := [] |}.

Definition party_world : World := world_of [party].

(** Alice's room before anyone joined. *)
Definition fresh_world : World := world_of [party_of [alice_p]].

(** A store that breaks the membership invariant: Bob is the only
    member of Alice's room. *)
Definition orphan_world : World := world_of [party_of [bob_p]].

(** The world when Alice's connection is registered under the other
    spelling of her id. *)
Definition shouting_world : World :=
  with_map {[ "sockA" := ALICE_HEX; "sockB" := bob_hex ]} party_world.

(** What the runtime supplies to the next handler run, and to the one
    after it. *)
Definition later : Env :=
  {| newObjectId := other_id; dateNow := 1700000001000%Z |}.

Definition later_still : Env :=
  {| newObjectId := third_id; dateNow := 1700000002000%Z |}.

(** The earlier server with the same room in its table. *)
Definition legacy_state : Legacy.State :=
  {| Legacy.rooms :=
       {[ party_hex := {| Legacy.admin := alice_hex; Legacy.videoUrl := "";
                          Legacy.serviceId := "1";
                          Legacy.participants := [alice_hex; bob_hex] |} ]};
     Legacy.Rooms :=
       [{| Legacy.r_id := party_id; Legacy.name := "Room-1700000000000";
           Legacy.users := [alice_id]; Legacy.adminName := "Alice" |}];
     Legacy.Users := [alice; bob];
     Legacy.sent := [] |}.

(** The earlier server when Bob is the last participant of the room. *)
Definition legacy_last : Legacy.State :=
  {| Legacy.rooms :=
       {[ party_hex := {| Legacy.admin := alice_hex; Legacy.videoUrl := "";
                          Legacy.serviceId := "1";
                          Legacy.participants := [bob_hex] |} ]};
     Legacy.Rooms := Legacy.Rooms legacy_state;
     Legacy.Users := [alice; bob];
     Legacy.sent := [] |}.

(** ** The socket handlers of [server.js] *)

Section Server.

Local Open Scope handler_scope.

(** [mongoose.Types.ObjectId.isValid], on strings. *)
Variable ObjectId_isValid : string -> bool.

(** [new ObjectId(s)], as the cast of a query filter, of an update and
    of a document path of type ObjectId makes it: the id, or nothing
    where Mongoose raises a CastError. The handlers validate
    [id.trim()] and then query with [id] itself, so the two are taken
    apart. *)
Variable ObjectId_cast : string -> option ObjectId.

(** The message of the CastError for a value at a path of a model. *)
Variable CastError_message : string -> string -> string -> string.

(** The string form of an ObjectId casts back to it. *)
Hypothesis cast_toString : forall o, ObjectId_cast (toString o) = Some o.

Definition isValidObjectId (id : jsval) : bool :=
  match id with
  | JStr s => ObjectId_isValid (trim s)
  | _ => false
  end.

(** ** The repository: Mongoose queries on the three collections *)

Definition castObjectId (value path model : string) : M ObjectId :=
  fun w =>
    match ObjectId_cast value with
    | Some o => (Ok o, w)
    | None => (Thrown (CastError_message value path model), w)
    end.

Definition User_findById (id : string) : M (option User) :=
  o <- castObjectId id "_id" "User" ;;
  fun w => (Ok (List.find (is_id o) (Users w)), w).

Definition Room_findById (id : string) : M (option Room) :=
  o <- castObjectId id "_id" "Room" ;;
  fun w => (Ok (List.find (has_id o) (Rooms w)), w).

(** [Room.findOne({ admin: userId })] *)
Definition Room_findOne (userId : string) : M (option Room) :=
  o <- castObjectId userId "admin" "Room" ;;
  fun w => (Ok (List.find (has_admin o) (Rooms w)), w).

(** [Room.find({ "users.id": userId })] *)
Definition Room_find (userId : string) : M (list Room) :=
  o <- castObjectId userId "users.id" "Room" ;;
  fun w => (Ok (List.filter (has_member o) (Rooms w)), w).

(** [Room.deleteOne({ admin: userId })] *)
Definition Room_deleteOne (userId : string) : M unit :=
  o <- castObjectId userId "admin" "Room" ;;
  fun w => (Ok tt, log (Wrote (RoomDeleteOne o))
                       (with_Rooms (delete_first (has_admin o) (Rooms w)) w)).

(** The cast of an update document: the ids under [$push] and [$pull]
    are at the path [users.id]. *)
Definition cast_update (u : update string) : M (update ObjectId) :=
  match u with
  | SetFields v s p t => ret (SetFields v s p t)
  | Push p =>
      o <- castObjectId (p_id p) "id" "Room" ;;
      ret (Push (set_id o p))
  | Pull userId =>
      o <- castObjectId userId "id" "Room" ;;
      ret (Pull o)
  end.

Definition Room_findByIdAndUpdate (id : string) (u : update string) : M unit :=
  o <- castObjectId id "_id" "Room" ;;
  u' <- cast_update u ;;
  fun w => (Ok tt, log (Wrote (RoomFindByIdAndUpdate o u'))
                       (with_Rooms (update_first (has_id o) (apply_update u') (Rooms w)) w)).

Definition Room_findByIdAndDelete (id : string) : M unit :=
  o <- castObjectId id "_id" "Room" ;;
  fun w => (Ok tt, log (Wrote (RoomFindByIdAndDelete o))
                       (with_Rooms (delete_first (has_id o) (Rooms w)) w)).

(** [Message.deleteMany({ room })] for a [room] that is an ObjectId
    already, and for one that is a string. *)
Definition Message_deleteMany_id (roomId : ObjectId) : M unit :=
  fun w => (Ok tt, log (Wrote (MessageDeleteMany roomId))
                       (with_Messages
                          (List.filter (fun m => negb (in_room roomId m)) (Messages w)) w)).

Definition Message_deleteMany (roomId : string) : M unit :=
  o <- castObjectId roomId "room" "Message" ;;
  Message_deleteMany_id o.

(** [room.save()] of a new document: validation first, then the insert.
    The text of the validation error is abridged. *)
Definition Room_save (r : Room) : M unit :=
  fun w =>
    if negb (Room_valid r) then (Thrown "Room validation failed", w)
    else (Ok tt, log (Wrote (RoomSave r)) (with_Rooms (Rooms w ++ [r]) w)).

Definition Message_save (m : Message) : M unit :=
  fun w =>
    if negb (Message_valid m)
    then (Thrown "Message validation failed: text: Path `text` is required.", w)
    else (Ok tt, log (Wrote (MessageSave m)) (with_Messages (Messages w ++ [m]) w)).

(** ** Helpers *)

(** The participant object a handler writes for a user: [{ id: userId,
    username: user.username, profilePic: user.profilePic || null,
    email: user.email || "No email" }]. *)
Definition snapshot (userId : string) (u : User) : Snapshot :=
  {| p_id := userId;
     p_username := u_username u;
     p_profilePic := or_null (u_profilePic u);
     p_email := or_default (u_email u) "No email" |}.

(** The same object as [Room.users] stores it, under the id that
    [userId] casts to. *)
Definition participant (userId : ObjectId) (u : User) : Participant :=
  {| p_id := userId;
     p_username := u_username u;
     p_profilePic := or_null (u_profilePic u);
     p_email := or_default (u_email u) "No email" |}.

(** What a participant reads as in the details: [id: user.id.toString()]. *)
Definition listed (p : Participant) : Snapshot := set_id (toString (p_id p)) p.

(** [fetchRoomDetails]: its [catch] turns every throw of the [try],
    the CastError of the query among them, into [null]. *)
Definition fetchRoomDetails (roomId : string) : M (option RoomDetails) :=
  fun w =>
    match Room_findById roomId w with
    | (Ok (Some room), w') =>
        let participants := map listed (users room) in
        (Ok (Some {| d_adminName := adminName room;
                     participants := participants;
                     activeUsersCount := length participants |}), w')
    | (Ok None, w') => (Ok None, w')
    | (Thrown _, w') => (Ok None, w')
    end.

Definition room_error (sid : string) (message : string) : M unit :=
  emit (ToSocket sid) "room-error" (PText message).

(** [new Room({ ... })] in [create-room], with [admin] and the [id] of
    the participant cast: the admin is the first and only participant,
    nothing is loaded and playback is at rest. *)
Definition new_room (env : Env) (userId : ObjectId) (userName : string)
    (adminUser : User) : Room :=
  {| r_id := newObjectId env;
     name := userName ++ "-Room-" ++ pretty (dateNow env);
     admin := userId;
     adminName := userName;
     users := [participant userId adminUser];
     videoUrl := "";
     serviceId := "1";
     isPlaying := false;
     playbackTime := 0%Z;
     createdAt := dateNow env |}.

(** ** Handlers *)

(** The cast of [admin: userId] in [new Room] cannot fail where it
    stands: [findById] has cast the same string. *)
Definition create_room (env : Env) (sid : string) (userId userName : jsval)
  : World -> World :=
  exec (try_catch
    (when_ (negb (truthy userId) || negb (isValidObjectId userId))
       (throw "Invalid userId: must be a valid ObjectId") ;;
     when_ (negb (truthy userName) || negb (is_string userName))
       (throw "Invalid userName: must be a non-empty string") ;;
     let userId := to_string userId in
     let userName := to_string userName in
     adminUser <- User_findById userId ;;
     match adminUser with
     | None => throw ("User " ++ userId ++ " not found")
     | Some adminUser =>
         existingRoom <- Room_findOne userId ;;
         match existingRoom with
         | Some existingRoom =>
             Room_deleteOne userId ;;
             Message_deleteMany_id (r_id existingRoom)
         | None => ret tt
         end ;;
         adminId <- castObjectId userId "admin" "Room" ;;
         let room := new_room env adminId userName adminUser in
         Room_save room ;;
         let roomId := toString (r_id room) in
         socket_join sid roomId ;;
         map_set sid userId ;;
         emit (ToChannel roomId) "room-created"
           (PRoomCreated roomId (toString (admin room))
              (map (fun user => toString (p_id user)) (users room))
              (adminName room)) ;;
         roomDetails <- fetchRoomDetails roomId ;;
         emit (ToChannel roomId) "room-details" (PRoomDetails roomDetails)
     end)
    (fun message => room_error sid ("Failed to create room: " ++ message))).

Definition join_room (sid : string) (roomId userId : jsval) : World -> World :=
  exec (try_catch
    (when_ (negb (isValidObjectId userId))
       (throw "Invalid userId: must be a valid ObjectId") ;;
     when_ (negb (isValidObjectId roomId))
       (throw "Invalid roomId: must be a valid ObjectId") ;;
     let roomId := to_string roomId in
     let userId := to_string userId in
     room <- Room_findById roomId ;;
     match room with
     | None => room_error sid ("Room " ++ roomId ++ " does not exist")
     | Some room =>
         user <- User_findById userId ;;
         match user with
         | None => throw ("User " ++ userId ++ " not found")
         | Some user =>
             socket_join sid roomId ;;
             map_set sid userId ;;
             let userExists := existsb (spelled userId) (users room) in
             when_ (negb userExists)
               (Room_findByIdAndUpdate roomId (Push (snapshot userId user))) ;;
             updatedRoom <- Room_findById roomId ;;
             match updatedRoom with
             | None => throw "Cannot read properties of null (reading 'admin')"
             | Some updatedRoom =>
                 emit (ToSocket sid) "room-joined"
                   (PRoomJoined roomId (toString (admin updatedRoom))
                      (videoUrl updatedRoom) (adminName updatedRoom)
                      (users updatedRoom)) ;;
                 emit (ToChannel roomId) "update-participants"
                   (PParticipants (users updatedRoom)) ;;
                 roomDetails <- fetchRoomDetails roomId ;;
                 match roomDetails with
                 | Some _ => emit (ToChannel roomId) "room-details" (PRoomDetails roomDetails)
                 | None => room_error sid ("Failed to fetch room details for room " ++ roomId)
                 end
             end
         end
     end)
    (fun message => room_error sid ("Failed to join room: " ++ message))).

Definition play_video (sid : string) (roomId : jsval) (url : string) (adminId : jsval)
  : World -> World :=
  exec (try_catch
    (when_ (negb (isValidObjectId roomId))
       (throw "Invalid roomId: must be a valid ObjectId") ;;
     let roomId := to_string roomId in
     room <- Room_findById roomId ;;
     match room with
     | None => throw ("Room " ++ roomId ++ " not found")
     | Some room =>
         if negb (strict_eq_string (toString (admin room)) adminId)
         then room_error sid "Only the admin can set the video"
         else
           Room_findByIdAndUpdate roomId
             (SetFields (Some url) (Some "1") (Some false) (Some 0%Z)) ;;
           emit (ToChannel roomId) "load-video" (PUrl url)
     end)
    (fun message => room_error sid ("Failed to play video: " ++ message))).

Definition pause_video (sid : string) (roomId : jsval) (time : number) (adminId : jsval)
  : World -> World :=
  exec (try_catch
    (when_ (negb (isValidObjectId roomId))
       (throw "Invalid roomId: must be a valid ObjectId") ;;
     let roomId := to_string roomId in
     room <- Room_findById roomId ;;
     match room with
     | None => throw ("Room " ++ roomId ++ " not found")
     | Some room =>
         if negb (strict_eq_string (toString (admin room)) adminId)
         then ret tt
         else
           Room_findByIdAndUpdate roomId
             (SetFields None None (Some false) (Some time)) ;;
           emit (ToChannel roomId) "pause-video" (PTime time)
     end)
    (fun message => room_error sid ("Failed to pause video: " ++ message))).

Definition resume_video (sid : string) (roomId : jsval) (time : number) (adminId : jsval)
  : World -> World :=
  exec (try_catch
    (when_ (negb (isValidObjectId roomId))
       (throw "Invalid roomId: must be a valid ObjectId") ;;
     let roomId := to_string roomId in
     room <- Room_findById roomId ;;
     match room with
     | None => throw ("Room " ++ roomId ++ " not found")
     | Some room =>
         if negb (strict_eq_string (toString (admin room)) adminId)
         then ret tt
         else
           Room_findByIdAndUpdate roomId
             (SetFields None None (Some true) (Some time)) ;;
           emit (ToChannel roomId) "resume-video" (PTime time)
     end)
    (fun message => room_error sid ("Failed to resume video: " ++ message))).

Definition seek_video (sid : string) (roomId : jsval) (time : number) (adminId : jsval)
  : World -> World :=
  exec (try_catch
    (when_ (negb (isValidObjectId roomId))
       (throw "Invalid roomId: must be a valid ObjectId") ;;
     let roomId := to_string roomId in
     room <- Room_findById roomId ;;
     match room with
     | None => throw ("Room " ++ roomId ++ " not found")
     | Some room =>
         if negb (strict_eq_string (toString (admin room)) adminId)
         then ret tt
         else
           Room_findByIdAndUpdate roomId
             (SetFields None None None (Some time)) ;;
           emit (ToChannel roomId) "seek-video" (PTime time)
     end)
    (fun message => room_error sid ("Failed to seek video: " ++ message))).

(** [new Message({ room: roomId, senderId: msg.userId, text: msg.text,
    sender: user })], with [room] and [senderId] cast. *)
Definition new_message (env : Env) (roomId userId : ObjectId) (text : string)
    (user : User) : Message :=
  {| m_id := newObjectId env;
     room := roomId;
     senderId := userId;
     text := text;
     timestamp := dateNow env;
     sender := user |}.

(** [msg] is the object [{ userId, text }]. The casts of [room] and
    [senderId] cannot fail where they stand: [findById] has cast the
    same strings. *)
Definition send_message (env : Env) (sid : string) (roomId msg_userId : jsval)
    (msg_text : string) : World -> World :=
  exec (try_catch
    (when_ (negb (isValidObjectId msg_userId))
       (throw "Invalid userId: must be a valid ObjectId") ;;
     when_ (negb (isValidObjectId roomId))
       (throw "Invalid roomId: must be a valid ObjectId") ;;
     let roomId := to_string roomId in
     let userId := to_string msg_userId in
     user <- User_findById userId ;;
     match user with
     | None => throw ("User " ++ userId ++ " not found")
     | Some user =>
         room <- Room_findById roomId ;;
         match room with
         | None => throw ("Room " ++ roomId ++ " not found")
         | Some _ =>
             room_ <- castObjectId roomId "room" "Message" ;;
             senderId_ <- castObjectId userId "senderId" "Message" ;;
             let newMessage := new_message env room_ senderId_ msg_text user in
             Message_save newMessage ;;
             emit (ToChannel roomId) "receive-message" (PMessage newMessage)
         end
     end)
    (fun message => room_error sid ("Failed to send message: " ++ message))).

(** What [leave-room] and [disconnect] both do for one room once the
    departing user is taken not to be its admin. *)
Definition remove_member (roomId userId : string) : M unit :=
  Room_findByIdAndUpdate roomId (Pull userId) ;;
  updatedRoom <- Room_findById roomId ;;
  match updatedRoom with
  | None => ret tt
  | Some updatedRoom =>
      if (length (users updatedRoom) =? 0)%nat
      then
        Room_findByIdAndDelete roomId ;;
        Message_deleteMany roomId
      else
        emit (ToChannel roomId) "update-participants"
          (PParticipantIds (map (fun user => toString (p_id user)) (users updatedRoom))) ;;
        roomDetails <- fetchRoomDetails roomId ;;
        match roomDetails with
        | Some _ => emit (ToChannel roomId) "room-details" (PRoomDetails roomDetails)
        | None => ret tt
        end
  end.

(** The admin branch of both. *)
Definition dismiss (roomId : string) : M unit :=
  emit (ToChannel roomId) "room-dismissed" PNone ;;
  Room_findByIdAndDelete roomId ;;
  Message_deleteMany roomId.

(** [room.admin.toString() === userId] *)
Definition isAdmin (room : Room) (userId : string) : bool :=
  bool_decide (toString (admin room) = userId).

Definition leave_room (sid : string) (roomId userId : jsval) : World -> World :=
  exec (
    match roomId with JStr ch => socket_leave sid ch | _ => ret tt end ;;
    try_catch
      (when_ (negb (isValidObjectId userId))
         (throw "Invalid userId: must be a valid ObjectId") ;;
       when_ (negb (isValidObjectId roomId))
         (throw "Invalid roomId: must be a valid ObjectId") ;;
       let roomId := to_string roomId in
       let userId := to_string userId in
       room <- Room_findById roomId ;;
       match room with
       | None => ret tt
       | Some room =>
           if isAdmin room userId
           then dismiss roomId
           else remove_member roomId userId
       end)
      (fun message => room_error sid ("Failed to leave room: " ++ message))).

(** The body of the loop of [disconnect], for one room of the list
    that was read. *)
Definition depart (userId : string) (room : Room) : M unit :=
  let roomId := toString (r_id room) in
  if isAdmin room userId
  then dismiss roomId
  else remove_member roomId userId.

(** [disconnect] has no [try]: a registry value that does not cast
    rejects [Room.find] and with it the handler. *)
Definition disconnect (sid : string) : World -> World :=
  exec (
    userId <- map_get sid ;;
    match userId with
    | None => ret tt
    | Some userId =>
        if bool_decide (userId = "") then ret tt
        else
          map_delete sid ;;
          userRooms <- Room_find userId ;;
          for_each userRooms (depart userId)
    end).

(** The voice handlers keep no state but channel membership. *)
Definition voice (roomId : jsval) : string := to_string roomId ++ "-voice".

Definition join_voice (sid : string) (roomId userId : jsval) : World -> World :=
  exec (
    socket_join sid (voice roomId) ;;
    emit (ToChannel (voice roomId)) "user-joined-voice" (PUserId userId)).

Definition leave_voice (sid : string) (roomId userId : jsval) : World -> World :=
  exec (
    socket_leave sid (voice roomId) ;;
    emit (ToChannel (voice roomId)) "user-left-voice" (PUserId userId)).

(** [voice-offer], [voice-answer] and [voice-candidate] relay [body]
    to the channel [to], tagged with the sender's connection id. *)
Definition relay (event : string) (sid : string) (to : string) (body : jsval)
  : World -> World :=
  exec (emit (ToChannel to) event (PSignal sid body)).

(** [mic-enabled], [mic-disabled] *)
Definition mic (event : string) (roomId userId : jsval) : World -> World :=
  exec (emit (ToChannel (voice roomId)) event (PUserId userId)).

(** ** Dispatch *)

(** What a connection can send. [GetRoomDetails] is an event clients of
    the earlier server send; the connection block of [server.js]
    registers no listener under that name, and an event without a
    listener is dropped. *)
Inductive event : Type :=
| CreateRoom (userId userName : jsval)
| JoinRoom (roomId userId : jsval)
| PlayVideo (roomId : jsval) (url : string) (adminId : jsval)
| PauseVideo (roomId : jsval) (time : number) (adminId : jsval)
| ResumeVideo (roomId : jsval) (time : number) (adminId : jsval)
| SeekVideo (roomId : jsval) (time : number) (adminId : jsval)
| SendMessage (roomId userId : jsval) (text : string)
| LeaveRoom (roomId userId : jsval)
| Disconnect
| JoinVoice (roomId userId : jsval)
| LeaveVoice (roomId userId : jsval)
| VoiceOffer (to : string) (offer : jsval)
| VoiceAnswer (to : string) (answer : jsval)
| VoiceCandidate (to : string) (candidate : jsval)
| MicEnabled (roomId userId : jsval)
| MicDisabled (roomId userId : jsval)
| GetRoomDetails (roomId : jsval).

Definition on (env : Env) (sid : string) (ev : event) : World -> World :=
  match ev with
  | CreateRoom userId userName => create_room env sid userId userName
  | JoinRoom roomId userId => join_room sid roomId userId
  | PlayVideo roomId url adminId => play_video sid roomId url adminId
  | PauseVideo roomId time adminId => pause_video sid roomId time adminId
  | ResumeVideo roomId time adminId => resume_video sid roomId time adminId
  | SeekVideo roomId time adminId => seek_video sid roomId time adminId
  | SendMessage roomId userId text => send_message env sid roomId userId text
  | LeaveRoom roomId userId => leave_room sid roomId userId
  | Disconnect => disconnect sid
  | JoinVoice roomId userId => join_voice sid roomId userId
  | LeaveVoice roomId userId => leave_voice sid roomId userId
  | VoiceOffer to offer => relay "voice-offer" sid to offer
  | VoiceAnswer to answer => relay "voice-answer" sid to answer
  | VoiceCandidate to candidate => relay "voice-candidate" sid to candidate
  | MicEnabled roomId userId => mic "mic-enabled" roomId userId
  | MicDisabled roomId userId => mic "mic-disabled" roomId userId
  | GetRoomDetails _ => fun w => w
  end.

(** ** [join-room] between its suspension points *)

(** A handler runs without interruption up to its next [await] on the
    repository; other handlers may run while it is suspended. The
    control points of [join-room] carry the locals that are live across
    the suspension. *)
Inductive join_pc : Type :=
| JoinStart
| JoinFoundRoom (room : Room)
| JoinPush (user : User)
| JoinRefetch
| JoinDetails
| JoinDone.

(** One segment: the awaited repository call and the synchronous code
    that follows it, up to the next [await]. *)
Definition join_segment (sid : string) (roomId userId : jsval) (pc : join_pc)
  : M join_pc :=
  match pc with
  | JoinStart =>
      when_ (negb (isValidObjectId userId))
        (throw "Invalid userId: must be a valid ObjectId") ;;
      when_ (negb (isValidObjectId roomId))
        (throw "Invalid roomId: must be a valid ObjectId") ;;
      let roomId := to_string roomId in
      room <- Room_findById roomId ;;
      match room with
      | None =>
          room_error sid ("Room " ++ roomId ++ " does not exist") ;;
          ret JoinDone
      | Some room => ret (JoinFoundRoom room)
      end
  | JoinFoundRoom room =>
      let roomId := to_string roomId in
      let userId := to_string userId in
      user <- User_findById userId ;;
      match user with
      | None => throw ("User " ++ userId ++ " not found")
      | Some user =>
          socket_join sid roomId ;;
          map_set sid userId ;;
          let userExists := existsb (spelled userId) (users room) in
          if negb userExists then ret (JoinPush user) else ret JoinRefetch
      end
  | JoinPush user =>
      let roomId := to_string roomId in
      let userId := to_string userId in
      Room_findByIdAndUpdate roomId (Push (snapshot userId user)) ;;
      ret JoinRefetch
  | JoinRefetch =>
      let roomId := to_string roomId in
      updatedRoom <- Room_findById roomId ;;
      match updatedRoom with
      | None => throw "Cannot read properties of null (reading 'admin')"
      | Some updatedRoom =>
          emit (ToSocket sid) "room-joined"
            (PRoomJoined roomId (toString (admin updatedRoom))
               (videoUrl updatedRoom) (adminName updatedRoom)
               (users updatedRoom)) ;;
          emit (ToChannel roomId) "update-participants"
            (PParticipants (users updatedRoom)) ;;
          ret JoinDetails
      end
  | JoinDetails =>
      let roomId := to_string roomId in
      roomDetails <- fetchRoomDetails roomId ;;
      match roomDetails with
      | Some _ => emit (ToChannel roomId) "room-details" (PRoomDetails roomDetails)
      | None => room_error sid ("Failed to fetch room details for room " ++ roomId)
      end ;;
      ret JoinDone
  | JoinDone => ret JoinDone
  end.

(** A throw in any segment lands in the handler's [catch]. *)
Definition join_step (sid : string) (roomId userId : jsval)
    (st : join_pc * World) : join_pc * World :=
  match join_segment sid roomId userId (fst st) (snd st) with
  | (Ok pc, w) => (pc, w)
  | (Thrown message, w) =>
      (JoinDone, exec (room_error sid ("Failed to join room: " ++ message)) w)
  end.

(** A [join-room] call in flight on some connection. *)
Record task : Type := {
  t_sid : string;
  t_roomId : jsval;
  t_userId : jsval;
  t_pc : join_pc
}.

Definition resume (t : task) (w : World) : task * World :=
  let '(pc, w') := join_step (t_sid t) (t_roomId t) (t_userId t) (t_pc t, w) in
  ({| t_sid := t_sid t; t_roomId := t_roomId t; t_userId := t_userId t;
      t_pc := pc |}, w').

(** Two calls in flight; the schedule says which one the event loop
    resumes next ([false] the first, [true] the second). *)
Fixpoint interleave (schedule : list bool) (a b : task) (w : World)
  : task * task * World :=
  match schedule with
  | [] => (a, b, w)
  | false :: schedule' =>
      let '(a', w') := resume a w in interleave schedule' a' b w'
  | true :: schedule' =>
      let '(b', w') := resume b w in interleave schedule' a b' w'
  end.

Definition joining (sid roomId userId : string) : task :=
  {| t_sid := sid; t_roomId := JStr roomId; t_userId := JStr userId;
     t_pc := JoinStart |}.

(** The participants a room has in a world. *)
Definition members (w : World) (roomId : ObjectId) : list Participant :=
  match List.find (has_id roomId) (Rooms w) with
  | Some room => users room
  | None => []
  end.

(** ** [create-room] between its suspension points *)

(** The control points of [create-room], with the locals that are live
    across the suspension. *)
Inductive create_pc : Type :=
| CreateStart
| CreateFoundUser (adminUser : User)
| CreateDeleteRoom (adminUser : User) (existingRoom : Room)
| CreateDeleteMessages (adminUser : User) (existingRoom : Room)
| CreateSave (adminUser : User)
| CreateDetails (roomId : string)
| CreateDone.

Definition create_segment (env : Env) (sid : string) (userId userName : jsval)
    (pc : create_pc) : M create_pc :=
  match pc with
  | CreateStart =>
      when_ (negb (truthy userId) || negb (isValidObjectId userId))
        (throw "Invalid userId: must be a valid ObjectId") ;;
      when_ (negb (truthy userName) || negb (is_string userName))
        (throw "Invalid userName: must be a non-empty string") ;;
      let userId := to_string userId in
      adminUser <- User_findById userId ;;
      match adminUser with
      | None => throw ("User " ++ userId ++ " not found")
      | Some adminUser => ret (CreateFoundUser adminUser)
      end
  | CreateFoundUser adminUser =>
      let userId := to_string userId in
      existingRoom <- Room_findOne userId ;;
      match existingRoom with
      | Some existingRoom => ret (CreateDeleteRoom adminUser existingRoom)
      | None => ret (CreateSave adminUser)
      end
  | CreateDeleteRoom adminUser existingRoom =>
      let userId := to_string userId in
      Room_deleteOne userId ;;
      ret (CreateDeleteMessages adminUser existingRoom)
  | CreateDeleteMessages adminUser existingRoom =>
      Message_deleteMany_id (r_id existingRoom) ;;
      ret (CreateSave adminUser)
  | CreateSave adminUser =>
      let userId := to_string userId in
      let userName := to_string userName in
      adminId <- castObjectId userId "admin" "Room" ;;
      let room := new_room env adminId userName adminUser in
      Room_save room ;;
      let roomId := toString (r_id room) in
      socket_join sid roomId ;;
      map_set sid userId ;;
      emit (ToChannel roomId) "room-created"
        (PRoomCreated roomId (toString (admin room))
           (map (fun user => toString (p_id user)) (users room))
           (adminName room)) ;;
      ret (CreateDetails roomId)
  | CreateDetails roomId =>
      roomDetails <- fetchRoomDetails roomId ;;
      emit (ToChannel roomId) "room-details" (PRoomDetails roomDetails) ;;
      ret CreateDone
  | CreateDone => ret CreateDone
  end.

(** A throw in any segment lands in the handler's [catch]. *)
Definition create_step (env : Env) (sid : string) (userId userName : jsval)
    (st : create_pc * World) : create_pc * World :=
  match create_segment env sid userId userName (fst st) (snd st) with
  | (Ok pc, w) => (pc, w)
  | (Thrown message, w) =>
      (CreateDone, exec (room_error sid ("Failed to create room: " ++ message)) w)
  end.

(** A [create-room] call in flight on some connection, with what the
    runtime supplies to it. *)
Record creation : Type := {
  c_env : Env;
  c_sid : string;
  c_userId : jsval;
  c_userName : jsval;
  c_pc : create_pc
}.

Definition proceed (c : creation) (w : World) : creation * World :=
  let '(pc, w') :=
    create_step (c_env c) (c_sid c) (c_userId c) (c_userName c) (c_pc c, w) in
  ({| c_env := c_env c; c_sid := c_sid c; c_userId := c_userId c;
      c_userName := c_userName c; c_pc := pc |}, w').

(** Two calls in flight; the schedule says which one the event loop
    resumes next ([false] the first, [true] the second). *)
Fixpoint interleave_creations (schedule : list bool) (a b : creation) (w : World)
  : creation * creation * World :=
  match schedule with
  | [] => (a, b, w)
  | false :: schedule' =>
      let '(a', w') := proceed a w in interleave_creations schedule' a' b w'
  | true :: schedule' =>
      let '(b', w') := proceed b w in interleave_creations schedule' a b' w'
  end.

Definition creating (env : Env) (sid userId userName : string) : creation :=
  {| c_env := env; c_sid := sid; c_userId := JStr userId;
     c_userName := JStr userName; c_pc := CreateStart |}.

(** ** Store invariants *)

(** The admin of a room is among its participants; the room then has at
    least one. *)
Definition room_ok (r : Room) : Prop :=
  In (admin r) (map p_id (users r)) /\ 1 <= length (users r).

(** Room ids are unique (they are the collection's primary key). *)
Definition keys_ok (w : World) : Prop :=
  List.NoDup (map r_id (Rooms w)).

(** Room ids are unique and every room is well formed. *)
Definition store_ok (w : World) : Prop :=
  List.NoDup (map r_id (Rooms w)) /\ Forall room_ok (Rooms w).

(** No user administers two rooms. *)
Definition one_room_per_admin (w : World) : Prop :=
  List.NoDup (map admin (Rooms w)).

(** The ObjectId the runtime generates next is not the id of a stored
    room. *)
Definition fresh (env : Env) (w : World) : Prop :=
  ~ In (newObjectId env) (map r_id (Rooms w)).

(** No message of the world refers to the room. *)
Definition no_messages (w : World) (roomId : ObjectId) : Prop :=
  forall m, In m (Messages w) -> room m <> roomId.

(** The room and its messages are no longer in the store. *)
Definition gone (roomId : ObjectId) (w : World) : Prop :=
  ~ In roomId (map r_id (Rooms w)) /\ no_messages w roomId.

(** ** What a query by a string finds *)

Definition found_user (w : World) (userId : string) : option User :=
  match ObjectId_cast userId with
  | Some o => List.find (is_id o) (Users w)
  | None => None
  end.

Definition found_room (w : World) (roomId : string) : option Room :=
  match ObjectId_cast roomId with
  | Some o => List.find (has_id o) (Rooms w)
  | None => None
  end.

(** The string is the one [toString()] gives the id it casts to. *)
Definition plain (id : string) : Prop :=
  forall o, ObjectId_cast id = Some o -> toString o = id.

(** The user ids of an event are spelled as [toString()] spells
    them, and so are the ids the registry holds. *)
Definition plainly (ev : event) : Prop :=
  match ev with
  | CreateRoom userId _ | JoinRoom _ userId | LeaveRoom _ userId =>
      plain (to_string userId)
  | _ => True
  end.

Definition registry_plain (w : World) : Prop :=
  forall sid userId, socketToUserMap w !! sid = Some userId -> plain userId.

(** The world accepts the message: both ids pass the check, sender and
    room are found, and the text is one the schema accepts. *)
Definition sendable (w : World) (roomId userId : jsval) (text : string) : bool :=
  isValidObjectId userId && isValidObjectId roomId &&
  bool_decide (is_Some (found_user w (to_string userId))) &&
  bool_decide (is_Some (found_room w (to_string roomId))) &&
  negb (bool_decide (text = "")).

(** ** The store after a departure *)

Definition pull_rooms (roomId userId : ObjectId) (rooms : list Room) : list Room :=
  update_first (has_id roomId) (apply_update (Pull userId)) rooms.

(** The removal of the user leaves the room without participants. *)
Definition collapses (roomId userId : ObjectId) (rooms : list Room) : bool :=
  match List.find (has_id roomId) (pull_rooms roomId userId rooms) with
  | Some updatedRoom => (length (users updatedRoom) =? 0)%nat
  | None => false
  end.

(** The rooms and the messages that [depart] leaves, as functions of the
    store alone, for the user id [userId] that casts to [uid]. *)
Definition depart_rooms (userId : string) (uid : ObjectId) (s : Room)
    (rooms : list Room) : list Room :=
  if isAdmin s userId
  then delete_first (has_id (r_id s)) rooms
  else if collapses (r_id s) uid rooms
  then delete_first (has_id (r_id s)) (pull_rooms (r_id s) uid rooms)
  else pull_rooms (r_id s) uid rooms.

Definition depart_messages (userId : string) (uid : ObjectId) (s : Room)
    (rooms : list Room) (msgs : list Message) : list Message :=
  if isAdmin s userId || collapses (r_id s) uid rooms
  then List.filter (fun m => negb (in_room (r_id s) m)) msgs
  else msgs.

(** The world after one turn of the loop of [disconnect]. *)
Definition departed (userId : string) (w : World) (s : Room) : World :=
  snd (depart userId s w).

(** What the admin branch of [leave-room] and [disconnect] does, in
    order, for the room id [roomId] that casts to [rid]. *)
Definition dismissal (roomId : string) (rid : ObjectId) : list effect :=
  [Emit (ToChannel roomId) "room-dismissed" PNone;
   Wrote (RoomFindByIdAndDelete rid);
   Wrote (MessageDeleteMany rid)].

(** One edit of the room collection by a handler other than
    [create-room]. *)
Inductive rooms_step (l : list Room) : list Room -> Prop :=
| step_same : rooms_step l l
| step_delete (P : Room -> bool) : rooms_step l (delete_first P l)
| step_update (id : ObjectId) (u : update ObjectId) :
    rooms_step l (update_first (has_id id) (apply_update u) l).

(** Every room of [l] stems from a room of [l0] with the same id and
    the same admin. *)
Definition stems_from (l0 l : list Room) : Prop :=
  forall r, In r l -> exists r0, In r0 l0 /\ r_id r0 = r_id r /\ admin r0 = admin r.

(** The events of a history, each with the connection it arrives on and
    what the runtime supplies to its handler. *)
Definition history : Type := list (Env * string * event).

Definition replay (h : history) (w : World) : World :=
  fold_left (fun w '(env, sid, ev) => on env sid ev w) h w.

(** ** Acceptance of [create-room] and [join-room] *)

(** The checks [create-room] makes before it touches the store. *)
Definition creatable (w : World) (userId userName : jsval) : bool :=
  truthy userId && isValidObjectId userId &&
  truthy userName && is_string userName &&
  bool_decide (is_Some (found_user w (to_string userId))).

(** The checks [join-room] makes before it touches anything. *)
Definition joinable (w : World) (roomId userId : jsval) : bool :=
  isValidObjectId userId && isValidObjectId roomId &&
  bool_decide (is_Some (found_room w (to_string roomId))) &&
  bool_decide (is_Some (found_user w (to_string userId))).

(** What [fetchRoomDetails] reports for a room. *)
Definition details_of (r : Room) : RoomDetails :=
  let participants := map listed (users r) in
  {| d_adminName := adminName r;
     participants := participants;
     activeUsersCount := length participants |}.

(** ** The message route *)

(** [router.get("/:roomId")] of the message routes answers with
    [Message.find({ room: req.params.roomId })], for a [roomId] that
    casts to [rid]. *)
Definition message_route (rid : ObjectId) (w : World) : list Message :=
  List.filter (in_room rid) (Messages w).

(** Every stored message refers to a stored room. *)
Definition no_orphans (w : World) : Prop :=
  forall m, In m (Messages w) -> In (room m) (map r_id (Rooms w)).

(** The events whose handlers write the message collection. *)
Definition writes_messages (ev : event) : bool :=
  match ev with
  | CreateRoom _ _ | SendMessage _ _ _ | LeaveRoom _ _ | Disconnect => true
  | _ => false
  end.

(** What a handler run adds to the trace is reported to the caller
    alone when it is a [room-error]. *)
Definition errors_to (sid : string) (t : list effect) : Prop :=
  forall tg p, In (Emit tg "room-error" p) t -> tg = ToSocket sid.

(** What one turn of the loop of [disconnect] can add to the trace: a
    write, or one of its three broadcasts. *)
Definition loop_effect (e : effect) : Prop :=
  match e with
  | Wrote _ => True
  | Emit (ToChannel _) event (PNone | PParticipantIds _ | PRoomDetails _) =>
      event <> "room-error"
  | _ => False
  end.

(** In the loop of [disconnect]: the rooms that still hold the user are
    rooms the loop has yet to visit. *)
Definition pending (userId : ObjectId) (rest l : list Room) : Prop :=
  List.NoDup (map r_id l) /\
  forall r, In r l -> has_member userId r = true -> In (r_id r) (map r_id rest).

(** Every signalling payload of a trace names [sid] as its sender. *)
Definition signals_from (sid : string) (t : list effect) : Prop :=
  forall tg name from body, In (Emit tg name (PSignal from body)) t -> from = sid.

(** What the gate of the earlier server protects: the admin and the
    participants of an entry. *)
Definition standing (e : Legacy.Entry) : string * list string :=
  (Legacy.admin e, Legacy.participants e).

(** ** Lists: first-match update and delete *)

Lemma find_update_first {A} (P : A -> bool) (f : A -> A) (l : list A) :
  (forall x, P (f x) = P x) ->
  List.find P (update_first P f l) = option_map f (List.find P l).
Proof.
  intros HP. induction l as [|x l IH]; simpl; [reflexivity|].
  destruct (P x) eqn:E; simpl.
  - now rewrite HP, E.
  - now rewrite E.
Qed.

Lemma find_update_first_other {A} (P Q : A -> bool) (f : A -> A) (l : list A) :
  (forall x, Q (f x) = Q x) ->
  (forall x, P x = true -> Q x = false) ->
  List.find Q (update_first P f l) = List.find Q l.
Proof.
  intros HQ HPQ. induction l as [|x l IH]; simpl; [reflexivity|].
  destruct (P x) eqn:E; simpl.
  - rewrite HQ, (HPQ x E). reflexivity.
  - now rewrite IH.
Qed.

Lemma map_update_first {A B} (P : A -> bool) (f : A -> A) (g : A -> B) (l : list A) :
  (forall x, g (f x) = g x) ->
  map g (update_first P f l) = map g l.
Proof.
  intros Hg. induction l as [|x l IH]; simpl; [reflexivity|].
  destruct (P x); simpl; [now rewrite Hg | now rewrite IH].
Qed.

Lemma Forall_update_first {A} (Q : A -> Prop) (P : A -> bool) (f : A -> A) (l : list A) :
  Forall Q l ->
  (forall x, List.find P l = Some x -> Q x -> Q (f x)) ->
  Forall Q (update_first P f l).
Proof.
  induction l as [|x l IH]; simpl; intros HQ Hf; [constructor|].
  inversion HQ as [|? ? Hx Hl]; subst.
  destruct (P x) eqn:E.
  - constructor; [apply Hf; auto | assumption].
  - constructor; [assumption | apply IH; assumption].
Qed.

Lemma in_update_first {A} (P : A -> bool) (f : A -> A) (l : list A) (y : A) :
  In y (update_first P f l) ->
  In y l \/ exists x, In x l /\ y = f x.
Proof.
  induction l as [|x l IH]; simpl; [tauto|].
  destruct (P x); simpl.
  - intros [<-|H]; [right; exists x; auto | auto].
  - intros [<-|H]; [auto|].
    destruct (IH H) as [H'|(x' & Hx' & ->)]; [auto|].
    right; exists x'; auto.
Qed.

Lemma in_delete_first {A} (P : A -> bool) (l : list A) (y : A) :
  In y (delete_first P l) -> In y l.
Proof.
  induction l as [|x l IH]; simpl; [tauto|].
  destruct (P x); simpl; [auto|]. intros [H|H]; auto.
Qed.

Lemma Forall_delete_first {A} (Q : A -> Prop) (P : A -> bool) (l : list A) :
  Forall Q l -> Forall Q (delete_first P l).
Proof.
  rewrite !List.Forall_forall. intros H y Hy. apply H. eapply in_delete_first; eauto.
Qed.

Lemma NoDup_map_delete_first {A B} (g : A -> B) (P : A -> bool) (l : list A) :
  List.NoDup (map g l) -> List.NoDup (map g (delete_first P l)).
Proof.
  induction l as [|x l IH]; simpl; intros H; [assumption|].
  inversion H as [|? ? Hx Hl]; subst.
  destruct (P x); simpl; [assumption|].
  constructor; [|auto].
  intros Hin. apply Hx. apply in_map_iff in Hin as (y & Hy & Hin).
  apply in_map_iff. exists y. split; [assumption|].
  eapply in_delete_first; eauto.
Qed.

(** Deleting the first document with a key removes the key when keys
    are unique. *)
Lemma delete_first_key {A K} `{EqDecision K} (g : A -> K) (k : K) (l : list A) :
  List.NoDup (map g l) ->
  ~ In k (map g (delete_first (fun x => bool_decide (g x = k)) l)).
Proof.
  induction l as [|x l IH]; simpl; intros H; [tauto|].
  inversion H as [|? ? Hx Hl]; subst.
  case_bool_decide as E; simpl.
  - now rewrite <- E.
  - intros [Hk|Hk]; [congruence | now apply IH].
Qed.

Lemma find_key_None {A K} `{EqDecision K} (g : A -> K) (k : K) (l : list A) :
  ~ In k (map g l) -> List.find (fun x => bool_decide (g x = k)) l = None.
Proof.
  intros H. destruct (List.find _ l) as [x|] eqn:E; [|reflexivity].
  apply find_some in E as [Hin Hk]. apply bool_decide_eq_true in Hk.
  exfalso. apply H. apply in_map_iff. eauto.
Qed.

Lemma find_key_unique {A K} `{EqDecision K} (g : A -> K) (l : list A) (x : A) :
  List.NoDup (map g l) -> In x l ->
  List.find (fun y => bool_decide (g y = g x)) l = Some x.
Proof.
  induction l as [|y l IH]; simpl; intros H Hin; [tauto|].
  inversion H as [|? ? Hy Hl]; subst.
  case_bool_decide as E.
  - destruct Hin as [->|Hin]; [reflexivity|].
    exfalso. apply Hy. rewrite E. now apply in_map.
  - destruct Hin as [->|Hin]; [congruence | auto].
Qed.

Lemma find_delete_first_other {A} (P Q : A -> bool) (l : list A) :
  (forall x, P x = true -> Q x = false) ->
  List.find Q (delete_first P l) = List.find Q l.
Proof.
  intros HPQ. induction l as [|x l IH]; simpl; [reflexivity|].
  destruct (P x) eqn:E; simpl.
  - now rewrite (HPQ x E).
  - now rewrite IH.
Qed.

(** ** What an update keeps *)

Lemma apply_update_id (u : update ObjectId) (r : Room) : r_id (apply_update u r) = r_id r.
Proof. destruct u; reflexivity. Qed.

Lemma apply_update_admin (u : update ObjectId) (r : Room) : admin (apply_update u r) = admin r.
Proof. destruct u; reflexivity. Qed.

Lemma has_id_apply_update (id : ObjectId) (u : update ObjectId) (r : Room) :
  has_id id (apply_update u r) = has_id id r.
Proof. unfold has_id. now rewrite apply_update_id. Qed.

Lemma has_id_other (id id' : ObjectId) (r : Room) :
  id <> id' -> has_id id r = true -> has_id id' r = false.
Proof.
  unfold has_id. intros Hne H. apply bool_decide_eq_true in H.
  apply bool_decide_eq_false. congruence.
Qed.

Lemma strict_eq_string_true (s : string) (v : jsval) :
  strict_eq_string s v = true <-> v = JStr s.
Proof.
  destruct v; simpl; try (split; intros; discriminate).
  rewrite bool_decide_eq_true. split; congruence.
Qed.

(** ** Running a handler *)

Ltac run :=
  unfold dismiss, remove_member, fetchRoomDetails, room_error;
  unfold Room_findById, User_findById, Room_findOne, Room_find, Room_deleteOne,
    Room_findByIdAndUpdate, Room_findByIdAndDelete, Message_deleteMany,
    Message_deleteMany_id, cast_update;
  unfold exec, try_catch, bind, when_, throw, ret, emit, castObjectId,
    Room_save, Message_save, socket_join, socket_leave,
    map_set, map_get, map_delete;
  simpl.

(** ** A room under an update *)

Lemma find_after_update (roomId : ObjectId) (u : update ObjectId) (w : World)
    (room : Room) :
  List.find (has_id roomId) (Rooms w) = Some room ->
  List.find (has_id roomId)
    (update_first (has_id roomId) (apply_update u) (Rooms w))
  = Some (apply_update u room).
Proof.
  intros Hf. rewrite find_update_first.
  - now rewrite Hf.
  - intros x. apply has_id_apply_update.
Qed.

Lemma find_other_after_update (roomId id : ObjectId) (u : update ObjectId)
    (rooms : list Room) :
  id <> roomId ->
  List.find (has_id id) (update_first (has_id roomId) (apply_update u) rooms)
  = List.find (has_id id) rooms.
Proof.
  intros Hne. apply find_update_first_other.
  - intros x. apply has_id_apply_update.
  - intros x. apply has_id_other. congruence.
Qed.

Lemma find_snoc_fresh (l : list Room) (r : Room) :
  ~ In (r_id r) (map r_id l) ->
  List.find (has_id (r_id r)) (l ++ [r]) = Some r.
Proof.
  intros H. induction l as [|x l IH]; simpl.
  - unfold has_id. now rewrite bool_decide_eq_true_2.
  - unfold has_id at 1. rewrite bool_decide_eq_false_2.
    + apply IH. intros Hin. apply H. now right.
    + intros E. apply H. left. assumption.
Qed.

(** ** The playback gate *)

(** C1, as the code has it: a playback-control event on an existing room
    whose [adminId] is not the room's admin changes nothing in the world
    and reaches no channel. [play-video] answers the caller with one
    [room-error]; [pause-video], [resume-video] and [seek-video] return
    without emitting anything. *)
Theorem unauthorized_playback_is_rejected
    (w : World) (sid roomId : string) (adminId : jsval) (rid : ObjectId)
    (room : Room) :
  isValidObjectId (JStr roomId) = true ->
  ObjectId_cast roomId = Some rid ->
  List.find (has_id rid) (Rooms w) = Some room ->
  strict_eq_string (toString (admin room)) adminId = false ->
  (forall url,
      play_video sid (JStr roomId) url adminId w
      = log (Emit (ToSocket sid) "room-error"
               (PText "Only the admin can set the video")) w) /\
  (forall time,
      pause_video sid (JStr roomId) time adminId w = w /\
      resume_video sid (JStr roomId) time adminId w = w /\
      seek_video sid (JStr roomId) time adminId w = w).
Proof.
  intros Hv Hc Hf Ha. simpl in Hv.
  split; [intros url | intros time; repeat split].
  all: unfold play_video, pause_video, resume_video, seek_video; run.
  all: rewrite Hv; simpl; rewrite Hc; simpl; rewrite Hf, Ha; reflexivity.
Qed.

(** C6: an accepted [play-video] first completes the update that sets
    [videoUrl] to the given url, [isPlaying] to false and [playbackTime]
    to 0 on the room, and only then emits [load-video] with the url to
    the room channel; these two are all it does. *)
Theorem play_video_persists_then_broadcasts
    (w : World) (sid roomId url : string) (adminId : jsval) (rid : ObjectId)
    (room : Room) :
  isValidObjectId (JStr roomId) = true ->
  ObjectId_cast roomId = Some rid ->
  List.find (has_id rid) (Rooms w) = Some room ->
  strict_eq_string (toString (admin room)) adminId = true ->
  let w' := play_video sid (JStr roomId) url adminId w in
  let reset := SetFields (Some url) (Some "1") (Some false) (Some 0%Z) in
  trace w' = (trace w ++ [Wrote (RoomFindByIdAndUpdate rid reset);
                          Emit (ToChannel roomId) "load-video" (PUrl url)])%list /\
  (exists room',
      List.find (has_id rid) (Rooms w') = Some room' /\
      videoUrl room' = url /\ isPlaying room' = false /\
      playbackTime room' = 0%Z) /\
  Rooms w' = update_first (has_id rid) (apply_update reset) (Rooms w).
Proof.
  intros Hv Hc Hf Ha. simpl in Hv.
  unfold play_video; run. rewrite Hv; simpl. rewrite Hc; simpl.
  rewrite Hf, Ha; simpl.
  split; [now rewrite <- app_assoc|].
  split; [|reflexivity].
  eexists. split; [apply find_after_update; eassumption|].
  simpl. auto.
Qed.

(** C10: an accepted [seek-video] changes, in the whole store, only the
    [playbackTime] of the room: every other field of that room, every
    other room, the messages and the users stay as they were. *)
Theorem seek_video_frame
    (w : World) (sid roomId : string) (time : number) (adminId : jsval)
    (rid : ObjectId) (room : Room) :
  isValidObjectId (JStr roomId) = true ->
  ObjectId_cast roomId = Some rid ->
  List.find (has_id rid) (Rooms w) = Some room ->
  strict_eq_string (toString (admin room)) adminId = true ->
  let w' := seek_video sid (JStr roomId) time adminId w in
  (exists room',
      List.find (has_id rid) (Rooms w') = Some room' /\
      playbackTime room' = time /\
      videoUrl room' = videoUrl room /\ serviceId room' = serviceId room /\
      isPlaying room' = isPlaying room /\ admin room' = admin room /\
      adminName room' = adminName room /\ users room' = users room /\
      r_id room' = r_id room /\ name room' = name room /\
      createdAt room' = createdAt room) /\
  (forall id, id <> rid ->
      List.find (has_id id) (Rooms w') = List.find (has_id id) (Rooms w)) /\
  map r_id (Rooms w') = map r_id (Rooms w) /\
  Messages w' = Messages w /\ Users w' = Users w.
Proof.
  intros Hv Hc Hf Ha. simpl in Hv.
  unfold seek_video; run. rewrite Hv; simpl. rewrite Hc; simpl.
  rewrite Hf, Ha; simpl.
  split.
  { eexists. split; [apply find_after_update; eassumption|].
    simpl. repeat split; reflexivity. }
  split; [intros id Hne; now apply find_other_after_update|].
  split; [|split; reflexivity].
  apply map_update_first. intros x. apply apply_update_id.
Qed.

(** ** Joining a room *)

Lemma is_user_participant (uid : ObjectId) (u : User) :
  is_user uid (participant uid u) = true.
Proof. unfold is_user. simpl. now apply bool_decide_eq_true. Qed.

Lemma spelled_participant (uid : ObjectId) (u : User) :
  spelled (toString uid) (participant uid u) = true.
Proof. unfold spelled. simpl. now apply bool_decide_eq_true. Qed.

(** A string that casts to an id and is spelled otherwise than that
    id's string form is the string form of no id. *)
Lemma spelled_otherwise (userId : string) (uid : ObjectId) (ps : list Participant) :
  ObjectId_cast userId = Some uid -> toString uid <> userId ->
  existsb (spelled userId) ps = false.
Proof.
  intros Hc Hne. induction ps as [|p ps IH]; simpl; [reflexivity|].
  rewrite IH, orb_false_r. unfold spelled. apply bool_decide_eq_false.
  intros Hp. apply Hne. rewrite <- Hp in Hc. rewrite cast_toString in Hc.
  congruence.
Qed.

(** What an accepted [join-room] does to the store: a push when no
    participant that was read has the string of the payload as its id,
    nothing otherwise. *)
Lemma join_room_store
    (w : World) (sid roomId userId : string) (rid uid : ObjectId)
    (room : Room) (user : User) :
  isValidObjectId (JStr userId) = true ->
  isValidObjectId (JStr roomId) = true ->
  ObjectId_cast roomId = Some rid ->
  List.find (has_id rid) (Rooms w) = Some room ->
  ObjectId_cast userId = Some uid ->
  List.find (is_id uid) (Users w) = Some user ->
  let w' := join_room sid (JStr roomId) (JStr userId) w in
  Users w' = Users w /\ Messages w' = Messages w /\
  Rooms w' =
    (if existsb (spelled userId) (users room) then Rooms w
     else update_first (has_id rid)
            (apply_update (Push (participant uid user))) (Rooms w)).
Proof.
  intros Hu Hr Hcr Hf Hcu Hfu. simpl in Hu, Hr.
  unfold join_room; run. rewrite Hu, Hr; simpl. rewrite Hcr; simpl.
  rewrite Hf; simpl. rewrite ?Hcu; simpl. rewrite Hfu; simpl.
  destruct (existsb (spelled userId) (users room)) eqn:Hex; simpl.
  - repeat (rewrite Hf; simpl). auto.
  - repeat (rewrite (find_after_update _ _ _ _ Hf); simpl). auto.
Qed.

(** ** The chat relay *)

(** C8, as the code has it: [send-message] fails exactly when an id
    does not pass the check or does not cast, the sender or the room is
    not found, or the text is empty (which the message schema refuses).
    A failure leaves the world as it was but for one [room-error] sent
    to the caller alone. Otherwise the message, embedding the sender's
    user document as read, is saved and then broadcast whole as
    [receive-message] to the room channel. Neither the room's admin nor
    its participants are looked at. *)
Theorem send_message_outcome
    (env : Env) (sid : string) (roomId userId : jsval) (text : string)
    (w : World) :
  let w' := send_message env sid roomId userId text w in
  if sendable w roomId userId text
  then
    exists user uid rid,
      ObjectId_cast (to_string userId) = Some uid /\
      List.find (is_id uid) (Users w) = Some user /\
      ObjectId_cast (to_string roomId) = Some rid /\
      is_Some (List.find (has_id rid) (Rooms w)) /\
      let newMessage :=
        {| m_id := newObjectId env; room := rid;
           senderId := uid; text := text;
           timestamp := dateNow env; sender := user |} in
      w' = log (Emit (ToChannel (to_string roomId)) "receive-message"
                  (PMessage newMessage))
             (log (Wrote (MessageSave newMessage))
                (with_Messages (Messages w ++ [newMessage]) w))
  else
    exists message,
      w' = log (Emit (ToSocket sid) "room-error" (PText message)) w.
Proof.
  unfold sendable, found_user, found_room, send_message, new_message; run.
  destruct (isValidObjectId userId); simpl; [|eauto].
  destruct (isValidObjectId roomId); simpl; [|eauto].
  destruct (ObjectId_cast (to_string userId)) as [uid|] eqn:Hcu; simpl; [|eauto].
  destruct (List.find _ (Users w)) as [user|] eqn:Hfu; simpl; [|eauto].
  destruct (ObjectId_cast (to_string roomId)) as [rid|] eqn:Hcr; simpl; [|eauto].
  destruct (List.find _ (Rooms w)) as [room|] eqn:Hfr; simpl; [|eauto].
  unfold Message_valid; simpl.
  destruct (bool_decide (text = "")); simpl; [eauto|].
  exists user, uid, rid. repeat split; eauto.
Qed.

(** ** Room life cycle: the store under edits *)

Lemma delete_first_none {A} (P : A -> bool) (l : list A) :
  List.find P l = None -> delete_first P l = l.
Proof.
  induction l as [|x l IH]; simpl; [reflexivity|].
  destruct (P x); [discriminate|]. intros H. now rewrite IH.
Qed.

Lemma delete_first_update_first {A} (P : A -> bool) (f : A -> A) (l : list A) :
  (forall x, P (f x) = P x) ->
  delete_first P (update_first P f l) = delete_first P l.
Proof.
  intros HP. induction l as [|x l IH]; simpl; [reflexivity|].
  destruct (P x) eqn:E; simpl.
  - now rewrite HP, E.
  - now rewrite E, IH.
Qed.

Lemma in_map_length {A B} (g : A -> B) (l : list A) (y : B) :
  In y (map g l) -> 1 <= length l.
Proof. destruct l; simpl; [tauto | lia]. Qed.

Lemma room_ok_update (u : update ObjectId) (r : Room) :
  room_ok r ->
  (forall userId, u = Pull userId -> admin r <> userId) ->
  room_ok (apply_update u r).
Proof.
  intros [Hin Hlen] Hpull.
  assert (Hin' : In (admin (apply_update u r)) (map p_id (users (apply_update u r)))).
  { destruct u as [v s p t | p | userId]; simpl.
    - assumption.
    - rewrite map_app. apply in_or_app. now left.
    - apply in_map_iff in Hin as (p & Hp & Hin).
      apply in_map_iff. exists p. split; [assumption|].
      apply filter_In. split; [assumption|].
      unfold is_user. rewrite bool_decide_eq_false_2; [reflexivity|].
      rewrite Hp. now apply Hpull. }
  split; [assumption | eapply in_map_length; eassumption].
Qed.

Lemma rooms_step_ids (l l' : list Room) :
  rooms_step l l' -> List.NoDup (map r_id l) -> List.NoDup (map r_id l').
Proof.
  intros [|P|id u] H; [assumption | now apply NoDup_map_delete_first |].
  rewrite map_update_first; [assumption | intros; apply apply_update_id].
Qed.

Lemma rooms_step_admins (l l' : list Room) :
  rooms_step l l' -> List.NoDup (map admin l) -> List.NoDup (map admin l').
Proof.
  intros [|P|id u] H; [assumption | now apply NoDup_map_delete_first |].
  rewrite map_update_first; [assumption | intros; apply apply_update_admin].
Qed.

Lemma rooms_step_subset (l l' : list Room) (id : ObjectId) :
  rooms_step l l' -> In id (map r_id l') -> In id (map r_id l).
Proof.
  intros [|P|i u]; [auto | |].
  - intros H. apply in_map_iff in H as (x & <- & Hx).
    apply in_map. eapply in_delete_first; eauto.
  - rewrite map_update_first; [auto | intros; apply apply_update_id].
Qed.

(** ** The two branches of a departure *)

Lemma dismiss_spec (roomId : string) (rid : ObjectId) (w : World) :
  ObjectId_cast roomId = Some rid ->
  exists w', dismiss roomId w = (Ok tt, w') /\
    Rooms w' = delete_first (has_id rid) (Rooms w) /\
    Messages w' = List.filter (fun m => negb (in_room rid m)) (Messages w) /\
    trace w' = (trace w ++ dismissal roomId rid)%list /\
    Users w' = Users w /\ socketToUserMap w' = socketToUserMap w /\
    adapter w' = adapter w.
Proof.
  intros Hc. run. rewrite Hc. simpl.
  eexists. split; [reflexivity|]. simpl.
  repeat split; try reflexivity.
  now rewrite <- !app_assoc.
Qed.

Lemma remove_member_spec (roomId userId : string) (rid uid : ObjectId) (w : World) :
  ObjectId_cast roomId = Some rid ->
  ObjectId_cast userId = Some uid ->
  exists w', remove_member roomId userId w = (Ok tt, w') /\
    Rooms w' =
      (if collapses rid uid (Rooms w)
       then delete_first (has_id rid) (pull_rooms rid uid (Rooms w))
       else pull_rooms rid uid (Rooms w)) /\
    Messages w' =
      (if collapses rid uid (Rooms w)
       then List.filter (fun m => negb (in_room rid m)) (Messages w)
       else Messages w) /\
    (exists t, trace w' = (trace w ++ t)%list /\
               forall ch, ~ In (Emit (ToChannel ch) "room-dismissed" PNone) t) /\
    Users w' = Users w /\ socketToUserMap w' = socketToUserMap w /\
    adapter w' = adapter w.
Proof.
  intros Hcr Hcu. unfold collapses, pull_rooms. run. rewrite Hcr, Hcu. simpl.
  destruct (List.find (has_id rid) (update_first _ _ (Rooms w)))
    as [updatedRoom|] eqn:Hf; simpl.
  - destruct (length (users updatedRoom) =? 0)%nat eqn:Hlen; simpl.
    + eexists. split; [reflexivity|]. simpl.
      repeat split; try reflexivity.
      eexists. rewrite <- !app_assoc. split; [reflexivity|].
      intros ch H. simpl in H.
      repeat (destruct H as [H|H]; [discriminate|]). destruct H.
    + rewrite Hf; simpl.
      eexists. split; [reflexivity|]. simpl.
      repeat split; try reflexivity.
      eexists. rewrite <- !app_assoc. split; [reflexivity|].
      intros ch H. simpl in H.
      repeat (destruct H as [H|H]; [discriminate|]). destruct H.
  - eexists. split; [reflexivity|]. simpl.
    repeat split; try reflexivity.
    eexists. split; [reflexivity|].
    intros ch H. simpl in H.
    repeat (destruct H as [H|H]; [discriminate|]). destruct H.
Qed.

Lemma depart_spec (userId : string) (uid : ObjectId) (s : Room) (w : World) :
  ObjectId_cast userId = Some uid ->
  exists w', depart userId s w = (Ok tt, w') /\
    Rooms w' = depart_rooms userId uid s (Rooms w) /\
    Messages w' = depart_messages userId uid s (Rooms w) (Messages w) /\
    (exists t, trace w' = (trace w ++ t)%list /\
               (isAdmin s userId = true ->
                t = dismissal (toString (r_id s)) (r_id s)) /\
               (isAdmin s userId = false ->
                forall ch, ~ In (Emit (ToChannel ch) "room-dismissed" PNone) t)) /\
    Users w' = Users w /\ socketToUserMap w' = socketToUserMap w.
Proof.
  intros Hcu. unfold depart, depart_rooms, depart_messages.
  destruct (isAdmin s userId) eqn:Hadm; simpl.
  - destruct (dismiss_spec (toString (r_id s)) (r_id s) w (cast_toString _))
      as (w' & E & HR & HM & HT & HU & Hmap & _).
    exists w'. repeat split; try assumption.
    exists (dismissal (toString (r_id s)) (r_id s)).
    repeat split; [assumption | discriminate].
  - destruct (remove_member_spec (toString (r_id s)) userId (r_id s) uid w
                (cast_toString _) Hcu)
      as (w' & E & HR & HM & (t & HT & Hq) & HU & Hmap & _).
    exists w'. repeat split; try assumption.
    exists t. repeat split; [assumption | discriminate | auto].
Qed.

Lemma for_each_depart (userId : string) (uid : ObjectId) (l : list Room) (w : World) :
  ObjectId_cast userId = Some uid ->
  for_each l (depart userId) w = (Ok tt, fold_left (departed userId) l w).
Proof.
  intros Hcu. revert w. induction l as [|s l IH]; intros w; simpl; [reflexivity|].
  unfold bind, departed at 2.
  destruct (depart_spec userId uid s w Hcu) as (w' & E & _). rewrite E. simpl.
  apply IH.
Qed.

Lemma disconnect_fold (sid userId : string) (uid : ObjectId) (w : World) :
  socketToUserMap w !! sid = Some userId -> userId <> "" ->
  ObjectId_cast userId = Some uid ->
  disconnect sid w =
    fold_left (departed userId)
      (List.filter (has_member uid) (Rooms w))
      (with_map (delete sid (socketToUserMap w)) w).
Proof.
  intros Hm Hne Hcu. unfold disconnect, exec, bind, map_get. rewrite Hm.
  rewrite bool_decide_eq_false_2 by assumption.
  unfold map_delete, Room_find, bind, castObjectId. simpl. rewrite Hcu.
  now rewrite (for_each_depart userId uid).
Qed.

Lemma disconnect_unmapped (sid : string) (w : World) :
  socketToUserMap w !! sid = None \/ socketToUserMap w !! sid = Some "" ->
  disconnect sid w = w.
Proof.
  intros [Hm|Hm]; unfold disconnect, exec, bind, map_get; rewrite Hm; reflexivity.
Qed.

(** A registry value that does not cast: the entry is removed, the
    query rejects and nothing else happens. *)
Lemma disconnect_uncast (sid userId : string) (w : World) :
  socketToUserMap w !! sid = Some userId -> userId <> "" ->
  ObjectId_cast userId = None ->
  disconnect sid w =
    log (Unhandled (CastError_message userId "users.id" "Room"))
      (with_map (delete sid (socketToUserMap w)) w).
Proof.
  intros Hm Hne Hcu. unfold disconnect, exec, bind, map_get. rewrite Hm.
  rewrite bool_decide_eq_false_2 by assumption.
  unfold map_delete, Room_find, bind, castObjectId. simpl. now rewrite Hcu.
Qed.

(** ** The loop of [disconnect] *)

Section Loop.

Variables (userId : string) (uid : ObjectId).
Hypothesis cast_userId : ObjectId_cast userId = Some uid.

Lemma departed_spec (s : Room) (w : World) :
  Rooms (departed userId w s) = depart_rooms userId uid s (Rooms w) /\
  Messages (departed userId w s)
  = depart_messages userId uid s (Rooms w) (Messages w) /\
  (exists t, trace (departed userId w s) = (trace w ++ t)%list /\
             (isAdmin s userId = true ->
              t = dismissal (toString (r_id s)) (r_id s)) /\
             (isAdmin s userId = false ->
              forall ch, ~ In (Emit (ToChannel ch) "room-dismissed" PNone) t)) /\
  Users (departed userId w s) = Users w /\
  socketToUserMap (departed userId w s) = socketToUserMap w.
Proof.
  unfold departed.
  destruct (depart_spec userId uid s w cast_userId) as (w' & -> & H). exact H.
Qed.

Lemma NoDup_map_eq {A K} `{EqDecision K} (g : A -> K) (l : list A) (x y : A) :
  List.NoDup (map g l) -> In x l -> In y l -> g x = g y -> x = y.
Proof.
  intros H0 Hx Hy E.
  pose proof (find_key_unique g l x H0 Hx) as Fx.
  pose proof (find_key_unique g l y H0 Hy) as Fy.
  rewrite E in Fx. congruence.
Qed.

Lemma find_has_id (id : ObjectId) (l : list Room) (r : Room) :
  List.find (has_id id) l = Some r -> In r l /\ r_id r = id.
Proof.
  intros H. apply find_some in H as [Hin Hid].
  apply bool_decide_eq_true in Hid. auto.
Qed.

Lemma depart_rooms_step (s : Room) (l : list Room) :
  rooms_step l (depart_rooms userId uid s l).
Proof.
  unfold depart_rooms, pull_rooms.
  destruct (isAdmin s userId); [apply step_delete|].
  destruct (collapses _ _ _).
  - rewrite delete_first_update_first by (intros; apply has_id_apply_update).
    apply step_delete.
  - apply step_update.
Qed.

Lemma fold_departed_closed (Q : list Room -> Prop) (snap : list Room) (w : World) :
  (forall l l', rooms_step l l' -> Q l -> Q l') ->
  Q (Rooms w) ->
  Q (Rooms (fold_left (departed userId) snap w)).
Proof.
  intros HQ. revert w.
  induction snap as [|s snap IH]; intros w Hw; simpl; [assumption|].
  apply IH. destruct (departed_spec s w) as (-> & _).
  eapply HQ; [apply depart_rooms_step | assumption].
Qed.

(** ** A room that a departure removes *)

Lemma no_messages_filter (roomId : ObjectId) (msgs : list Message) (m : Message) :
  In m (List.filter (fun m => negb (in_room roomId m)) msgs) -> room m <> roomId.
Proof.
  intros H. apply filter_In in H as [_ H]. unfold in_room in H.
  apply negb_true_iff, bool_decide_eq_false in H. assumption.
Qed.

Lemma depart_messages_subset (s : Room) (l : list Room)
    (msgs : list Message) (m : Message) :
  In m (depart_messages userId uid s l msgs) -> In m msgs.
Proof.
  unfold depart_messages. destruct (_ || _); [|auto].
  intros H. now apply filter_In in H.
Qed.

Lemma gone_departed (roomId : ObjectId) (s : Room) (w : World) :
  gone roomId w -> gone roomId (departed userId w s).
Proof.
  intros [Hr Hm]. destruct (departed_spec s w) as (HR & HM & _).
  split.
  - rewrite HR. intros H. apply Hr.
    eapply rooms_step_subset; [apply depart_rooms_step | eassumption].
  - intros m Hin. rewrite HM in Hin. apply Hm.
    eapply depart_messages_subset; eauto.
Qed.

Lemma gone_fold (roomId : ObjectId) (snap : list Room) (w : World) :
  gone roomId w -> gone roomId (fold_left (departed userId) snap w).
Proof.
  revert w. induction snap as [|s snap IH]; intros w H; simpl; [assumption|].
  apply IH. now apply gone_departed.
Qed.

Lemma depart_rooms_other (s : Room) (l : list Room) (id : ObjectId) :
  r_id s <> id ->
  List.find (has_id id) (depart_rooms userId uid s l) = List.find (has_id id) l.
Proof.
  intros Hne. unfold depart_rooms, pull_rooms.
  assert (Hdel : forall l', List.find (has_id id) (delete_first (has_id (r_id s)) l')
                            = List.find (has_id id) l').
  { intros l'. apply find_delete_first_other. intros x. now apply has_id_other. }
  assert (Hpull : List.find (has_id id)
            (update_first (has_id (r_id s)) (apply_update (Pull uid)) l)
            = List.find (has_id id) l).
  { apply find_other_after_update. congruence. }
  destruct (isAdmin s userId); [apply Hdel|].
  destruct (collapses _ _ _); [rewrite Hdel|]; apply Hpull.
Qed.

(** The room leaves the store with its messages when the departing
    user is spelled as its admin, and also when nobody else is in
    it. *)
Lemma depart_rooms_target (s r : Room) (l : list Room) :
  List.NoDup (map r_id l) ->
  List.find (has_id (r_id s)) l = Some r ->
  isAdmin s userId = true \/
  List.filter (fun p => negb (is_user uid p)) (users r) = [] ->
  ~ In (r_id s) (map r_id (depart_rooms userId uid s l)) /\
  (isAdmin s userId || collapses (r_id s) uid l) = true.
Proof.
  intros Hnd Hf Hcase. unfold depart_rooms.
  destruct (isAdmin s userId) eqn:Hs; simpl.
  - split; [|reflexivity]. now apply (delete_first_key r_id).
  - assert (Hc : collapses (r_id s) uid l = true).
    { unfold collapses, pull_rooms.
      rewrite find_update_first by (intros; apply has_id_apply_update).
      rewrite Hf. simpl.
      destruct Hcase as [Ha|Hempty]; [discriminate|]. now rewrite Hempty. }
    rewrite Hc. split; [|reflexivity].
    unfold pull_rooms.
    rewrite delete_first_update_first by (intros; apply has_id_apply_update).
    now apply (delete_first_key r_id).
Qed.

Lemma fold_departed_target (roomId : ObjectId) (r : Room)
    (snap : list Room) (w : World) :
  List.NoDup (map r_id (Rooms w)) ->
  In roomId (map r_id snap) ->
  List.find (has_id roomId) (Rooms w) = Some r ->
  (forall s, In s snap -> r_id s = roomId -> admin s = admin r) ->
  isAdmin r userId = true \/
  List.filter (fun p => negb (is_user uid p)) (users r) = [] ->
  gone roomId (fold_left (departed userId) snap w).
Proof.
  revert w. induction snap as [|s snap IH]; intros w Hnd Hin Hf Hadm Hcase;
    simpl in *; [tauto|].
  destruct (departed_spec s w) as (HR & HM & _).
  destruct (decide (r_id s = roomId)) as [Hid|Hid].
  - apply gone_fold. subst roomId.
    destruct (depart_rooms_target s r (Rooms w)) as [Habs Hdel]; auto.
    { destruct Hcase as [Ha|He]; [left|now right].
      unfold isAdmin in *. rewrite (Hadm s); auto. }
    split; [now rewrite HR|].
    intros m Hm. rewrite HM in Hm. unfold depart_messages in Hm.
    rewrite Hdel in Hm. eapply no_messages_filter; eauto.
  - apply IH.
    + rewrite HR. eapply rooms_step_ids; [apply depart_rooms_step | assumption].
    + destruct Hin as [Hin|Hin]; [congruence | assumption].
    + rewrite HR. rewrite depart_rooms_other; assumption.
    + intros s' Hs'. apply Hadm. now right.
    + assumption.
Qed.

Lemma fold_departed_trace (snap : list Room) (w : World) :
  exists t, trace (fold_left (departed userId) snap w) = (trace w ++ t)%list.
Proof.
  revert w. induction snap as [|s snap IH]; intros w; simpl.
  - exists []. now rewrite app_nil_r.
  - destruct (departed_spec s w) as (_ & _ & (t & HT & _) & _).
    destruct (IH (departed userId w s)) as (t' & Ht').
    exists (t ++ t')%list. now rewrite Ht', HT, app_assoc.
Qed.

Lemma fold_departed_dismissal (s : Room) (snap : list Room) (w : World) :
  In s snap -> isAdmin s userId = true ->
  exists t1 t2,
    trace (fold_left (departed userId) snap w)
    = (trace w ++ t1 ++ dismissal (toString (r_id s)) (r_id s) ++ t2)%list.
Proof.
  revert w. induction snap as [|s' snap IH]; intros w Hin Hadm; simpl in *; [tauto|].
  destruct (departed_spec s' w) as (_ & _ & (t & HT & Hdis & _) & _).
  destruct Hin as [->|Hin].
  - destruct (fold_departed_trace snap (departed userId w s)) as (t' & Ht').
    exists [], t'. rewrite Ht', HT, (Hdis Hadm). simpl. now rewrite <- app_assoc.
  - destruct (IH (departed userId w s') Hin Hadm) as (t1 & t2 & Ht).
    exists (t ++ t1)%list, t2. rewrite Ht, HT. now rewrite <- !app_assoc.
Qed.

End Loop.

(** ** What each handler does to the room collection *)

(** Case analysis on the innermost test the goal branches on. *)
Ltac branches :=
  repeat match goal with
         | |- context [match ?x with _ => _ end] =>
             lazymatch x with
             | context [match _ with _ => _ end] => fail
             | _ => destruct x eqn:?; simpl
             end
         end.

Ltac step_done :=
  first [ apply step_same
        | apply step_update
        | apply step_delete
        | rewrite delete_first_update_first by (intros; apply has_id_apply_update);
          apply step_delete ].

Lemma play_video_step (w : World) (sid : string) (roomId : jsval) (url : string)
    (adminId : jsval) :
  rooms_step (Rooms w) (Rooms (play_video sid roomId url adminId w)).
Proof. unfold play_video; run. branches; step_done. Qed.

Lemma pause_video_step (w : World) (sid : string) (roomId : jsval) (time : number)
    (adminId : jsval) :
  rooms_step (Rooms w) (Rooms (pause_video sid roomId time adminId w)).
Proof. unfold pause_video; run. branches; step_done. Qed.

Lemma resume_video_step (w : World) (sid : string) (roomId : jsval) (time : number)
    (adminId : jsval) :
  rooms_step (Rooms w) (Rooms (resume_video sid roomId time adminId w)).
Proof. unfold resume_video; run. branches; step_done. Qed.

Lemma seek_video_step (w : World) (sid : string) (roomId : jsval) (time : number)
    (adminId : jsval) :
  rooms_step (Rooms w) (Rooms (seek_video sid roomId time adminId w)).
Proof. unfold seek_video; run. branches; step_done. Qed.

Lemma join_room_step (w : World) (sid : string) (roomId userId : jsval) :
  rooms_step (Rooms w) (Rooms (join_room sid roomId userId w)).
Proof. unfold join_room; run. branches; step_done. Qed.

Lemma send_message_rooms (env : Env) (w : World) (sid : string)
    (roomId userId : jsval) (text : string) :
  Rooms (send_message env sid roomId userId text w) = Rooms w.
Proof. unfold send_message; run. branches; reflexivity. Qed.

Lemma leave_room_step (w : World) (sid : string) (roomId userId : jsval) :
  rooms_step (Rooms w) (Rooms (leave_room sid roomId userId w)).
Proof. unfold leave_room, isAdmin; run. branches; step_done. Qed.

Lemma NoDup_snoc {A} (l : list A) (x : A) :
  List.NoDup l -> ~ In x l -> List.NoDup (l ++ [x]).
Proof.
  induction l as [|y l IH]; simpl; intros H Hx.
  - constructor; [tauto | constructor].
  - inversion H as [|? ? Hy Hl]; subst. constructor.
    + rewrite in_app_iff. simpl. intros [Hin|[->|[]]]; tauto.
    + apply IH; tauto.
Qed.

Lemma room_ok_new_room (env : Env) (userId : ObjectId) (userName : string)
    (adminUser : User) :
  room_ok (new_room env userId userName adminUser).
Proof. split; simpl; [now left | lia]. Qed.

(** [create-room] leaves the rooms alone when it fails early, deletes
    the caller's room when the save fails after that, and otherwise
    appends the new room to the rest. *)
Lemma create_room_rooms (env : Env) (sid : string) (userId userName : jsval)
    (w : World) :
  let w' := create_room env sid userId userName w in
  Rooms w' = Rooms w \/
  exists uid,
    ObjectId_cast (to_string userId) = Some uid /\
    let rest := delete_first (has_admin uid) (Rooms w) in
    Rooms w' = rest \/
    exists adminUser,
      Rooms w' = (rest ++ [new_room env uid (to_string userName) adminUser])%list.
Proof.
  unfold create_room; run.
  destruct (negb (truthy userId) || negb (isValidObjectId userId)); simpl; [auto|].
  destruct (negb (truthy userName) || negb (is_string userName)); simpl; [auto|].
  destruct (ObjectId_cast (to_string userId)) as [uid|] eqn:Hc; simpl; [|auto].
  destruct (List.find _ (Users w)) as [adminUser|]; simpl; [|auto].
  right. exists uid. split; [reflexivity|].
  destruct (List.find (has_admin _) (Rooms w)) as [existing|] eqn:Hex; simpl.
  - destruct (negb (Room_valid _)); simpl; [auto|].
    rewrite cast_toString. simpl. branches; right; eauto.
  - rewrite (delete_first_none _ _ Hex).
    destruct (negb (Room_valid _)); simpl; [auto|].
    rewrite cast_toString. simpl. branches; right; eauto.
Qed.

Lemma create_room_admins (env : Env) (sid : string) (userId userName : jsval)
    (w : World) :
  one_room_per_admin w ->
  one_room_per_admin (create_room env sid userId userName w).
Proof.
  unfold one_room_per_admin. intros Hnd.
  destruct (create_room_rooms env sid userId userName w)
    as [H|(uid & _ & [H|(adminUser & H)])]; rewrite H.
  - assumption.
  - now apply NoDup_map_delete_first.
  - rewrite map_app. simpl. apply NoDup_snoc.
    + now apply NoDup_map_delete_first.
    + now apply (delete_first_key admin).
Qed.

Lemma create_room_keys (env : Env) (sid : string) (userId userName : jsval)
    (w : World) :
  keys_ok w -> fresh env w ->
  keys_ok (create_room env sid userId userName w).
Proof.
  unfold keys_ok. intros Hnd Hfresh.
  destruct (create_room_rooms env sid userId userName w)
    as [H|(uid & _ & [H|(adminUser & H)])]; rewrite H.
  - assumption.
  - now apply NoDup_map_delete_first.
  - rewrite map_app. simpl. apply NoDup_snoc.
    + now apply NoDup_map_delete_first.
    + intros Hin. apply Hfresh. apply in_map_iff in Hin as (x & Hx & Hin).
      apply in_map_iff. exists x. split; [assumption|].
      eapply in_delete_first; eauto.
Qed.

(** Every other event but [disconnect] makes one edit at most. *)
Lemma on_rooms_step (env : Env) (sid : string) (ev : event) (w : World) :
  (forall userId userName, ev <> CreateRoom userId userName) ->
  ev <> Disconnect ->
  rooms_step (Rooms w) (Rooms (on env sid ev w)).
Proof.
  intros Hc Hd. destruct ev; simpl; try apply step_same.
  - now destruct (Hc userId userName).
  - apply join_room_step.
  - apply play_video_step.
  - apply pause_video_step.
  - apply resume_video_step.
  - apply seek_video_step.
  - rewrite send_message_rooms. apply step_same.
  - apply leave_room_step.
  - now destruct Hd.
Qed.

(** [disconnect] does nothing for a connection that is not registered,
    stops at the query when the registered id does not cast, and
    otherwise goes through the rooms that hold the user. *)
Lemma disconnect_cases (sid : string) (w : World) :
  disconnect sid w = w \/
  (exists userId,
      socketToUserMap w !! sid = Some userId /\ userId <> "" /\
      ObjectId_cast userId = None /\
      disconnect sid w =
        log (Unhandled (CastError_message userId "users.id" "Room"))
          (with_map (delete sid (socketToUserMap w)) w)) \/
  exists userId uid,
    socketToUserMap w !! sid = Some userId /\ userId <> "" /\
    ObjectId_cast userId = Some uid /\
    disconnect sid w =
      fold_left (departed userId)
        (List.filter (has_member uid) (Rooms w))
        (with_map (delete sid (socketToUserMap w)) w).
Proof.
  destruct (socketToUserMap w !! sid) as [userId|] eqn:Hm.
  - destruct (decide (userId = "")) as [->|Hne].
    + left. apply disconnect_unmapped. auto.
    + destruct (ObjectId_cast userId) as [uid|] eqn:Hc.
      * right; right. exists userId, uid. auto using disconnect_fold.
      * right; left. exists userId. auto using disconnect_uncast.
  - left. apply disconnect_unmapped. auto.
Qed.

(** What [disconnect] leaves of the rooms is reached by edits. *)
Lemma disconnect_closed (Q : list Room -> Prop) (sid : string) (w : World) :
  (forall l l', rooms_step l l' -> Q l -> Q l') ->
  Q (Rooms w) -> Q (Rooms (disconnect sid w)).
Proof.
  intros HQ Hw.
  destruct (disconnect_cases sid w)
    as [->|[(userId & _ & _ & _ & ->)|(userId & uid & _ & _ & Hc & ->)]];
    [assumption | assumption |].
  now apply (fold_departed_closed userId uid Hc).
Qed.

Lemma on_keys (env : Env) (sid : string) (ev : event) (w : World) :
  keys_ok w -> fresh env w -> keys_ok (on env sid ev w).
Proof.
  unfold keys_ok. intros Hnd Hfresh.
  destruct ev as [userId userName| | | | | | | | | | | | | | | |];
    try (eapply rooms_step_ids; [apply on_rooms_step; discriminate | assumption]).
  - now apply create_room_keys.
  - simpl. apply (disconnect_closed (fun l => List.NoDup (map r_id l)));
      [intros l l'; apply rooms_step_ids | assumption].
Qed.

Lemma on_admins (env : Env) (sid : string) (ev : event) (w : World) :
  one_room_per_admin w -> one_room_per_admin (on env sid ev w).
Proof.
  unfold one_room_per_admin. intros Hnd.
  destruct ev as [userId userName| | | | | | | | | | | | | | | |];
    try (eapply rooms_step_admins; [apply on_rooms_step; discriminate | assumption]).
  - now apply create_room_admins.
  - simpl. apply (disconnect_closed (fun l => List.NoDup (map admin l)));
      [intros l l'; apply rooms_step_admins | assumption].
Qed.

Lemma replay_admins (h : history) (w : World) :
  one_room_per_admin w -> one_room_per_admin (replay h w).
Proof.
  revert w. induction h as [|[[env sid] ev] h IH]; intros w H; simpl; [assumption|].
  apply IH. now apply on_admins.
Qed.

(** ** Room life cycle *)

Lemma append_nonempty (s t : string) : s <> "" -> s ++ t <> "".
Proof. destruct s; [congruence | discriminate]. Qed.

Lemma toString_nonempty (o : ObjectId) : toString o <> "".
Proof. unfold toString. inv_vec o. intros b o. discriminate. Qed.

(** A string that is the string form of an id casts to that id. *)
Lemma cast_spelled (userId : string) (o : ObjectId) :
  toString o = userId -> ObjectId_cast userId = Some o.
Proof. intros <-. apply cast_toString. Qed.

Lemma leave_room_accepted
    (w : World) (sid roomId userId : string) (rid uid : ObjectId) (room : Room) :
  isValidObjectId (JStr userId) = true ->
  isValidObjectId (JStr roomId) = true ->
  ObjectId_cast roomId = Some rid ->
  List.find (has_id rid) (Rooms w) = Some room ->
  ObjectId_cast userId = Some uid ->
  leave_room sid (JStr roomId) (JStr userId) w =
    snd ((if isAdmin room userId
          then dismiss roomId
          else remove_member roomId userId)
           (with_adapter (adapter w ∖ {[ (sid, roomId) ]}) w)).
Proof.
  intros Hu Hr Hcr Hf Hcu. simpl in Hu, Hr. unfold leave_room.
  unfold exec, try_catch, bind, when_, throw, ret, room_error, emit,
    Room_findById, castObjectId, socket_leave.
  simpl. rewrite Hu, Hr. simpl. rewrite Hcr. simpl. rewrite Hf.
  destruct (isAdmin room userId).
  - match goal with
    | |- context [dismiss roomId ?w0] =>
        destruct (dismiss_spec roomId rid w0 Hcr) as (w' & -> & _)
    end. reflexivity.
  - match goal with
    | |- context [remove_member roomId ?u ?w0] =>
        destruct (remove_member_spec roomId u rid uid w0 Hcr Hcu) as (w' & -> & _)
    end. reflexivity.
Qed.

Lemma isAdmin_spelled (room : Room) : isAdmin room (toString (admin room)) = true.
Proof. unfold isAdmin. now apply bool_decide_eq_true. Qed.

(** X24: when a [leave-room] names the admin of the room by the string
    form of the stored admin id, or a connection registered under that
    string disconnects while the admin is among the participants,
    [room-dismissed] goes to the room channel, then the room is
    deleted, then every message that refers to it; afterwards neither
    the room nor any such message is in the store. Nothing is asked of
    the other participants of the room. *)
Theorem admin_departure_dismisses_room
    (w : World) (room : Room) (roomId : string) :
  keys_ok w -> In room (Rooms w) ->
  isValidObjectId (JStr roomId) = true ->
  ObjectId_cast roomId = Some (r_id room) ->
  isValidObjectId (JStr (toString (admin room))) = true ->
  (forall sid,
      let w' := leave_room sid (JStr roomId) (JStr (toString (admin room))) w in
      trace w' = (trace w ++ dismissal roomId (r_id room))%list /\
      gone (r_id room) w') /\
  (forall sid,
      socketToUserMap w !! sid = Some (toString (admin room)) ->
      has_member (admin room) room = true ->
      let w' := disconnect sid w in
      (exists t1 t2,
          trace w' = (trace w ++ t1 ++
                        dismissal (toString (r_id room)) (r_id room) ++ t2)%list) /\
      gone (r_id room) w').
Proof.
  intros Hnd Hin Hr Hcr Hu.
  pose proof (find_key_unique r_id (Rooms w) room Hnd Hin) as Hf.
  pose proof (cast_toString (admin room)) as Hcu.
  split; intros sid.
  - intros w'. subst w'.
    rewrite (leave_room_accepted w sid _ _ _ _ room Hu Hr Hcr Hf Hcu).
    rewrite isAdmin_spelled.
    match goal with
    | |- context [dismiss _ ?w0] =>
        destruct (dismiss_spec roomId (r_id room) w0 Hcr)
          as (w' & -> & HR & HM & HT & _)
    end.
    simpl in *. split; [assumption|]. split.
    + rewrite HR. now apply (delete_first_key r_id).
    + intros m Hm. rewrite HM in Hm. eapply no_messages_filter; eauto.
  - intros Hm Hmem w'. subst w'.
    rewrite (disconnect_fold sid _ (admin room) w Hm (toString_nonempty _) Hcu).
    assert (Hsnap : In room (List.filter (has_member (admin room)) (Rooms w))).
    { apply filter_In. auto. }
    split.
    + destruct (fold_departed_dismissal _ _ Hcu room _
                  (with_map (delete sid (socketToUserMap w)) w) Hsnap
                  (isAdmin_spelled room))
        as (t1 & t2 & Ht).
      exists t1, t2. exact Ht.
    + apply (fold_departed_target _ _ Hcu (r_id room) room); simpl; auto.
      * now apply in_map.
      * intros s Hs Hid. apply filter_In in Hs as [Hs _].
        now rewrite (NoDup_map_eq r_id (Rooms w) s room Hnd Hs Hin Hid).
      * left. apply isAdmin_spelled.
Qed.

(** ** Joining twice *)

Lemma toString_inj (a b : ObjectId) : toString a = toString b -> a = b.
Proof.
  intros E. pose proof (cast_toString a) as Ha. rewrite E, cast_toString in Ha.
  congruence.
Qed.

Lemma spelled_is_user (uid : ObjectId) (p : Participant) :
  spelled (toString uid) p = is_user uid p.
Proof.
  unfold spelled, is_user. apply bool_decide_ext. split; [apply toString_inj | congruence].
Qed.

Lemma existsb_spelled (uid : ObjectId) (ps : list Participant) :
  existsb (spelled (toString uid)) ps = existsb (is_user uid) ps.
Proof.
  induction ps as [|p ps IH]; simpl; [reflexivity|].
  now rewrite spelled_is_user, IH.
Qed.

(** X25: when [join-room] is accepted and names the user by the string
    form of the stored id, the user is a participant of the room
    afterwards, and a second [join-room] with the same room and user,
    from any connection, leaves the rooms of the store, and so the
    length of the participant list, as the first call left them. *)
Theorem join_room_twice
    (w : World) (sid sid' roomId : string) (rid uid : ObjectId)
    (room : Room) (user : User) :
  isValidObjectId (JStr (toString uid)) = true ->
  isValidObjectId (JStr roomId) = true ->
  ObjectId_cast roomId = Some rid ->
  List.find (has_id rid) (Rooms w) = Some room ->
  List.find (is_id uid) (Users w) = Some user ->
  let w1 := join_room sid (JStr roomId) (JStr (toString uid)) w in
  let w2 := join_room sid' (JStr roomId) (JStr (toString uid)) w1 in
  existsb (is_user uid) (members w1 rid) = true /\
  Rooms w2 = Rooms w1 /\
  length (members w2 rid) = length (members w1 rid).
Proof.
  intros Hu Hr Hcr Hf Hfu w1 w2.
  pose proof (cast_toString uid) as Hcu.
  destruct (join_room_store w sid roomId _ rid uid room user Hu Hr Hcr Hf Hcu Hfu)
    as (HU1 & _ & HR1). fold w1 in HU1, HR1.
  assert (H1 : exists room1,
             List.find (has_id rid) (Rooms w1) = Some room1 /\
             existsb (spelled (toString uid)) (users room1) = true).
  { rewrite HR1. destruct (existsb (spelled (toString uid)) (users room)) eqn:Hex.
    - exists room. auto.
    - eexists. split; [apply find_after_update; eassumption|].
      simpl. rewrite existsb_app. simpl.
      rewrite spelled_participant. now rewrite orb_true_r. }
  destruct H1 as (room1 & Hf1 & Hex1).
  assert (Hfu1 : List.find (is_id uid) (Users w1) = Some user) by now rewrite HU1.
  destruct (join_room_store w1 sid' roomId _ rid uid room1 user Hu Hr Hcr Hf1 Hcu Hfu1)
    as (_ & _ & HR2). fold w2 in HR2. rewrite Hex1 in HR2.
  unfold members. rewrite HR2, Hf1. split; [|split; reflexivity].
  now rewrite <- existsb_spelled.
Qed.

(** Under a spelling of the user's id other than its string form, every
    accepted [join-room] appends the user. *)
Lemma join_room_appends
    (w : World) (sid roomId userId : string) (rid uid : ObjectId)
    (room : Room) (user : User) :
  isValidObjectId (JStr userId) = true ->
  isValidObjectId (JStr roomId) = true ->
  ObjectId_cast roomId = Some rid ->
  List.find (has_id rid) (Rooms w) = Some room ->
  ObjectId_cast userId = Some uid ->
  List.find (is_id uid) (Users w) = Some user ->
  toString uid <> userId ->
  let w' := join_room sid (JStr roomId) (JStr userId) w in
  Users w' = Users w /\
  members w' rid = (users room ++ [participant uid user])%list.
Proof.
  intros Hu Hr Hcr Hf Hcu Hfu Hne w'.
  destruct (join_room_store w sid roomId userId rid uid room user Hu Hr Hcr Hf Hcu Hfu)
    as (HU & _ & HR). fold w' in HU, HR.
  rewrite (spelled_otherwise userId uid _ Hcu Hne) in HR.
  split; [assumption|]. unfold members. rewrite HR.
  now rewrite (find_after_update _ _ _ _ Hf).
Qed.

(** ** Replacing a room *)

(** X26: an accepted [create-room] by a user who administers a room
    deletes that room, then the messages that refer to it, and only then
    saves the new room, which is then found under the new id: its admin
    is the user, its participants are the one snapshot of the user
    document as read ([username], [profilePic] or null, [email] or
    "No email") under the user's id, nothing is loaded and its playback
    is at rest. When the handlers run one after the other, the new room
    is then the only room of that admin, and through every later
    history of events no user administers two rooms. *)
Theorem create_room_replaces_prior_room
    (env : Env) (sid userId userName : string) (uid : ObjectId) (adminUser : User)
    (prior : Room) (w : World) :
  isValidObjectId (JStr userId) = true ->
  userId <> "" -> userName <> "" ->
  ObjectId_cast userId = Some uid ->
  List.find (is_id uid) (Users w) = Some adminUser ->
  u_username adminUser <> "" ->
  one_room_per_admin w -> fresh env w ->
  List.find (has_admin uid) (Rooms w) = Some prior ->
  let w' := create_room env sid (JStr userId) (JStr userName) w in
  exists room,
    Rooms w' = (delete_first (has_admin uid) (Rooms w) ++ [room])%list /\
    List.find (has_id (newObjectId env)) (Rooms w') = Some room /\
    ~ In prior (Rooms w') /\
    no_messages w' (r_id prior) /\
    (exists rest,
        trace w' = (trace w ++ [Wrote (RoomDeleteOne uid);
                                Wrote (MessageDeleteMany (r_id prior));
                                Wrote (RoomSave room)] ++ rest)%list) /\
    (forall r, In r (Rooms w') -> admin r = uid -> r = room) /\
    r_id room = newObjectId env /\ admin room = uid /\ adminName room = userName /\
    users room = [{| p_id := uid;
                     p_username := u_username adminUser;
                     p_profilePic := or_null (u_profilePic adminUser);
                     p_email := or_default (u_email adminUser) "No email" |}] /\
    videoUrl room = "" /\ isPlaying room = false /\ playbackTime room = 0%Z /\
    (forall h, one_room_per_admin (replay h w')).
Proof.
  intros Hv Hu Hn Hcu Hfu Hun Hone Hfresh Hprior w'.
  set (room := new_room env uid userName adminUser).
  assert (Hvalid : Room_valid room = true).
  { unfold Room_valid, room. simpl.
    rewrite !bool_decide_eq_false_2; auto using append_nonempty. }
  assert (Hw' : Rooms w' = (delete_first (has_admin uid) (Rooms w) ++ [room])%list
                /\ Messages w' = List.filter (fun m => negb (in_room (r_id prior) m)) (Messages w)
                /\ exists rest,
                    trace w' = (trace w ++ [Wrote (RoomDeleteOne uid);
                                            Wrote (MessageDeleteMany (r_id prior));
                                            Wrote (RoomSave room)] ++ rest)%list).
  { subst w'. simpl in Hv. unfold create_room; run.
    rewrite Hv. rewrite (bool_decide_eq_false_2 (userId = "")) by assumption.
    rewrite (bool_decide_eq_false_2 (userName = "")) by assumption.
    simpl. rewrite Hcu; simpl. rewrite Hfu; simpl. rewrite Hprior; simpl.
    fold room. rewrite Hvalid; simpl. rewrite cast_toString; simpl.
    branches; (split; [reflexivity|]; split; [reflexivity|]);
      eexists; rewrite <- !app_assoc; simpl; reflexivity. }
  destruct Hw' as (HR & HM & HT).
  assert (Habs : ~ In uid (map admin (delete_first (has_admin uid) (Rooms w)))).
  { now apply (delete_first_key admin). }
  assert (Hnew : ~ In (r_id room) (map r_id (delete_first (has_admin uid) (Rooms w)))).
  { intros Hin. apply Hfresh.
    apply in_map_iff in Hin as (x & Hx & Hin).
    apply in_map_iff. exists x. split; [assumption|].
    eapply in_delete_first; eauto. }
  apply find_some in Hprior as [Hpin Hpadm].
  apply bool_decide_eq_true in Hpadm.
  exists room. split; [assumption|]. split.
  { rewrite HR. now apply (find_snoc_fresh _ room). }
  split.
  { rewrite HR. rewrite in_app_iff. simpl. intros [Hin|[Heq|[]]].
    - apply Habs. apply in_map_iff. exists prior. auto.
    - apply Hfresh. rewrite <- Heq in Hpin.
      change (newObjectId env) with (r_id room). now apply in_map. }
  split.
  { intros m Hm. rewrite HM in Hm. eapply no_messages_filter; eauto. }
  split; [assumption|]. split.
  { intros r Hr Hadm. rewrite HR in Hr. apply in_app_iff in Hr as [Hr|[Hr|[]]].
    - exfalso. apply Habs. apply in_map_iff. exists r. auto.
    - congruence. }
  repeat (split; [reflexivity|]).
  intros h. apply replay_admins. apply create_room_admins. assumption.
Qed.

(** ** The membership invariant under plain spelling *)

Lemma stems_from_refl (l : list Room) : stems_from l l.
Proof. intros r Hr. exists r. auto. Qed.

Lemma stems_from_step (l0 l l' : list Room) :
  stems_from l0 l -> rooms_step l l' -> stems_from l0 l'.
Proof.
  intros H [|P|id u] r Hr; [auto | |].
  - apply H. eapply in_delete_first; eauto.
  - apply in_update_first in Hr as [Hr|(x & Hx & ->)]; [auto|].
    destruct (H x Hx) as (r0 & H0 & Hid & Hadm).
    exists r0. rewrite apply_update_id, apply_update_admin. auto.
Qed.

(** A pull that does not name the admin of the room found under the id
    keeps every room well formed. *)
Lemma pull_rooms_ok (rid uid : ObjectId) (l : list Room) :
  Forall room_ok l ->
  (forall r, List.find (has_id rid) l = Some r -> admin r <> uid) ->
  Forall room_ok (pull_rooms rid uid l).
Proof.
  intros Hok Hadm. apply Forall_update_first; [assumption|].
  intros r Hf Hr. apply room_ok_update; [assumption|].
  intros userId [= <-]. now apply Hadm.
Qed.

(** A plainly spelled id that is not the room's admin as a string is
    not the room's admin as an id. *)
Lemma not_admin_plain (room : Room) (userId : string) (uid : ObjectId) :
  plain userId -> ObjectId_cast userId = Some uid ->
  isAdmin room userId = false -> admin room <> uid.
Proof.
  intros Hp Hc Ha E. unfold isAdmin in Ha. apply bool_decide_eq_false in Ha.
  apply Ha. rewrite E. now apply Hp.
Qed.

Lemma depart_rooms_ok (userId : string) (uid : ObjectId) (s : Room) (l : list Room) :
  plain userId -> ObjectId_cast userId = Some uid ->
  Forall room_ok l ->
  (forall r, List.find (has_id (r_id s)) l = Some r -> admin r = admin s) ->
  Forall room_ok (depart_rooms userId uid s l).
Proof.
  intros Hp Hc Hok Hs. unfold depart_rooms.
  destruct (isAdmin s userId) eqn:Ha; [now apply Forall_delete_first|].
  assert (Hpull : Forall room_ok (pull_rooms (r_id s) uid l)).
  { apply pull_rooms_ok; [assumption|]. intros r Hf. rewrite (Hs r Hf).
    eapply not_admin_plain; eassumption. }
  destruct (collapses _ _ _); [now apply Forall_delete_first | assumption].
Qed.

Lemma leave_room_store_ok (sid : string) (roomId userId : jsval) (w : World) :
  store_ok w -> plain (to_string userId) ->
  store_ok (leave_room sid roomId userId w).
Proof.
  intros [Hnd Hok] Hp.
  split; [eapply rooms_step_ids; [apply leave_room_step | assumption]|].
  unfold leave_room; run.
  destruct roomId as [| |b|n|roomId|]; simpl;
    try (destruct (isValidObjectId userId); simpl; assumption).
  destruct (isValidObjectId userId) eqn:Hu; simpl; [|assumption].
  destruct userId as [| |b|n|userId|]; try discriminate. simpl in *.
  destruct (ObjectId_isValid (trim roomId)); simpl; [|assumption].
  destruct (ObjectId_cast roomId) as [rid|] eqn:Hcr; simpl; [|assumption].
  destruct (List.find (has_id rid) (Rooms w)) as [room|] eqn:Hf; simpl;
    [|assumption].
  destruct (isAdmin room userId) eqn:Ha; simpl.
  - now apply Forall_delete_first.
  - destruct (ObjectId_cast userId) as [uid|] eqn:Hcu; simpl; [|assumption].
    assert (Hpull : Forall room_ok
              (update_first (has_id rid) (apply_update (Pull uid)) (Rooms w))).
    { apply (pull_rooms_ok rid uid); [assumption|].
      intros r Hr. rewrite Hf in Hr. injection Hr as <-.
      eapply not_admin_plain; eassumption. }
    branches; first [assumption | now apply Forall_delete_first].
Qed.

Lemma fold_departed_store_ok (userId : string) (uid : ObjectId)
    (l0 snap : list Room) (w : World) :
  plain userId -> ObjectId_cast userId = Some uid ->
  List.NoDup (map r_id l0) ->
  (forall s, In s snap -> In s l0) ->
  stems_from l0 (Rooms w) ->
  store_ok w ->
  store_ok (fold_left (departed userId) snap w).
Proof.
  intros Hp Hc Hnd0. revert w.
  induction snap as [|s snap IH]; intros w Hsnap Hstem Hw; simpl; [assumption|].
  destruct (departed_spec userId uid Hc s w) as (HR & _).
  pose proof (depart_rooms_step userId uid s (Rooms w)) as Hstep.
  apply IH.
  - intros s' Hs'. apply Hsnap. now right.
  - rewrite HR. eapply stems_from_step; eassumption.
  - destruct Hw as [Hnd Hok]. split; rewrite HR.
    + eapply rooms_step_ids; eassumption.
    + apply depart_rooms_ok; try assumption.
      intros r Hf. apply find_has_id in Hf as [Hin Hid].
      destruct (Hstem r Hin) as (r0 & H0 & Hid0 & Hadm0).
      assert (r0 = s) as ->.
      { apply (NoDup_map_eq r_id l0); auto using in_eq. congruence. }
      congruence.
Qed.

Lemma disconnect_store_ok (sid : string) (w : World) :
  store_ok w -> registry_plain w -> store_ok (disconnect sid w).
Proof.
  intros Hok Hreg.
  destruct (disconnect_cases sid w)
    as [->|[(userId & _ & _ & _ & ->)|(userId & uid & Hm & _ & Hc & ->)]];
    [assumption | assumption |].
  apply (fold_departed_store_ok userId uid (Rooms w)); auto.
  - exact (Hreg sid userId Hm).
  - apply Hok.
  - intros s Hs. now apply filter_In in Hs.
  - apply stems_from_refl.
Qed.

(** The registry only ever takes the user id of a [create-room] or a
    [join-room]. *)
Lemma fold_departed_registry_eq (userId : string) (uid : ObjectId)
    (snap : list Room) (w : World) :
  ObjectId_cast userId = Some uid ->
  socketToUserMap (fold_left (departed userId) snap w) = socketToUserMap w.
Proof.
  intros Hc. revert w. induction snap as [|s snap IH]; intros w; simpl; [reflexivity|].
  rewrite IH. now destruct (departed_spec userId uid Hc s w) as (_ & _ & _ & _ & ->).
Qed.

Lemma lookup_registry (m : gmap string string) (sid sid' userId u : string) :
  <[ sid := userId ]> m !! sid' = Some u -> m !! sid' = Some u \/ u = userId.
Proof.
  destruct (decide (sid = sid')) as [->|Hne].
  - rewrite lookup_insert_eq. intros [= <-]. now right.
  - rewrite lookup_insert_ne by assumption. now left.
Qed.

Lemma on_registry (env : Env) (sid : string) (ev : event) (w : World)
    (sid' u : string) :
  socketToUserMap (on env sid ev w) !! sid' = Some u ->
  socketToUserMap w !! sid' = Some u \/
  exists a b, (ev = CreateRoom a b \/ ev = JoinRoom b a) /\ u = to_string a.
Proof.
  destruct ev; simpl.
  - unfold create_room; run. branches; intros H; auto;
      apply lookup_registry in H as [H| ->]; eauto 6.
  - unfold join_room; run. branches; intros H; auto;
      apply lookup_registry in H as [H| ->]; eauto 6.
  - unfold play_video; run. branches; auto.
  - unfold pause_video; run. branches; auto.
  - unfold resume_video; run. branches; auto.
  - unfold seek_video; run. branches; auto.
  - unfold send_message; run. branches; auto.
  - unfold leave_room, isAdmin; run. branches; auto.
  - destruct (disconnect_cases sid w)
      as [->|[(userId & _ & _ & _ & ->)|(userId & uid & _ & _ & Hc & ->)]];
      [auto | |].
    + simpl. intros H. left. apply lookup_delete_Some in H. tauto.
    + rewrite (fold_departed_registry_eq userId uid _ _ Hc). simpl.
      intros H. left. apply lookup_delete_Some in H. tauto.
  - auto.
  - auto.
  - auto.
  - auto.
  - auto.
  - auto.
  - auto.
  - auto.
Qed.

Lemma on_store_ok (env : Env) (sid : string) (ev : event) (w : World) :
  store_ok w -> registry_plain w -> fresh env w -> plainly ev ->
  store_ok (on env sid ev w) /\ registry_plain (on env sid ev w).
Proof.
  intros Hok Hreg Hfresh Hev. split.
  - destruct ev as [userId userName|roomId userId| | | | | |roomId userId| | | | | | | | |];
      try (destruct Hok as [Hnd Hall]; split;
           [ eapply rooms_step_ids; [apply on_rooms_step; discriminate | assumption]
           | ]).
    + destruct Hok as [Hnd Hall].
      split; [now apply create_room_keys|]. simpl.
      destruct (create_room_rooms env sid userId userName w)
        as [H|(uid & _ & [H|(adminUser & H)])]; rewrite H.
      * assumption.
      * now apply Forall_delete_first.
      * apply Forall_app. split; [now apply Forall_delete_first|].
        constructor; [apply room_ok_new_room | constructor].
    + simpl. unfold join_room; run.
      branches; try assumption.
      all: apply Forall_update_first; [assumption|];
        intros x _ Hx; apply room_ok_update; [assumption | discriminate].
    + simpl. unfold play_video; run. branches; try assumption.
      all: apply Forall_update_first; [assumption|];
        intros x _ Hx; apply room_ok_update; [assumption | discriminate].
    + simpl. unfold pause_video; run. branches; try assumption.
      all: apply Forall_update_first; [assumption|];
        intros x _ Hx; apply room_ok_update; [assumption | discriminate].
    + simpl. unfold resume_video; run. branches; try assumption.
      all: apply Forall_update_first; [assumption|];
        intros x _ Hx; apply room_ok_update; [assumption | discriminate].
    + simpl. unfold seek_video; run. branches; try assumption.
      all: apply Forall_update_first; [assumption|];
        intros x _ Hx; apply room_ok_update; [assumption | discriminate].
    + simpl. now rewrite send_message_rooms.
    + exact (proj2 (leave_room_store_ok sid roomId userId w (conj Hnd Hall) Hev)).
    + now apply disconnect_store_ok.
    + assumption. + assumption. + assumption. + assumption.
    + assumption. + assumption. + assumption. + assumption.
  - intros sid' u H. apply on_registry in H as [H|(a & b & [-> | ->] & ->)];
      [eapply Hreg; eassumption | exact Hev | exact Hev].
Qed.

(** X27: as long as user ids arrive spelled as [toString()] spells
    them (in the events and so in the registry), every event keeps the
    store well formed: room ids stay unique and every stored room has
    its admin among its participants, so at least one participant. And
    where a departure does leave a room without participants (the
    departing user was alone in it and is not taken for its admin),
    [leave-room] and [disconnect] delete that room and the messages
    that refer to it. *)
Theorem membership_invariant (env : Env) (sid : string) (w : World) :
  keys_ok w ->
  (forall ev,
      Forall room_ok (Rooms w) -> registry_plain w -> fresh env w -> plainly ev ->
      store_ok (on env sid ev w) /\ registry_plain (on env sid ev w)) /\
  (forall room roomId userId uid,
      In room (Rooms w) ->
      ObjectId_cast roomId = Some (r_id room) ->
      ObjectId_cast userId = Some uid ->
      isAdmin room userId = false ->
      List.filter (fun p => negb (is_user uid p)) (users room) = [] ->
      (isValidObjectId (JStr userId) = true ->
       isValidObjectId (JStr roomId) = true ->
       gone (r_id room) (on env sid (LeaveRoom (JStr roomId) (JStr userId)) w)) /\
      (socketToUserMap w !! sid = Some userId -> userId <> "" ->
       has_member uid room = true ->
       gone (r_id room) (on env sid Disconnect w))).
Proof.
  intros Hnd. split.
  - intros ev Hok Hreg Hfresh Hev. apply on_store_ok; [split| | |]; assumption.
  - intros room roomId userId uid Hin Hcr Hcu Hadm Hempty.
    pose proof (find_key_unique r_id (Rooms w) room Hnd Hin) as Hf.
    split.
    + intros Hu Hr. simpl.
      rewrite (leave_room_accepted w sid _ _ _ _ room Hu Hr Hcr Hf Hcu).
      rewrite Hadm.
      match goal with
      | |- context [remove_member _ _ ?w0] =>
          destruct (remove_member_spec roomId userId (r_id room) uid w0 Hcr Hcu)
            as (w' & -> & HR & HM & _)
      end.
      simpl in *.
      destruct (depart_rooms_target userId uid room room (Rooms w))
        as [Habs Hdel]; auto.
      unfold depart_rooms in Habs. rewrite Hadm in Habs, Hdel.
      simpl in Hdel. rewrite Hdel in *.
      split; [now rewrite HR|].
      intros m Hm. rewrite HM in Hm. eapply no_messages_filter; eauto.
    + intros Hm Hne Hmem. simpl.
      rewrite (disconnect_fold sid userId uid w Hm Hne Hcu).
      apply (fold_departed_target userId uid Hcu (r_id room) room); simpl; auto.
      * apply in_map. apply filter_In. auto.
      * intros s Hs Hid. apply filter_In in Hs as [Hs _].
        now rewrite (NoDup_map_eq r_id (Rooms w) s room Hnd Hs Hin Hid).
Qed.

(** ** [join-room] and [create-room] by segments *)

(** Resumed five times in a row, the segments of [join-room] do what the
    handler does. *)
Lemma join_room_by_segments (w : World) (sid : string) (roomId userId : jsval) :
  Nat.iter 5 (join_step sid roomId userId) (JoinStart, w)
  = (JoinDone, join_room sid roomId userId w).
Proof.
  unfold join_room, join_step, join_segment. simpl Nat.iter. run.
  branches; reflexivity.
Qed.

(** Resumed six times in a row, the segments of [create-room] do what
    the handler does. *)
Lemma create_room_by_segments (env : Env) (w : World) (sid : string)
    (userId userName : jsval) :
  Nat.iter 6 (create_step env sid userId userName) (CreateStart, w)
  = (CreateDone, create_room env sid userId userName w).
Proof.
  unfold create_room, create_step, create_segment. simpl Nat.iter. run.
  branches; reflexivity.
Qed.

(** ** [get-room-details] *)

(** C9, as the code has it: [server.js] registers no listener for
    [get-room-details], so there the event changes nothing and emits
    nothing. The earlier in-memory server answers it, to the requesting
    connection alone and with exactly one event: [room-details] when
    [roomId] is truthy, names an entry of the in-memory table and the
    room document and its participants can be fetched, [room-error] in
    every other case. *)
Theorem get_room_details_only_in_earlier_server
    (env : Env) (sid : string) (roomId : jsval) (w : World) (s : Legacy.State) :
  on env sid (GetRoomDetails roomId) w = w /\
  let s' := Legacy.get_room_details ObjectId_cast sid roomId s in
  Legacy.rooms s' = Legacy.rooms s /\
  Legacy.Rooms s' = Legacy.Rooms s /\
  Legacy.Users s' = Legacy.Users s /\
  if Legacy.answerable ObjectId_cast roomId s
  then
    exists entry rid room,
      Legacy.rooms s !! to_string roomId = Some entry /\
      ObjectId_cast (to_string roomId) = Some rid /\
      List.find (fun r => bool_decide (Legacy.r_id r = rid))
        (Legacy.Rooms s) = Some room /\
      let participants :=
        map (Legacy.member ObjectId_cast s) (Legacy.participants entry) in
      Legacy.sent s' =
        (Legacy.sent s ++
           [(ToSocket sid, "room-details",
             Legacy.RDetails
               {| Legacy.d_adminName := Legacy.adminName room;
                  Legacy.d_participants := participants;
                  Legacy.activeUsersCount := length participants |})])%list
  else
    exists message,
      Legacy.sent s' =
        (Legacy.sent s ++ [(ToSocket sid, "room-error", Legacy.RText message)])%list.
Proof.
  split; [reflexivity|].
  unfold Legacy.get_room_details, Legacy.fetchRoomDetails, Legacy.answerable,
    Legacy.read.
  destruct (truthy roomId); simpl; [|eauto 6].
  destruct (Legacy.rooms s !! to_string roomId) as [entry|]; simpl.
  - destruct (ObjectId_cast (to_string roomId)) as [rid|]; simpl; [|eauto 6].
    destruct (List.find _ (Legacy.Rooms s)) as [room|] eqn:Hf; simpl; [|eauto 6].
    destruct (forallb _ (Legacy.participants entry)); simpl; [|eauto 6].
    repeat (split; [reflexivity|]). exists entry, rid, room. auto.
  - rewrite andb_false_r.
    destruct (Legacy.inherited (to_string roomId)); simpl; [|eauto 6].
    destruct (ObjectId_cast (to_string roomId)) as [rid|]; simpl; [|eauto 6].
    destruct (List.find _ (Legacy.Rooms s)) as [room|]; simpl; eauto 6.
Qed.

(** Whenever a user who does not read as a participant of the room
    joins it twice at once, three turns each suffice for both calls to
    have pushed. *)
Lemma interleaved_joins_push_twice
    (w : World) (sid sid' roomId userId : string) (rid uid : ObjectId)
    (room : Room) (user : User) :
  isValidObjectId (JStr userId) = true ->
  isValidObjectId (JStr roomId) = true ->
  ObjectId_cast roomId = Some rid ->
  List.find (has_id rid) (Rooms w) = Some room ->
  ObjectId_cast userId = Some uid ->
  List.find (is_id uid) (Users w) = Some user ->
  existsb (spelled userId) (users room) = false ->
  members
    (snd (interleave [false; true; false; true; false; true]
            (joining sid roomId userId) (joining sid' roomId userId) w))
    rid
  = (users room ++ [participant uid user; participant uid user])%list.
Proof.
  intros Hu Hr Hcr Hf Hcu Hfu Hex. simpl in Hu, Hr.
  unfold interleave, resume, joining, join_step, join_segment. simpl. run.
  rewrite Hu, Hr. simpl. rewrite Hcr. simpl. rewrite Hf. simpl.
  repeat (rewrite ?Hf, ?Hfu, ?Hex, ?Hcu, ?Hcr; simpl).
  unfold members. simpl.
  rewrite find_update_first by (intros; apply has_id_apply_update).
  rewrite (find_after_update _ _ _ _ Hf). simpl.
  now rewrite <- app_assoc.
Qed.

(** ** Further properties of the handlers *)

(** *** Rejections *)

(** X1: a [create-room] that fails one of its checks (falsy [userId],
    or one that does not pass the ObjectId check or does not cast,
    [userName] that is no non-empty string, user not found) reports one
    [room-error] to the caller and does nothing else: no room is
    deleted or created, no channel joined, the registry is as it
    was. *)
Theorem create_room_rejected
    (env : Env) (sid : string) (userId userName : jsval) (w : World) :
  creatable w userId userName = false ->
  exists reason,
    create_room env sid userId userName w
    = log (Emit (ToSocket sid) "room-error"
             (PText ("Failed to create room: " ++ reason))) w.
Proof.
  unfold creatable, found_user, create_room; run.
  destruct (truthy userId); simpl; [|eauto].
  destruct (isValidObjectId userId); simpl; [|eauto].
  destruct (truthy userName); simpl; [|eauto].
  destruct (is_string userName); simpl; [|eauto].
  destruct (ObjectId_cast (to_string userId)) as [uid|]; simpl; [|eauto].
  destruct (List.find _ (Users w)) as [adminUser|]; simpl; [discriminate|eauto].
Qed.

(** X2: a [join-room] that fails one of its checks (an id that does not
    pass the ObjectId check or does not cast, room or user not found)
    reports one [room-error] to the caller and does nothing else: the
    connection joins no channel, the registry and the participants are
    as they were. *)
Theorem join_room_rejected
    (sid : string) (roomId userId : jsval) (w : World) :
  joinable w roomId userId = false ->
  exists message,
    join_room sid roomId userId w
    = log (Emit (ToSocket sid) "room-error" (PText message)) w.
Proof.
  unfold joinable, found_room, found_user, join_room; run.
  destruct (isValidObjectId userId); simpl; [|eauto].
  destruct (isValidObjectId roomId); simpl; [|eauto].
  destruct (ObjectId_cast (to_string roomId)) as [rid|]; simpl; [|eauto].
  destruct (List.find _ (Rooms w)) as [room|]; simpl; [|eauto].
  destruct (ObjectId_cast (to_string userId)) as [uid|]; simpl; [|eauto].
  destruct (List.find _ (Users w)) as [user|]; simpl; [discriminate|eauto].
Qed.

(** X3: a playback-control event whose [roomId] does not pass the
    ObjectId check, does not cast, or casts to the id of no stored room
    is answered with one [room-error] to the caller, whoever sends it
    and whatever [adminId] says; nothing is written and nothing
    broadcast. *)
Theorem playback_unknown_room
    (sid : string) (roomId adminId : jsval) (w : World) :
  isValidObjectId roomId = false \/ found_room w (to_string roomId) = None ->
  exists reason,
    (forall url,
        play_video sid roomId url adminId w
        = log (Emit (ToSocket sid) "room-error"
                 (PText ("Failed to play video: " ++ reason))) w) /\
    (forall time,
        pause_video sid roomId time adminId w
        = log (Emit (ToSocket sid) "room-error"
                 (PText ("Failed to pause video: " ++ reason))) w /\
        resume_video sid roomId time adminId w
        = log (Emit (ToSocket sid) "room-error"
                 (PText ("Failed to resume video: " ++ reason))) w /\
        seek_video sid roomId time adminId w
        = log (Emit (ToSocket sid) "room-error"
                 (PText ("Failed to seek video: " ++ reason))) w).
Proof.
  intros H. unfold found_room in H.
  unfold play_video, pause_video, resume_video, seek_video; run.
  destruct (isValidObjectId roomId); simpl.
  - destruct H as [H|H]; [discriminate|].
    destruct (ObjectId_cast (to_string roomId)) as [rid|]; simpl.
    + rewrite H. eexists. repeat split; reflexivity.
    + eexists. repeat split; reflexivity.
  - eexists. repeat split; reflexivity.
Qed.

(** *** Pause and resume *)

(** X4: an accepted [pause-video] or [resume-video] first completes the
    update that sets [isPlaying] (false for pause, true for resume) and
    [playbackTime] on the room, leaving its video, service, admin and
    participants alone, and only then broadcasts the event with the
    time to the room channel. *)
Theorem pause_resume_persist_then_broadcast
    (w : World) (sid roomId : string) (time : number) (adminId : jsval)
    (rid : ObjectId) (room : Room) :
  isValidObjectId (JStr roomId) = true ->
  ObjectId_cast roomId = Some rid ->
  List.find (has_id rid) (Rooms w) = Some room ->
  strict_eq_string (toString (admin room)) adminId = true ->
  let paused := pause_video sid (JStr roomId) time adminId w in
  let resumed := resume_video sid (JStr roomId) time adminId w in
  let stop := SetFields None None (Some false) (Some time) in
  let go := SetFields None None (Some true) (Some time) in
  trace paused = (trace w ++ [Wrote (RoomFindByIdAndUpdate rid stop);
                              Emit (ToChannel roomId) "pause-video" (PTime time)])%list /\
  trace resumed = (trace w ++ [Wrote (RoomFindByIdAndUpdate rid go);
                               Emit (ToChannel roomId) "resume-video" (PTime time)])%list /\
  (exists room',
      List.find (has_id rid) (Rooms paused) = Some room' /\
      isPlaying room' = false /\ playbackTime room' = time /\
      videoUrl room' = videoUrl room /\ serviceId room' = serviceId room /\
      admin room' = admin room /\ users room' = users room) /\
  (exists room',
      List.find (has_id rid) (Rooms resumed) = Some room' /\
      isPlaying room' = true /\ playbackTime room' = time /\
      videoUrl room' = videoUrl room /\ serviceId room' = serviceId room /\
      admin room' = admin room /\ users room' = users room).
Proof.
  intros Hv Hc Hf Ha. simpl in Hv.
  unfold pause_video, resume_video; run. rewrite Hv; simpl. rewrite Hc; simpl.
  rewrite Hf, Ha; simpl.
  split; [now rewrite <- app_assoc|].
  split; [now rewrite <- app_assoc|].
  split; (eexists; split; [apply find_after_update; eassumption|]);
    simpl; repeat split; reflexivity.
Qed.

(** *** Creating and joining *)

(** X5: an accepted [create-room] puts the connection into the channel
    of the new room, records the connection in the registry under the
    user id as the payload spelled it, and after the save (and after
    the deletion of the caller's earlier room, if there was one)
    broadcasts [room-created] with the admin as the only user and then
    [room-details] counting one participant. The new room is the one
    found under the new id. *)
Theorem create_room_announces
    (env : Env) (sid userId userName : string) (uid : ObjectId) (adminUser : User)
    (w : World) :
  isValidObjectId (JStr userId) = true ->
  userId <> "" -> userName <> "" ->
  ObjectId_cast userId = Some uid ->
  List.find (is_id uid) (Users w) = Some adminUser ->
  u_username adminUser <> "" ->
  fresh env w ->
  let w' := create_room env sid (JStr userId) (JStr userName) w in
  let room := new_room env uid userName adminUser in
  let roomId := toString (newObjectId env) in
  socketToUserMap w' = <[ sid := userId ]> (socketToUserMap w) /\
  adapter w' = {[ (sid, roomId) ]} ∪ adapter w /\
  List.find (has_id (newObjectId env)) (Rooms w') = Some room /\
  activeUsersCount (details_of room) = 1 /\
  exists cleanup,
    (cleanup = [] \/
     exists prior, cleanup = [Wrote (RoomDeleteOne uid);
                              Wrote (MessageDeleteMany prior)]) /\
    trace w' =
      (trace w ++ cleanup ++
         [Wrote (RoomSave room);
          Emit (ToChannel roomId) "room-created"
            (PRoomCreated roomId (toString uid) [toString uid] userName);
          Emit (ToChannel roomId) "room-details"
            (PRoomDetails (Some (details_of room)))])%list.
Proof.
  intros Hv Hu Hn Hcu Hfu Hun Hfresh w' room roomId.
  assert (Hvalid : Room_valid room = true).
  { unfold Room_valid, room. simpl.
    rewrite !bool_decide_eq_false_2; auto using append_nonempty. }
  assert (Hrest : forall P,
             List.find (has_id (newObjectId env))
               (delete_first P (Rooms w) ++ [room]) = Some room).
  { intros P. apply (find_snoc_fresh _ room). intros Hin. apply Hfresh.
    apply in_map_iff in Hin as (x & Hx & Hin). apply in_map_iff.
    exists x. split; [assumption|]. eapply in_delete_first; eauto. }
  assert (Hall : List.find (has_id (newObjectId env)) (Rooms w ++ [room]) = Some room).
  { now apply (find_snoc_fresh _ room). }
  subst w'. simpl in Hv. unfold create_room; run.
  rewrite Hv. rewrite (bool_decide_eq_false_2 (userId = "")) by assumption.
  rewrite (bool_decide_eq_false_2 (userName = "")) by assumption.
  simpl. rewrite Hcu; simpl. rewrite Hfu; simpl. fold room.
  destruct (List.find (has_admin uid) (Rooms w)) as [prior|]; simpl;
    rewrite Hvalid; simpl; rewrite cast_toString; simpl; fold roomId.
  - rewrite Hrest; simpl. rewrite Hrest.
    repeat (split; [reflexivity|]).
    eexists. split; [right; eexists; reflexivity|].
    rewrite <- !app_assoc. reflexivity.
  - rewrite Hall; simpl. rewrite Hall.
    repeat (split; [reflexivity|]).
    exists []. split; [now left|].
    rewrite <- !app_assoc. reflexivity.
Qed.

(** X6: an accepted [join-room] puts the connection into the room
    channel and records it in the registry under the user id as the
    payload spelled it. When no participant that was read has that
    string as its id, the user is appended after the existing
    participants, whose order is kept, under the id the string casts
    to; otherwise nothing is written. A string that is spelled
    otherwise than the id it casts to is the id of no participant, so
    such a join always appends. The caller then gets [room-joined] with
    the room's admin, video and participants, and the channel gets
    [update-participants] and [room-details] with the same
    participants. *)
Theorem join_room_accepted
    (w : World) (sid roomId userId : string) (rid uid : ObjectId)
    (room : Room) (user : User) :
  isValidObjectId (JStr userId) = true ->
  isValidObjectId (JStr roomId) = true ->
  ObjectId_cast roomId = Some rid ->
  List.find (has_id rid) (Rooms w) = Some room ->
  ObjectId_cast userId = Some uid ->
  List.find (is_id uid) (Users w) = Some user ->
  let w' := join_room sid (JStr roomId) (JStr userId) w in
  let present := existsb (spelled userId) (users room) in
  let users' :=
    if present then users room
    else (users room ++ [participant uid user])%list in
  (toString uid <> userId -> present = false) /\
  socketToUserMap w' = <[ sid := userId ]> (socketToUserMap w) /\
  adapter w' = {[ (sid, roomId) ]} ∪ adapter w /\
  members w' rid = users' /\
  trace w' =
    (trace w ++
       (if present then []
        else [Wrote (RoomFindByIdAndUpdate rid (Push (participant uid user)))]) ++
       [Emit (ToSocket sid) "room-joined"
          (PRoomJoined roomId (toString (admin room)) (videoUrl room)
             (adminName room) users');
        Emit (ToChannel roomId) "update-participants" (PParticipants users');
        Emit (ToChannel roomId) "room-details"
          (PRoomDetails (Some {| d_adminName := adminName room;
                                 participants := map listed users';
                                 activeUsersCount := length (map listed users') |}))])%list.
Proof.
  intros Hu Hr Hcr Hf Hcu Hfu w' present users'.
  split; [intros Hne; now apply (spelled_otherwise userId uid)|].
  subst w' users' present.
  simpl in Hu, Hr. unfold members, join_room; run.
  rewrite Hu, Hr; simpl. rewrite Hcr; simpl. rewrite Hf; simpl.
  rewrite ?Hcu; simpl. rewrite Hfu; simpl.
  destruct (existsb (spelled userId) (users room)) eqn:Hex; simpl.
  - repeat (rewrite Hf; simpl).
    repeat (split; [reflexivity|]). now rewrite <- !app_assoc.
  - repeat (rewrite (find_after_update _ _ _ _ Hf); simpl).
    repeat (split; [reflexivity|]). now rewrite <- !app_assoc.
Qed.

(** *** Leaving *)

(** X7: [leave-room] takes the connection out of the channel it names
    before anything else, so whatever the outcome (malformed ids,
    unknown room, admin or participant), the connection is not in that
    channel afterwards; its membership of other channels and the
    registry are untouched: leaving does not unregister the
    connection. *)
Theorem leave_room_leaves_channel
    (sid roomId : string) (userId : jsval) (w : World) :
  let w' := leave_room sid (JStr roomId) userId w in
  adapter w' = (adapter w ∖ {[ (sid, roomId) ]}) /\
  ((sid, roomId) ∉ adapter w') /\
  socketToUserMap w' = socketToUserMap w.
Proof.
  assert (H : adapter (leave_room sid (JStr roomId) userId w)
              = (adapter w ∖ {[ (sid, roomId) ]}) /\
              socketToUserMap (leave_room sid (JStr roomId) userId w)
              = socketToUserMap w).
  { unfold leave_room, isAdmin; run. branches; split; reflexivity. }
  destruct H as [Ha Hm]. simpl. rewrite Ha.
  split; [reflexivity|]. split; [|assumption].
  intros Hin. apply elem_of_difference in Hin as [_ Hn].
  apply Hn. now apply elem_of_singleton.
Qed.

(** What [leave-room] does when it does not take the user for the
    admin and somebody stays. *)
Lemma leave_room_pulls
    (w : World) (sid roomId userId : string) (rid uid : ObjectId) (room : Room) :
  isValidObjectId (JStr userId) = true ->
  isValidObjectId (JStr roomId) = true ->
  ObjectId_cast roomId = Some rid ->
  List.find (has_id rid) (Rooms w) = Some room ->
  ObjectId_cast userId = Some uid ->
  isAdmin room userId = false ->
  let remaining := List.filter (fun p => negb (is_user uid p)) (users room) in
  remaining <> [] ->
  let w' := leave_room sid (JStr roomId) (JStr userId) w in
  Rooms w' = update_first (has_id rid) (apply_update (Pull uid)) (Rooms w) /\
  Messages w' = Messages w /\
  trace w' =
    (trace w ++
       [Wrote (RoomFindByIdAndUpdate rid (Pull uid));
        Emit (ToChannel roomId) "update-participants"
          (PParticipantIds (map (fun user => toString (p_id user)) remaining));
        Emit (ToChannel roomId) "room-details"
          (PRoomDetails (Some (details_of (set_users remaining room))))])%list.
Proof.
  intros Hu Hr Hcr Hf Hcu Hadm remaining Hrem w'.
  assert (Hlen : (length remaining =? 0)%nat = false).
  { apply Nat.eqb_neq. destruct remaining; [congruence | simpl; lia]. }
  subst w'. simpl in Hu, Hr. unfold leave_room; run.
  rewrite Hu, Hr; simpl. rewrite Hcr; simpl. rewrite Hf; simpl.
  rewrite Hadm. rewrite ?Hcu; simpl.
  rewrite (find_after_update _ _ _ _ Hf); simpl. fold remaining.
  rewrite Hlen; simpl.
  rewrite (find_after_update _ _ _ _ Hf); simpl. fold remaining.
  split; [reflexivity|]. split; [reflexivity|]. now rewrite <- !app_assoc.
Qed.

(** X8: a [leave-room] that does not take the user for the admin of
    the room (the user id as spelled is not the string form of the
    admin id) and after which somebody stays removes every participant
    entry under the id the string casts to, and nothing else: the room
    stays, other rooms and all messages are untouched, and the channel
    gets [update-participants] with the remaining ids and then
    [room-details]. The admin stays among the participants when the
    string casts to another id than the admin's; when it is the
    admin's id under another spelling, the room is left without its
    admin. *)
Theorem leave_room_member
    (w : World) (sid roomId userId : string) (rid uid : ObjectId) (room : Room) :
  isValidObjectId (JStr userId) = true ->
  isValidObjectId (JStr roomId) = true ->
  ObjectId_cast roomId = Some rid ->
  List.find (has_id rid) (Rooms w) = Some room ->
  ObjectId_cast userId = Some uid ->
  isAdmin room userId = false ->
  let remaining := List.filter (fun p => negb (is_user uid p)) (users room) in
  remaining <> [] ->
  let w' := leave_room sid (JStr roomId) (JStr userId) w in
  List.find (has_id rid) (Rooms w') = Some (set_users remaining room) /\
  ~ In uid (map p_id remaining) /\
  (admin room <> uid -> In (admin room) (map p_id (users room)) ->
   In (admin room) (map p_id remaining)) /\
  (forall id, id <> rid ->
      List.find (has_id id) (Rooms w') = List.find (has_id id) (Rooms w)) /\
  Messages w' = Messages w /\
  trace w' =
    (trace w ++
       [Wrote (RoomFindByIdAndUpdate rid (Pull uid));
        Emit (ToChannel roomId) "update-participants"
          (PParticipantIds (map (fun user => toString (p_id user)) remaining));
        Emit (ToChannel roomId) "room-details"
          (PRoomDetails (Some (details_of (set_users remaining room))))])%list.
Proof.
  intros Hu Hr Hcr Hf Hcu Hadm remaining Hrem w'.
  destruct (leave_room_pulls w sid roomId userId rid uid room Hu Hr Hcr Hf Hcu Hadm Hrem)
    as (HR & HM & HT). fold w' in HR, HM, HT.
  split; [rewrite HR; exact (find_after_update rid (Pull uid) w room Hf)|].
  split.
  { intros Hin. apply in_map_iff in Hin as (p & Hp & Hin).
    apply filter_In in Hin as [_ Hin]. unfold is_user in Hin.
    rewrite bool_decide_eq_true_2 in Hin by assumption. discriminate. }
  split.
  { intros Hne Hin. apply in_map_iff in Hin as (p & Hp & Hin). apply in_map_iff.
    exists p. split; [assumption|]. apply filter_In. split; [assumption|].
    unfold is_user. rewrite bool_decide_eq_false_2; [reflexivity | congruence]. }
  split; [intros id Hne; rewrite HR; now apply find_other_after_update|].
  split; assumption.
Qed.

(** X9: [leave-room] for a room id that finds no stored room leaves the
    rooms and the messages as they were. When both ids pass the
    ObjectId check and the room id casts, it is silent: it emits
    nothing and writes nothing (where [join-room] answers the same
    situation with a [room-error]); when an id fails the check or the
    room id does not cast, it reports a [room-error] to the caller. *)
Theorem leave_room_unknown_room
    (sid roomId : string) (userId : jsval) (w : World) :
  found_room w roomId = None ->
  let w' := leave_room sid (JStr roomId) userId w in
  Rooms w' = Rooms w /\ Messages w' = Messages w /\
  if isValidObjectId userId && isValidObjectId (JStr roomId) &&
     bool_decide (is_Some (ObjectId_cast roomId))
  then trace w' = trace w
  else exists reason,
      trace w' = (trace w ++ [Emit (ToSocket sid) "room-error"
                                (PText ("Failed to leave room: " ++ reason))])%list.
Proof.
  intros Hf. unfold found_room in Hf. unfold leave_room; run.
  destruct (isValidObjectId userId); simpl; [|eauto].
  destruct (ObjectId_isValid (trim roomId)); simpl; [|eauto].
  destruct (ObjectId_cast roomId) as [rid|]; simpl; [|eauto].
  rewrite Hf. simpl. auto.
Qed.

(** *** Disconnecting *)

(** One turn of the loop, whether it completes or throws: it touches
    neither the users, the registry nor the channels, and adds to the
    trace only writes and its broadcasts. *)
Lemma depart_frame (userId : string) (s : Room) (w : World) :
  Users (snd (depart userId s w)) = Users w /\
  socketToUserMap (snd (depart userId s w)) = socketToUserMap w /\
  adapter (snd (depart userId s w)) = adapter w /\
  exists t, trace (snd (depart userId s w)) = (trace w ++ t)%list /\
            Forall loop_effect t.
Proof.
  unfold depart, isAdmin; run.
  branches; repeat (split; [reflexivity|]);
    rewrite <- ?app_assoc;
    first [ eexists; split; [reflexivity|]
          | exists []; split; [now rewrite app_nil_r|] ];
    repeat constructor; discriminate.
Qed.

Lemma for_each_frame (userId : string) (l : list Room) (w : World) :
  Users (snd (for_each l (depart userId) w)) = Users w /\
  socketToUserMap (snd (for_each l (depart userId) w)) = socketToUserMap w /\
  adapter (snd (for_each l (depart userId) w)) = adapter w /\
  exists t, trace (snd (for_each l (depart userId) w)) = (trace w ++ t)%list /\
            Forall loop_effect t.
Proof.
  revert w. induction l as [|s l IH]; intros w; simpl.
  - repeat (split; [reflexivity|]). exists []. split; [now rewrite app_nil_r | constructor].
  - unfold bind.
    destruct (depart_frame userId s w) as (HU & Hm & Ha & t & Ht & Hq).
    destruct (depart userId s w) as [[[]|e] w1]; simpl in *.
    + destruct (IH w1) as (HU' & Hm' & Ha' & t' & Ht' & Hq').
      rewrite HU', Hm', Ha', Ht', HU, Hm, Ha, Ht.
      repeat (split; [reflexivity|]).
      exists (t ++ t')%list. split; [now rewrite app_assoc | now apply Forall_app].
    + repeat (split; [assumption|]). eauto.
Qed.

(** What [disconnect] does around the loop: the entry of the
    connection leaves the registry, and an error that ends the handler
    is the last thing in its trace. *)
Lemma disconnect_frame (sid : string) (w : World) :
  disconnect sid w = w \/
  (Users (disconnect sid w) = Users w /\
   socketToUserMap (disconnect sid w) = delete sid (socketToUserMap w) /\
   adapter (disconnect sid w) = adapter w /\
   exists t rejection,
     trace (disconnect sid w) = (trace w ++ t ++ rejection)%list /\
     Forall loop_effect t /\
     (rejection = [] \/ exists message, rejection = [Unhandled message])).
Proof.
  unfold disconnect, exec, bind, map_get.
  destruct (socketToUserMap w !! sid) as [userId|]; [|now left].
  case_bool_decide; [now left|]. right.
  unfold map_delete, Room_find, bind, castObjectId. simpl.
  destruct (ObjectId_cast userId) as [uid|]; simpl.
  - match goal with
    | |- context [for_each ?l (depart userId) ?w0] =>
        destruct (for_each_frame userId l w0) as (HU & Hm & Ha & t & Ht & Hq);
        destruct (for_each l (depart userId) w0) as [[[]|e] w1]
    end; simpl in *.
    + repeat (split; [assumption|]). exists t, []. rewrite app_nil_r. auto.
    + repeat (split; [assumption|]). exists t, [Unhandled e].
      rewrite Ht, <- app_assoc. eauto.
  - repeat (split; [reflexivity|]). exists [], [Unhandled (CastError_message userId "users.id" "Room")]. simpl.
    repeat split; eauto.
Qed.

(** X10: [disconnect] removes the registry entry of the connection and
    of no other connection, so a second [disconnect] of the same
    connection finds nothing to do: the world is left as the first one
    left it. *)
Theorem disconnect_unregisters (sid : string) (w : World) :
  disconnect sid (disconnect sid w) = disconnect sid w /\
  (forall userId,
      socketToUserMap w !! sid = Some userId -> userId <> "" ->
      socketToUserMap (disconnect sid w) !! sid = None) /\
  (forall sid',
      sid' <> sid ->
      socketToUserMap (disconnect sid w) !! sid' = socketToUserMap w !! sid').
Proof.
  assert (Hquiet : forall w0, socketToUserMap w0 !! sid = None ->
                              disconnect sid w0 = w0).
  { intros w0 H0. unfold disconnect, exec, bind, map_get. now rewrite H0. }
  destruct (disconnect_frame sid w) as [E|(_ & Hm & _)].
  - rewrite !E. split; [reflexivity|]. split; [|reflexivity].
    intros userId Hu Hne. exfalso. revert E.
    unfold disconnect, exec, bind, map_get. rewrite Hu.
    rewrite bool_decide_eq_false_2 by assumption.
    unfold map_delete, Room_find, bind, castObjectId. simpl.
    intros E.
    assert (Hd : socketToUserMap w !! sid = None).
    { rewrite <- E at 1.
      destruct (ObjectId_cast userId) as [uid|]; simpl.
      - match goal with
        | |- context [for_each ?l (depart userId) ?w0] =>
            destruct (for_each_frame userId l w0) as (_ & Hm & _);
            destruct (for_each l (depart userId) w0) as [[[]|e] w1]
        end; simpl in *; rewrite Hm; apply lookup_delete_eq.
      - apply lookup_delete_eq. }
    congruence.
  - split; [|split].
    + apply Hquiet. rewrite Hm. apply lookup_delete_eq.
    + intros _ _ _. rewrite Hm. apply lookup_delete_eq.
    + intros sid' Hs. rewrite Hm. now apply lookup_delete_ne.
Qed.

Lemma has_member_pulled (uid : ObjectId) (r : Room) :
  has_member uid (apply_update (Pull uid) r) = false.
Proof.
  unfold has_member. simpl.
  destruct (existsb _ _) eqn:E; [|reflexivity].
  apply existsb_exists in E as (p & Hin & Hp).
  apply filter_In in Hin as [_ Hn]. rewrite Hp in Hn. discriminate.
Qed.

Lemma pending_step (userId : string) (uid : ObjectId) (s : Room)
    (rest l : list Room) :
  pending uid (s :: rest) l ->
  pending uid rest (depart_rooms userId uid s l).
Proof.
  intros [Hnd Hp].
  assert (Hnd' : List.NoDup (map r_id (depart_rooms userId uid s l))).
  { eapply rooms_step_ids; [apply depart_rooms_step | assumption]. }
  split; [assumption|].
  intros r Hr Hmem.
  pose proof (find_key_unique r_id _ r Hnd' Hr) as Hfind.
  assert (Hdel : forall l0, List.NoDup (map r_id l0) ->
             In r (delete_first (has_id (r_id s)) l0) ->
             In r l0 /\ r_id r <> r_id s).
  { intros l0 H0 Hin. split; [eapply in_delete_first; eauto|].
    intros E. apply (delete_first_key r_id (r_id s) l0 H0).
    apply in_map_iff. exists r. split; assumption. }
  assert (Hold : In r l /\ r_id r <> r_id s).
  { unfold depart_rooms, pull_rooms in *.
    destruct (isAdmin s userId); [now apply Hdel|].
    destruct (collapses _ _ _).
    - rewrite delete_first_update_first in Hr
        by (intros; apply has_id_apply_update).
      now apply Hdel.
    - destruct (decide (r_id r = r_id s)) as [E|E].
      + exfalso. change (fun y => bool_decide (r_id y = r_id r))
          with (has_id (r_id r)) in Hfind.
        rewrite E in Hfind.
        rewrite find_update_first in Hfind by (intros; apply has_id_apply_update).
        destruct (List.find (has_id (r_id s)) l) as [x|]; [|discriminate].
        cbn [option_map] in Hfind. injection Hfind as Hx. rewrite <- Hx in Hmem.
        pose proof (has_member_pulled uid x) as Hpulled.
        simpl in Hpulled. congruence.
      + split; [|assumption].
        change (fun y => bool_decide (r_id y = r_id r))
          with (has_id (r_id r)) in Hfind.
        rewrite find_other_after_update in Hfind by assumption.
        now apply find_some in Hfind. }
  destruct Hold as [Hin Hne].
  destruct (Hp r Hin Hmem) as [E|Hrest]; [congruence | assumption].
Qed.

Lemma pending_fold (userId : string) (uid : ObjectId) (snap : list Room) (w : World) :
  ObjectId_cast userId = Some uid ->
  pending uid snap (Rooms w) ->
  pending uid [] (Rooms (fold_left (departed userId) snap w)).
Proof.
  intros Hc. revert w. induction snap as [|s snap IH]; intros w H; simpl; [assumption|].
  apply IH. destruct (departed_spec userId uid Hc s w) as (-> & _).
  now apply pending_step.
Qed.

(** X11: after the [disconnect] of a connection, in a store with unique
    room ids, the user whose id the registered string casts to is a
    participant of no stored room; and every room that held the user
    and whose admin id has the registered string as its string form is
    gone with its messages. *)
Theorem disconnect_removes_user_everywhere
    (sid userId : string) (uid : ObjectId) (w : World) :
  keys_ok w ->
  socketToUserMap w !! sid = Some userId -> userId <> "" ->
  ObjectId_cast userId = Some uid ->
  (forall r, In r (Rooms (disconnect sid w)) -> has_member uid r = false) /\
  (forall room, In room (Rooms w) -> has_member uid room = true ->
                isAdmin room userId = true ->
                gone (r_id room) (disconnect sid w)).
Proof.
  intros Hnd Hm Hne Hc.
  rewrite (disconnect_fold sid userId uid w Hm Hne Hc).
  set (snap := List.filter (has_member uid) (Rooms w)) in *.
  set (w0 := with_map (delete sid (socketToUserMap w)) w) in *.
  split.
  - intros r Hr.
    destruct (pending_fold userId uid snap w0 Hc) as [_ Hp].
    { split; [assumption|]. simpl. intros r0 Hr0 Hmem.
      apply in_map. apply filter_In. auto. }
    destruct (has_member uid r) eqn:E; [|reflexivity].
    destruct (Hp r Hr E).
  - intros room Hin Hmem Hadm.
    pose proof (find_key_unique r_id (Rooms w) room Hnd Hin) as Hf.
    apply (fold_departed_target userId uid Hc (r_id room) room); simpl; auto.
    + apply in_map. apply filter_In. auto.
    + intros s Hs Hid. apply filter_In in Hs as [Hs _].
      now rewrite (NoDup_map_eq r_id (Rooms w) s room Hnd Hs Hin Hid).
Qed.

(** *** What no handler does *)

(** X12: no socket event writes the user collection, and only
    [create-room], [send-message], [leave-room] and [disconnect] write
    the message collection: joining, playback control and the voice
    events leave every message as it was. *)
Theorem on_frame (env : Env) (sid : string) (ev : event) (w : World) :
  Users (on env sid ev w) = Users w /\
  (writes_messages ev = false -> Messages (on env sid ev w) = Messages w).
Proof.
  destruct ev; simpl; try (split; [reflexivity | reflexivity]).
  - split; [|discriminate]. unfold create_room; run. branches; reflexivity.
  - unfold join_room; run. branches; split; reflexivity.
  - unfold play_video; run. branches; split; reflexivity.
  - unfold pause_video; run. branches; split; reflexivity.
  - unfold resume_video; run. branches; split; reflexivity.
  - unfold seek_video; run. branches; split; reflexivity.
  - split; [|discriminate]. unfold send_message; run. branches; reflexivity.
  - split; [|discriminate]. unfold leave_room, isAdmin; run. branches; reflexivity.
  - split; [|discriminate].
    destruct (disconnect_frame sid w) as [->|(HU & _)]; [reflexivity | exact HU].
Qed.

(** *** Errors go to the caller *)

Ltac suffix :=
  rewrite <- ?app_assoc;
  first [ eexists; split; [reflexivity|]
        | exists []; split; [now rewrite app_nil_r|] ].

Ltac quiet :=
  let tg := fresh "tg" in
  let p := fresh "p" in
  let H := fresh "H" in
  intros tg p H; simpl in H;
  repeat (destruct H as [H|H]; [try discriminate; try (now inversion H)|]);
  try contradiction.

Lemma loop_effect_errors (sid : string) (t rejection : list effect) :
  Forall loop_effect t ->
  rejection = [] \/ (exists message, rejection = [Unhandled message]) ->
  errors_to sid (t ++ rejection).
Proof.
  intros Ht Hr tg p Hin. apply in_app_iff in Hin as [Hin|Hin].
  - rewrite List.Forall_forall in Ht. apply Ht in Hin.
    destruct tg; [destruct Hin|]. destruct p; simpl in Hin; tauto.
  - destruct Hr as [->|(message & ->)]; [destruct Hin|].
    destruct Hin as [Hin|[]]. discriminate.
Qed.

(** X13: whatever the event and its payload, every [room-error] that
    its handler emits is sent to the connection the event came from,
    never to a channel or to another connection; and a handler only
    ever adds to the sequence of writes and emissions. *)
Theorem errors_reach_the_caller_only
    (env : Env) (sid : string) (ev : event) (w : World) :
  exists t,
    trace (on env sid ev w) = (trace w ++ t)%list /\ errors_to sid t.
Proof.
  destruct ev; simpl.
  - unfold create_room; run. branches; suffix; quiet.
  - unfold join_room; run. branches; suffix; quiet.
  - unfold play_video; run. branches; suffix; quiet.
  - unfold pause_video; run. branches; suffix; quiet.
  - unfold resume_video; run. branches; suffix; quiet.
  - unfold seek_video; run. branches; suffix; quiet.
  - unfold send_message; run. branches; suffix; quiet.
  - unfold leave_room, isAdmin; run. branches; suffix; quiet.
  - destruct (disconnect_frame sid w) as [->|(_ & _ & _ & t & r & -> & Ht & Hr)].
    + exists []. split; [now rewrite app_nil_r | intros tg p []].
    + exists (t ++ r)%list. split; [reflexivity | now apply loop_effect_errors].
  - unfold join_voice; run. suffix; quiet.
  - unfold leave_voice; run. suffix; quiet.
  - unfold relay; run. suffix; quiet.
  - unfold relay; run. suffix; quiet.
  - unfold relay; run. suffix; quiet.
  - unfold mic; run. suffix; quiet.
  - unfold mic; run. suffix; quiet.
  - exists []. split; [now rewrite app_nil_r | intros tg p []].
Qed.

(** *** Signalling *)

Ltac unsigned :=
  let tg := fresh "tg" in
  let name := fresh "name" in
  let from := fresh "from" in
  let body := fresh "body" in
  let H := fresh "H" in
  intros tg name from body H; simpl in H;
  repeat (destruct H as [H|H]; [try discriminate; try (now inversion H)|]);
  try contradiction.

Lemma loop_effect_signals (sid : string) (t rejection : list effect) :
  Forall loop_effect t ->
  rejection = [] \/ (exists message, rejection = [Unhandled message]) ->
  signals_from sid (t ++ rejection).
Proof.
  intros Ht Hr tg name from body Hin. apply in_app_iff in Hin as [Hin|Hin].
  - rewrite List.Forall_forall in Ht. apply Ht in Hin.
    destruct tg; destruct Hin.
  - destruct Hr as [->|(message & ->)]; [destruct Hin|].
    destruct Hin as [Hin|[]]. discriminate.
Qed.

(** X19: the sender of a signalling message ([voice-offer],
    [voice-answer], [voice-candidate]) is stamped by the server: whatever
    the payload of whatever event, every signalling message its handler
    emits names the connection the event came from, so a client cannot
    signal under the id of another connection. *)
Theorem signals_carry_the_sender
    (env : Env) (sid : string) (ev : event) (w : World) :
  exists t,
    trace (on env sid ev w) = (trace w ++ t)%list /\ signals_from sid t.
Proof.
  destruct ev; simpl.
  - unfold create_room; run. branches; suffix; unsigned.
  - unfold join_room; run. branches; suffix; unsigned.
  - unfold play_video; run. branches; suffix; unsigned.
  - unfold pause_video; run. branches; suffix; unsigned.
  - unfold resume_video; run. branches; suffix; unsigned.
  - unfold seek_video; run. branches; suffix; unsigned.
  - unfold send_message; run. branches; suffix; unsigned.
  - unfold leave_room, isAdmin; run. branches; suffix; unsigned.
  - destruct (disconnect_frame sid w) as [->|(_ & _ & _ & t & r & -> & Ht & Hr)].
    + exists []. split; [now rewrite app_nil_r | intros tg name from body []].
    + exists (t ++ r)%list. split; [reflexivity | now apply loop_effect_signals].
  - unfold join_voice; run. suffix; unsigned.
  - unfold leave_voice; run. suffix; unsigned.
  - unfold relay; run. suffix; unsigned.
  - unfold relay; run. suffix; unsigned.
  - unfold relay; run. suffix; unsigned.
  - unfold mic; run. suffix; unsigned.
  - unfold mic; run. suffix; unsigned.
  - exists []. split; [now rewrite app_nil_r | intros tg name from body []].
Qed.

(** *** Messages and their rooms *)

Lemma in_delete_first_except {A} (P : A -> bool) (l : list A) (x r : A) :
  List.find P l = Some x -> In r l -> r <> x -> In r (delete_first P l).
Proof.
  induction l as [|y l IH]; simpl; [discriminate|].
  destruct (P y).
  - intros [= ->] [->|Hin] Hne; [congruence | assumption].
  - intros Hf [->|Hin] Hne; [now left | right; auto].
Qed.

(** Messages of a room that is deleted go with it; the others keep their
    room. *)
Lemma orphans_delete (P : Room -> bool) (l : list Room) (x : Room)
    (msgs : list Message) :
  List.find P l = Some x ->
  (forall m, In m msgs -> In (room m) (map r_id l)) ->
  forall m, In m (List.filter (fun m => negb (in_room (r_id x) m)) msgs) ->
            In (room m) (map r_id (delete_first P l)).
Proof.
  intros Hf H m Hm. pose proof (no_messages_filter _ _ _ Hm) as Hne.
  apply filter_In in Hm as [Hm _].
  pose proof (H m Hm) as Hroom.
  apply in_map_iff in Hroom as (r & Hr & Hin).
  apply in_map_iff. exists r. split; [assumption|].
  eapply in_delete_first_except; eauto. congruence.
Qed.

Lemma orphans_delete_id (roomId : ObjectId) (l : list Room) (msgs : list Message) :
  (forall m, In m msgs -> In (room m) (map r_id l)) ->
  forall m, In m (List.filter (fun m => negb (in_room roomId m)) msgs) ->
            In (room m) (map r_id (delete_first (has_id roomId) l)).
Proof.
  intros H m Hm.
  destruct (List.find (has_id roomId) l) as [x|] eqn:Hf.
  - pose proof (find_has_id _ _ _ Hf) as [_ Hid]. rewrite <- Hid in Hm.
    eapply orphans_delete; eauto.
  - rewrite (delete_first_none _ _ Hf). apply H.
    now apply filter_In in Hm.
Qed.

Lemma orphans_update (roomId : ObjectId) (u : update ObjectId) (l : list Room)
    (msgs : list Message) :
  (forall m, In m msgs -> In (room m) (map r_id l)) ->
  forall m, In m msgs ->
            In (room m) (map r_id (update_first (has_id roomId) (apply_update u) l)).
Proof.
  intros H m Hm. rewrite map_update_first; [auto | intros; apply apply_update_id].
Qed.

Lemma orphans_snoc (l : list Room) (r : Room) (msgs : list Message) :
  (forall m, In m msgs -> In (room m) (map r_id l)) ->
  forall m, In m msgs -> In (room m) (map r_id (l ++ [r])).
Proof.
  intros H m Hm. rewrite map_app. apply in_or_app. left. auto.
Qed.

Lemma departed_no_orphans (userId : string) (uid : ObjectId) (w : World) (s : Room) :
  ObjectId_cast userId = Some uid ->
  no_orphans w -> no_orphans (departed userId w s).
Proof.
  intros Hc H. destruct (departed_spec userId uid Hc s w) as (HR & HM & _).
  unfold no_orphans. rewrite HR, HM.
  unfold depart_rooms, depart_messages, pull_rooms.
  destruct (isAdmin s userId); simpl.
  - now apply orphans_delete_id.
  - destruct (collapses _ _ _).
    + rewrite delete_first_update_first by (intros; apply has_id_apply_update).
      now apply orphans_delete_id.
    + now apply orphans_update.
Qed.

Lemma on_no_orphans (env : Env) (sid : string) (ev : event) (w : World) :
  no_orphans w -> no_orphans (on env sid ev w).
Proof.
  intros H. unfold no_orphans in *.
  destruct ev; simpl; try assumption.
  - unfold create_room; run.
    destruct (negb (truthy userId) || negb (isValidObjectId userId)); simpl; [auto|].
    destruct (negb (truthy userName) || negb (is_string userName)); simpl; [auto|].
    destruct (ObjectId_cast (to_string userId)) as [uid|]; simpl; [|auto].
    destruct (List.find _ (Users w)) as [adminUser|]; simpl; [|auto].
    destruct (List.find (has_admin _) (Rooms w)) as [existing|] eqn:Hex; simpl;
      destruct (negb (Room_valid _)); simpl.
    + eapply orphans_delete; eauto.
    + branches; apply orphans_snoc; eapply orphans_delete; eauto.
    + assumption.
    + branches; now apply orphans_snoc.
  - unfold join_room; run.
    branches; first [assumption | now apply orphans_update].
  - unfold play_video; run.
    branches; first [assumption | now apply orphans_update].
  - unfold pause_video; run.
    branches; first [assumption | now apply orphans_update].
  - unfold resume_video; run.
    branches; first [assumption | now apply orphans_update].
  - unfold seek_video; run.
    branches; first [assumption | now apply orphans_update].
  - unfold send_message, new_message; run.
    destruct (isValidObjectId userId); simpl; [|auto].
    destruct (isValidObjectId roomId); simpl; [|auto].
    destruct (ObjectId_cast (to_string userId)) as [uid|]; simpl; [|auto].
    destruct (List.find _ (Users w)) as [user|]; simpl; [|auto].
    destruct (ObjectId_cast (to_string roomId)) as [rid|]; simpl; [|auto].
    destruct (List.find _ (Rooms w)) as [r|] eqn:Hf; simpl; [|auto].
    destruct (negb (Message_valid _)); simpl; [auto|].
    intros m Hm. apply in_app_iff in Hm as [Hm|[<-|[]]]; [auto|]. simpl.
    apply find_has_id in Hf as [Hin <-]. now apply in_map.
  - unfold leave_room, isAdmin; run.
    branches;
      first [ assumption
            | now apply orphans_delete_id
            | now apply orphans_update
            | apply orphans_delete_id; now apply orphans_update ].
  - destruct (disconnect_cases sid w)
      as [->|[(userId & _ & _ & _ & ->)|(userId & uid & _ & _ & Hc & ->)]];
      [assumption | assumption |].
    assert (Hfold : forall snap w0, no_orphans w0 ->
               no_orphans (fold_left (departed userId) snap w0)).
    { induction snap as [|s snap IH]; intros w0 H0; simpl; [assumption|].
      apply IH. now apply (departed_no_orphans userId uid). }
    apply (Hfold _ (with_map (delete sid (socketToUserMap w)) w)). exact H.
Qed.

(** X14: through every history of events, every stored message refers
    to a stored room: a message is only saved for a room that was found,
    and every deletion of a room deletes the messages that refer to
    it. *)
Theorem messages_keep_their_room (h : history) (w : World) :
  no_orphans w -> no_orphans (replay h w).
Proof.
  revert w. induction h as [|[[env sid] ev] h IH]; intros w H; simpl; [assumption|].
  apply IH. now apply on_no_orphans.
Qed.

(** X15: a [send-message] that is accepted shows up in the listing of
    its room, after the messages that were there, and in the listing of
    no other room. *)
Theorem sent_message_is_listed
    (env : Env) (sid : string) (roomId userId : jsval) (text : string)
    (w : World) :
  sendable w roomId userId text = true ->
  let w' := send_message env sid roomId userId text w in
  exists user uid rid,
    ObjectId_cast (to_string userId) = Some uid /\
    List.find (is_id uid) (Users w) = Some user /\
    ObjectId_cast (to_string roomId) = Some rid /\
    message_route rid w'
    = (message_route rid w ++
         [{| m_id := newObjectId env; room := rid;
             senderId := uid; text := text;
             timestamp := dateNow env; sender := user |}])%list /\
    forall other, other <> rid ->
                  message_route other w' = message_route other w.
Proof.
  unfold sendable, found_user, found_room, message_route, send_message,
    new_message; run.
  destruct (isValidObjectId userId); simpl; [|discriminate].
  destruct (isValidObjectId roomId); simpl; [|discriminate].
  destruct (ObjectId_cast (to_string userId)) as [uid|]; simpl; [|discriminate].
  destruct (List.find _ (Users w)) as [user|] eqn:Hfu; simpl; [|discriminate].
  destruct (ObjectId_cast (to_string roomId)) as [rid|]; simpl; [|discriminate].
  destruct (List.find _ (Rooms w)) as [r|]; simpl; [|discriminate].
  unfold Message_valid; simpl.
  destruct (bool_decide (text = "")); simpl; [discriminate|].
  intros _. exists user, uid, rid.
  split; [reflexivity|]. split; [assumption|]. split; [reflexivity|].
  rewrite !List.filter_app. simpl. unfold in_room at 2. simpl.
  rewrite bool_decide_eq_true_2 by reflexivity.
  split; [reflexivity|].
  intros other Hne. rewrite List.filter_app. simpl. unfold in_room at 2. simpl.
  rewrite bool_decide_eq_false_2 by congruence. now rewrite app_nil_r.
Qed.

(** *** Rooms come from [create-room] alone *)

(** X16: no event brings a room into the store except [create-room],
    which adds the one room it has just generated the id of: a room
    that was deleted is never there again under its id. *)
Theorem rooms_come_from_create_room
    (env : Env) (sid : string) (ev : event) (w : World) (id : ObjectId) :
  In id (map r_id (Rooms (on env sid ev w))) ->
  In id (map r_id (Rooms w)) \/
  (id = newObjectId env /\ exists userId userName, ev = CreateRoom userId userName).
Proof.
  intros H.
  destruct ev as [userId userName| | | | | | | | | | | | | | | |];
    try (left; refine (rooms_step_subset _ _ id _ H);
         apply on_rooms_step; discriminate).
  - simpl in H.
    destruct (create_room_rooms env sid userId userName w)
      as [E|(uid & _ & [E|(adminUser & E)])]; rewrite E in H.
    + now left.
    + left. apply in_map_iff in H as (x & <- & Hx).
      apply in_map. eapply in_delete_first; eauto.
    + rewrite map_app in H. apply in_app_iff in H as [H|[<-|[]]].
      * left. apply in_map_iff in H as (x & <- & Hx).
        apply in_map. eapply in_delete_first; eauto.
      * right. eauto.
  - left. simpl in H. revert H.
    apply (disconnect_closed
             (fun l => In id (map r_id l) -> In id (map r_id (Rooms w)))); [|auto].
    intros l l' Hstep Hl Hin. apply Hl. eapply rooms_step_subset; eassumption.
Qed.

(** X17: once a [leave-room] that names the admin by the string form of
    the stored admin id has dismissed a room, a [join-room] for that
    room, however spelled and by whatever user and connection, is
    refused with a [room-error] to the caller and changes nothing else;
    the message listing of the room is empty. *)
Theorem join_after_dismissal_is_refused
    (w : World) (room : Room) (sid roomId : string) :
  keys_ok w -> In room (Rooms w) ->
  isValidObjectId (JStr roomId) = true ->
  ObjectId_cast roomId = Some (r_id room) ->
  isValidObjectId (JStr (toString (admin room))) = true ->
  let w1 := leave_room sid (JStr roomId) (JStr (toString (admin room))) w in
  message_route (r_id room) w1 = [] /\
  forall sid' roomId' userId,
    ObjectId_cast roomId' = Some (r_id room) ->
    exists message,
      join_room sid' (JStr roomId') userId w1
      = log (Emit (ToSocket sid') "room-error" (PText message)) w1.
Proof.
  intros Hnd Hin Hr Hcr Hu w1.
  pose proof (find_key_unique r_id (Rooms w) room Hnd Hin) as Hf.
  assert (Hgone : gone (r_id room) w1).
  { subst w1.
    rewrite (leave_room_accepted w sid _ _ _ _ room Hu Hr Hcr Hf (cast_toString _)).
    rewrite isAdmin_spelled.
    match goal with
    | |- context [dismiss _ ?w0] =>
        destruct (dismiss_spec roomId (r_id room) w0 Hcr) as (w' & -> & HR & HM & _)
    end.
    simpl. split.
    - rewrite HR. now apply (delete_first_key r_id).
    - intros m Hm. rewrite HM in Hm. eapply no_messages_filter; eauto. }
  destruct Hgone as [Habs Hmsg]. split.
  - unfold message_route.
    destruct (List.filter _ (Messages w1)) as [|m ms] eqn:E; [reflexivity|].
    assert (Hm : In m (List.filter (in_room (r_id room)) (Messages w1)))
      by (rewrite E; now left).
    apply filter_In in Hm as [Hm Hroom].
    apply bool_decide_eq_true in Hroom. destruct (Hmsg m Hm Hroom).
  - intros sid' roomId' userId Hcr'.
    pose proof (find_key_None r_id (r_id room) (Rooms w1) Habs) as Hnone.
    change (fun x => bool_decide (r_id x = r_id room)) with (has_id (r_id room))
      in Hnone.
    unfold join_room; run.
    destruct (isValidObjectId userId); simpl; [|eauto].
    destruct (ObjectId_isValid (trim roomId')); simpl; [|eauto].
    rewrite Hcr'. simpl. rewrite Hnone. simpl. eauto.
Qed.

(** *** Voice presence *)

(** X18: [join-voice] followed by [leave-voice] on the same connection
    for the same room leaves the connection outside the voice channel
    and changes no other channel membership; each of the two announces
    itself to the voice channel, and neither looks at or changes the
    rooms, the messages or the registry, so the room need not exist. *)
Theorem voice_round_trip
    (sid : string) (roomId userId : jsval) (w : World) :
  let w' := leave_voice sid roomId userId (join_voice sid roomId userId w) in
  adapter w' = (adapter w ∖ {[ (sid, voice roomId) ]}) /\
  Rooms w' = Rooms w /\ Messages w' = Messages w /\ Users w' = Users w /\
  socketToUserMap w' = socketToUserMap w /\
  trace w' =
    (trace w ++
       [Emit (ToChannel (voice roomId)) "user-joined-voice" (PUserId userId);
        Emit (ToChannel (voice roomId)) "user-left-voice" (PUserId userId)])%list.
Proof.
  unfold leave_voice, join_voice; run.
  split; [|repeat split; try reflexivity; now rewrite <- app_assoc].
  apply set_eq. intros x.
  rewrite !elem_of_difference, elem_of_union, elem_of_singleton. tauto.
Qed.

(** *** The earlier server *)

(** X20: in the earlier server no playback event, accepted or not,
    writes a document or changes the admin or the participants of any
    table entry; [pause-video], [resume-video], [seek-video] and
    [sync-video] leave the whole state as it was (the playback position
    is relayed, never kept), and whatever a playback event emits goes to
    the room channel: the caller is never told of a refusal. *)
Theorem legacy_playback_frame
    (roomId : string) (adminId : jsval) (s : Legacy.State) :
  (forall time,
      LegacyRooms.state (LegacyRooms.pause_video roomId time adminId s) = s /\
      LegacyRooms.state (LegacyRooms.resume_video roomId time adminId s) = s /\
      LegacyRooms.state (LegacyRooms.seek_video roomId time adminId s) = s /\
      forall playing,
        LegacyRooms.state (LegacyRooms.sync_video roomId time playing adminId s) = s) /\
  (forall url serviceId,
      let s' := LegacyRooms.state
                  (LegacyRooms.play_video roomId url serviceId adminId s) in
      Legacy.Rooms s' = Legacy.Rooms s /\ Legacy.Users s' = Legacy.Users s /\
      Legacy.sent s' = Legacy.sent s /\
      forall id, standing <$> (Legacy.rooms s' !! id)
                 = standing <$> (Legacy.rooms s !! id)) /\
  (forall url serviceId time playing a,
      In a (LegacyRooms.actions (LegacyRooms.play_video roomId url serviceId adminId s) ++
            LegacyRooms.actions (LegacyRooms.pause_video roomId time adminId s) ++
            LegacyRooms.actions (LegacyRooms.resume_video roomId time adminId s) ++
            LegacyRooms.actions (LegacyRooms.seek_video roomId time adminId s) ++
            LegacyRooms.actions (LegacyRooms.sync_video roomId time playing adminId s)) ->
      exists event b, a = LegacyRooms.Send (ToChannel roomId) event b).
Proof.
  unfold LegacyRooms.pause_video, LegacyRooms.resume_video, LegacyRooms.seek_video,
    LegacyRooms.relay_time, LegacyRooms.sync_video, LegacyRooms.play_video,
    Legacy.read.
  destruct (LegacyRooms.authorized s roomId adminId); simpl.
  - split; [auto|]. split.
    + intros url serviceId.
      destruct (Legacy.rooms s !! roomId) as [entry|] eqn:E; simpl;
        [|destruct (Legacy.inherited roomId); simpl; auto].
      repeat (split; [reflexivity|]). intros id.
      destruct (decide (id = roomId)) as [->|Hne].
      * rewrite lookup_insert_eq, E. reflexivity.
      * now rewrite lookup_insert_ne.
    + intros url serviceId time playing a.
      destruct (Legacy.rooms s !! roomId) as [entry|]; simpl;
        [|destruct (Legacy.inherited roomId); simpl];
        intros H; repeat (destruct H as [<-|H]; [eauto|]); destruct H.
  - split; [auto|]. split; [auto|]. intros _ _ _ _ a [].
Qed.

(** X21: the gate compares the admin of a missing entry, which is
    [undefined], with [adminId]. So for a room that is not in the table,
    an event without [adminId] passes: [pause-video], [resume-video] and
    [seek-video] are broadcast to the channel of that name, while
    [play-video] ends in an uncaught TypeError at the write to the
    missing entry and emits nothing, unless the key names a property
    that the table inherits: then the write lands on that property and
    [load-video] is broadcast. With any [adminId] given, nothing
    happens. *)
Theorem legacy_gate_without_room
    (roomId : string) (s : Legacy.State) :
  Legacy.rooms s !! roomId = None ->
  (forall time,
      LegacyRooms.pause_video roomId time JUndefined s
      = LegacyRooms.done s
          [LegacyRooms.Send (ToChannel roomId) "pause-video" (LegacyRooms.Time time)] /\
      LegacyRooms.resume_video roomId time JUndefined s
      = LegacyRooms.done s
          [LegacyRooms.Send (ToChannel roomId) "resume-video" (LegacyRooms.Time time)] /\
      LegacyRooms.seek_video roomId time JUndefined s
      = LegacyRooms.done s
          [LegacyRooms.Send (ToChannel roomId) "seek-video" (LegacyRooms.Time time)]) /\
  (forall url serviceId,
      LegacyRooms.play_video roomId url serviceId JUndefined s
      = if Legacy.inherited roomId
        then LegacyRooms.done s
               [LegacyRooms.Send (ToChannel roomId) "load-video"
                  (LegacyRooms.Load url serviceId)]
        else LegacyRooms.threw s []
               "Cannot set properties of undefined (setting 'videoUrl')") /\
  (forall adminId time url serviceId,
      adminId <> JUndefined ->
      LegacyRooms.pause_video roomId time adminId s = LegacyRooms.done s [] /\
      LegacyRooms.play_video roomId url serviceId adminId s = LegacyRooms.done s []).
Proof.
  intros E.
  unfold LegacyRooms.pause_video, LegacyRooms.resume_video, LegacyRooms.seek_video,
    LegacyRooms.relay_time, LegacyRooms.play_video, LegacyRooms.authorized,
    Legacy.read.
  rewrite E. split; [auto|]. split.
  - intros url serviceId. now destruct (Legacy.inherited roomId).
  - intros adminId time url serviceId Hne.
    destruct adminId; [congruence | auto ..].
Qed.

(** X22: when the last participant of a room leaves, the earlier server
    deletes the table entry and leaves the room document where it is;
    from then on [get-room-details] for that room answers every caller
    with a [room-error], although its document is still stored: that
    the room does not exist, or, under a key that names a property the
    table inherits, that the details could not be fetched. *)
Theorem legacy_last_leave_hides_room
    (sid roomId : string) (userId : jsval) (entry : Legacy.Entry)
    (s : Legacy.State) :
  Legacy.rooms s !! roomId = Some entry ->
  List.filter (fun id => negb (strict_eq_string id userId))
    (Legacy.participants entry) = [] ->
  let s' := LegacyRooms.state (LegacyRooms.leave_room ObjectId_cast sid roomId userId s) in
  LegacyRooms.actions (LegacyRooms.leave_room ObjectId_cast sid roomId userId s)
  = [LegacyRooms.Leave sid roomId] /\
  LegacyRooms.uncaught (LegacyRooms.leave_room ObjectId_cast sid roomId userId s)
  = None /\
  Legacy.rooms s' = delete roomId (Legacy.rooms s) /\
  Legacy.Rooms s' = Legacy.Rooms s /\
  forall sid',
    Legacy.get_room_details ObjectId_cast sid' (JStr roomId) s'
    = Legacy.send (ToSocket sid') "room-error"
        (Legacy.RText (if Legacy.inherited roomId
                       then "Failed to fetch room details."
                       else "Room does not exist.")) s'.
Proof.
  intros E Hlast. unfold LegacyRooms.leave_room, Legacy.read. rewrite E, Hlast. simpl.
  repeat (split; [reflexivity|]).
  intros sid'. unfold Legacy.get_room_details, Legacy.fetchRoomDetails, Legacy.read.
  simpl. rewrite lookup_delete_eq.
  destruct (Legacy.inherited roomId) eqn:Hin; simpl.
  - assert (Hne : roomId <> "") by (intros ->; discriminate).
    rewrite (bool_decide_eq_false_2 (roomId = "")) by assumption. simpl.
    destruct (ObjectId_cast roomId); [|reflexivity].
    now destruct (List.find _ (Legacy.Rooms s)).
  - now rewrite orb_true_r.
Qed.

(** X23: in the earlier server a [join-room] for a room of the table
    checks and appends in one synchronous step: afterwards the user is
    among the participants, the earlier participants keep their order,
    a second join of the same user changes nothing in the table, and a
    list without duplicates stays without duplicates. *)
Theorem legacy_join_is_idempotent
    (sid sid' roomId userId : string) (adminName adminName' : jsval)
    (entry : Legacy.Entry) (s : Legacy.State) :
  roomId <> "" ->
  Legacy.rooms s !! roomId = Some entry ->
  let s1 := LegacyRooms.state
              (LegacyRooms.join_room ObjectId_cast sid roomId userId adminName s) in
  let s2 := LegacyRooms.state
              (LegacyRooms.join_room ObjectId_cast sid' roomId userId adminName' s1) in
  exists entry1,
    Legacy.rooms s1 !! roomId = Some entry1 /\
    In userId (Legacy.participants entry1) /\
    (Legacy.participants entry1 = Legacy.participants entry \/
     Legacy.participants entry1 = (Legacy.participants entry ++ [userId])%list /\
     ~ In userId (Legacy.participants entry)) /\
    (List.NoDup (Legacy.participants entry) ->
     List.NoDup (Legacy.participants entry1)) /\
    Legacy.rooms s2 = Legacy.rooms s1.
Proof.
  intros Hne E. unfold LegacyRooms.join_room, Legacy.read.
  rewrite (bool_decide_eq_false_2 (roomId = "")) by assumption.
  rewrite E. simpl.
  rewrite lookup_insert_eq. simpl.
  eexists. split; [reflexivity|]. simpl.
  case_bool_decide as Hin.
  - apply list_elem_of_In in Hin.
    split; [assumption|]. split; [now left|]. split; [auto|].
    rewrite bool_decide_eq_true_2 by now apply list_elem_of_In.
    simpl. now rewrite insert_insert_eq.
  - assert (Hnin : ~ In userId (Legacy.participants entry))
      by (intros H; apply Hin; now apply list_elem_of_In).
    assert (Hnow : In userId (Legacy.participants entry ++ [userId])%list)
      by (apply in_or_app; right; now left).
    split; [assumption|]. split; [right; auto|]. split.
    + intros Hnd. now apply NoDup_snoc.
    + rewrite bool_decide_eq_true_2 by now apply list_elem_of_In.
      simpl. now rewrite insert_insert_eq.
Qed.

End Server.

(** ** The concrete instance at work *)

Example trim_strips_both_ends : trim "  65f1 a0  " = "65f1 a0".
Proof. reflexivity. Qed.

Example hex24_accepts_ids :
  map hex24 [alice_hex; party_hex; ALICE_HEX; "65f1a000000000000000000";
             "65f1a000000000000000000g"; ""]
  = [true; true; true; false; false; false].
Proof. reflexivity. Qed.

(** The two spellings of Alice's id cast to the same ObjectId, whose
    string form is the one in lower case; a padded id passes the check
    of the handlers and does not cast. *)
Example hex_cast_spellings :
  hex_cast alice_hex = Some alice_id /\ hex_cast ALICE_HEX = Some alice_id /\
  toString alice_id = alice_hex /\ ALICE_HEX <> alice_hex /\
  isValidObjectId hex24 (JStr (" " ++ alice_hex)) = true /\
  hex_cast (" " ++ alice_hex) = None.
Proof. repeat split; try reflexivity. discriminate. Qed.

Lemma byte_of_hex_digits (b : Byte.byte) :
  byte_of_hex (hex_digit (Byte.to_N b / 16)) (hex_digit (Byte.to_N b mod 16)) = Some b.
Proof. destruct b; reflexivity. Qed.

Lemma bytes_of_hex_fold (l : list Byte.byte) :
  bytes_of_hex (fold_right hex_of_byte "" l) = Some l.
Proof.
  induction l as [|b l IH]; [reflexivity|].
  simpl fold_right. unfold hex_of_byte at 1. cbn [bytes_of_hex].
  now rewrite byte_of_hex_digits, IH.
Qed.

Lemma vec_of_list_to_list {A} (n : nat) (v : vec A n) :
  vec_of_list n (vec_to_list v) = Some v.
Proof. induction v as [|x n v IH]; simpl; [reflexivity | now rewrite IH]. Qed.

(** The string form of an ObjectId casts back to it. *)
Lemma hex_cast_toString (o : ObjectId) : hex_cast (toString o) = Some o.
Proof.
  unfold hex_cast, toString. rewrite bytes_of_hex_fold. apply vec_of_list_to_list.
Qed.

(** [create-room] by Bob, who has no room yet. *)
Example create_room_scenario :
  let w := create_room hex24 hex_cast cast_message later "sockB"
             (JStr bob_hex) (JStr "Bob") party_world in
  let room := new_room later bob_id "Bob" bob in
  Rooms w = [party; room] /\
  users room = [bob_p] /\
  socketToUserMap w !! "sockB" = Some bob_hex /\
  trace w =
    [Wrote (RoomSave room);
     Emit (ToChannel other_hex) "room-created"
       (PRoomCreated other_hex bob_hex [bob_hex] "Bob");
     Emit (ToChannel other_hex) "room-details"
       (PRoomDetails (Some {| d_adminName := "Bob"; participants := [listed bob_p];
                              activeUsersCount := 1 |}))].
Proof. repeat split; vm_compute; reflexivity. Qed.

(** [join-room] by Bob into Alice's room. *)
Example join_room_scenario :
  let w := join_room hex24 hex_cast cast_message "sockB"
             (JStr party_hex) (JStr bob_hex) fresh_world in
  Rooms w = [party] /\
  trace w =
    [Wrote (RoomFindByIdAndUpdate party_id (Push bob_p));
     Emit (ToSocket "sockB") "room-joined"
       (PRoomJoined party_hex alice_hex "https://x/video" "Alice" [alice_p; bob_p]);
     Emit (ToChannel party_hex) "update-participants" (PParticipants [alice_p; bob_p]);
     Emit (ToChannel party_hex) "room-details"
       (PRoomDetails (Some {| d_adminName := "Alice";
                              participants := [listed alice_p; listed bob_p];
                              activeUsersCount := 2 |}))].
Proof. repeat split; vm_compute; reflexivity. Qed.

(** The connection of Bob, a participant, goes away. *)
Example disconnect_scenario :
  let w := disconnect hex_cast cast_message "sockB" party_world in
  Rooms w = [party_of [alice_p]] /\
  Messages w = [hello] /\
  socketToUserMap w !! "sockB" = None /\
  trace w =
    [Wrote (RoomFindByIdAndUpdate party_id (Pull bob_id));
     Emit (ToChannel party_hex) "update-participants" (PParticipantIds [alice_hex]);
     Emit (ToChannel party_hex) "room-details"
       (PRoomDetails (Some {| d_adminName := "Alice"; participants := [listed alice_p];
                              activeUsersCount := 1 |}))].
Proof. repeat split; vm_compute; reflexivity. Qed.

(** A message with a text goes through, whoever sends it. *)
Example send_message_scenario :
  let w := send_message hex24 hex_cast cast_message later "sockB"
             (JStr party_hex) (JStr bob_hex) "hi" party_world in
  let m := {| m_id := other_id; room := party_id; senderId := bob_id; text := "hi";
              timestamp := 1700000001000%Z; sender := bob |} in
  Messages w = [hello; m] /\
  trace w = [Wrote (MessageSave m);
             Emit (ToChannel party_hex) "receive-message" (PMessage m)].
Proof. repeat split; vm_compute; reflexivity. Qed.

(** An id that passes the check and does not cast ends [join-room] in
    its [catch], with the message of the CastError. *)
Example join_room_padded_id_scenario :
  trace (join_room hex24 hex_cast cast_message "sockB"
           (JStr party_hex) (JStr (" " ++ bob_hex)) fresh_world)
  = [Emit (ToSocket "sockB") "room-error"
       (PText ("Failed to join room: " ++
               cast_message (" " ++ bob_hex) "_id" "User"))].
Proof. vm_compute. reflexivity. Qed.

(** The earlier server answers [get-room-details] for a room of its
    table, reports an unknown room to the caller, and fails to fetch
    the details under a key that names an inherited property. *)
Example legacy_get_room_details_scenario :
  Legacy.sent (Legacy.get_room_details hex_cast "sockB" (JStr party_hex) legacy_state)
  = [(ToSocket "sockB", "room-details",
      Legacy.RDetails
        {| Legacy.d_adminName := "Alice";
           Legacy.d_participants :=
             [{| Legacy.id := alice_hex; Legacy.username := "Alice";
                 Legacy.profilePic := None |};
              {| Legacy.id := bob_hex; Legacy.username := "Bob";
                 Legacy.profilePic := Some "bob.png" |}];
           Legacy.activeUsersCount := 2 |})] /\
  Legacy.sent (Legacy.get_room_details hex_cast "sockB" (JStr other_hex) legacy_state)
  = [(ToSocket "sockB", "room-error", Legacy.RText "Room does not exist.")] /\
  Legacy.sent (Legacy.get_room_details hex_cast "sockB" (JStr "constructor") legacy_state)
  = [(ToSocket "sockB", "room-error", Legacy.RText "Failed to fetch room details.")].
Proof. repeat split; vm_compute; reflexivity. Qed.

(** ** The properties on the concrete instance *)

(** C1, counterexample to the claim as stated: Bob, who is not the
    admin, sends [pause-video] for Alice's existing room; nothing at all
    is emitted, so no [room-error] reaches him. *)
Lemma pause_video_unauthorized_is_silent :
  isValidObjectId hex24 (JStr party_hex) = true /\
  hex_cast party_hex = Some party_id /\
  List.find (has_id party_id) (Rooms party_world) = Some party /\
  strict_eq_string (toString (admin party)) (JStr bob_hex) = false /\
  trace (pause_video hex24 hex_cast cast_message "sockB" (JStr party_hex) 42%Z
           (JStr bob_hex) party_world) = [] /\
  ~ exists message,
      In (Emit (ToSocket "sockB") "room-error" (PText message))
         (trace (pause_video hex24 hex_cast cast_message "sockB" (JStr party_hex) 42%Z
                   (JStr bob_hex) party_world)).
Proof.
  do 4 (split; [vm_compute; reflexivity|]).
  split; [vm_compute; reflexivity|].
  intros (message & H). vm_compute in H. exact H.
Qed.

Lemma unauthorized_playback_is_rejected_witness :
  isValidObjectId hex24 (JStr party_hex) = true /\
  hex_cast party_hex = Some party_id /\
  List.find (has_id party_id) (Rooms party_world) = Some party /\
  strict_eq_string (toString (admin party)) (JStr bob_hex) = false /\
  play_video hex24 hex_cast cast_message "sockB" (JStr party_hex) "https://y/next"
    (JStr bob_hex) party_world
  = log (Emit (ToSocket "sockB") "room-error"
           (PText "Only the admin can set the video")) party_world /\
  seek_video hex24 hex_cast cast_message "sockB" (JStr party_hex) 30%Z (JStr bob_hex)
    party_world
  = party_world.
Proof.
  do 4 (split; [vm_compute; reflexivity|]).
  destruct (unauthorized_playback_is_rejected hex24 hex_cast cast_message party_world
              "sockB" party_hex (JStr bob_hex) party_id party
              eq_refl eq_refl eq_refl eq_refl) as [Hplay Hrest].
  split; [apply Hplay | apply (Hrest 30%Z)].
Defined.

Lemma play_video_persists_then_broadcasts_witness :
  isValidObjectId hex24 (JStr party_hex) = true /\
  hex_cast party_hex = Some party_id /\
  List.find (has_id party_id) (Rooms party_world) = Some party /\
  strict_eq_string (toString (admin party)) (JStr alice_hex) = true /\
  trace (play_video hex24 hex_cast cast_message "sockA" (JStr party_hex)
           "https://y/next" (JStr alice_hex) party_world)
  = [Wrote (RoomFindByIdAndUpdate party_id
              (SetFields (Some "https://y/next") (Some "1") (Some false) (Some 0%Z)));
     Emit (ToChannel party_hex) "load-video" (PUrl "https://y/next")].
Proof.
  do 4 (split; [vm_compute; reflexivity|]).
  apply (play_video_persists_then_broadcasts hex24 hex_cast cast_message party_world
           "sockA" party_hex "https://y/next" (JStr alice_hex) party_id party
           eq_refl eq_refl eq_refl eq_refl).
Defined.

Lemma seek_video_frame_witness :
  isValidObjectId hex24 (JStr party_hex) = true /\
  hex_cast party_hex = Some party_id /\
  List.find (has_id party_id) (Rooms party_world) = Some party /\
  strict_eq_string (toString (admin party)) (JStr alice_hex) = true /\
  map r_id (Rooms (seek_video hex24 hex_cast cast_message "sockA" (JStr party_hex) 90%Z
                     (JStr alice_hex) party_world))
  = map r_id (Rooms party_world) /\
  Messages (seek_video hex24 hex_cast cast_message "sockA" (JStr party_hex) 90%Z
              (JStr alice_hex) party_world)
  = Messages party_world.
Proof.
  do 4 (split; [vm_compute; reflexivity|]).
  destruct (seek_video_frame hex24 hex_cast cast_message party_world "sockA" party_hex
              90%Z (JStr alice_hex) party_id party eq_refl eq_refl eq_refl eq_refl)
    as (_ & _ & Hids & HM & _).
  split; [exact Hids | exact HM].
Defined.

(** C8, counterexample to the claim as stated: Bob and the room exist
    and both ids are well formed, yet a message with an empty text is
    refused: nothing is saved and Bob gets a [room-error]. *)
Lemma send_message_empty_text_fails :
  isValidObjectId hex24 (JStr bob_hex) = true /\
  isValidObjectId hex24 (JStr party_hex) = true /\
  found_user hex_cast party_world bob_hex = Some bob /\
  found_room hex_cast party_world party_hex = Some party /\
  Messages (send_message hex24 hex_cast cast_message later "sockB" (JStr party_hex)
              (JStr bob_hex) "" party_world)
  = Messages party_world /\
  trace (send_message hex24 hex_cast cast_message later "sockB" (JStr party_hex)
           (JStr bob_hex) "" party_world)
  = [Emit (ToSocket "sockB") "room-error"
       (PText "Failed to send message: Message validation failed: text: Path `text` is required.")].
Proof. repeat split; vm_compute; reflexivity. Qed.

(** C9, counterexample to the claim as stated: the room exists, and
    [get-room-details] for it on [server.js] emits nothing. *)
Lemma get_room_details_unanswered :
  found_room hex_cast party_world party_hex = Some party /\
  trace (on hex24 hex_cast cast_message later "sockB" (GetRoomDetails (JStr party_hex))
           party_world) = [] /\
  ~ exists p,
      In (Emit (ToSocket "sockB") "room-details" p)
         (trace (on hex24 hex_cast cast_message later "sockB"
                   (GetRoomDetails (JStr party_hex)) party_world)).
Proof.
  do 2 (split; [vm_compute; reflexivity|]).
  intros (p & H). exact H.
Qed.

(** C4: two [join-room] calls for the same room and the same user,
    resumed in turn at their suspension points, both read the room
    before either has pushed, so both push: Bob is in the participant
    list twice. Run one after the other, the same two calls leave him in
    it once. *)
Theorem interleaved_joins_duplicate_member :
  let a := joining "sockB" party_hex bob_hex in
  let b := joining "sockC" party_hex bob_hex in
  let turns := [false; true; false; true; false; true; false; true; false; true] in
  let in_a_row := [false; false; false; false; false; true; true; true; true; true] in
  let after schedule := interleave hex24 hex_cast cast_message schedule a b fresh_world in
  map t_pc [fst (fst (after turns)); snd (fst (after turns))] = [JoinDone; JoinDone] /\
  map p_id (members (snd (after turns)) party_id) = [alice_id; bob_id; bob_id] /\
  ~ List.NoDup (map p_id (members (snd (after turns)) party_id)) /\
  snd (after in_a_row)
  = join_room hex24 hex_cast cast_message "sockC" (JStr party_hex) (JStr bob_hex)
      (join_room hex24 hex_cast cast_message "sockB" (JStr party_hex) (JStr bob_hex)
         fresh_world) /\
  map p_id (members (snd (after in_a_row)) party_id) = [alice_id; bob_id].
Proof.
  intros a b turns in_a_row after.
  split; [vm_compute; reflexivity|].
  assert (Hdup : map p_id (members (snd (after turns)) party_id)
                 = [alice_id; bob_id; bob_id]) by (vm_compute; reflexivity).
  split; [exact Hdup|]. split.
  - rewrite Hdup. intros H.
    apply List.NoDup_cons_iff in H as [_ H].
    apply List.NoDup_cons_iff in H as [H _]. apply H. simpl. auto.
  - split; vm_compute; reflexivity.
Qed.

(** C2: the handlers take the departing user for the admin when the
    string form of the stored admin id is the very string they were
    given, while the queries around that test cast the string to an
    ObjectId. Alice, the admin, leaves under the upper-case spelling of
    her id: the room is found, she is pulled from its participants like
    any member, nothing is dismissed and nothing is deleted. The same
    happens at [disconnect] when she created the room under that
    spelling, which the registry then holds. Under the spelling of
    [toString()] the room is dismissed. *)
Theorem admin_departure_under_other_spelling :
  let gone_quietly w :=
    forall tg p, ~ In (Emit tg "room-dismissed" p) (trace w) in
  let left := leave_room hex24 hex_cast cast_message "sockA"
                (JStr party_hex) (JStr ALICE_HEX) party_world in
  let created := create_room hex24 hex_cast cast_message later "sockA"
                   (JStr ALICE_HEX) (JStr "Alice") (world_of []) in
  let joined := join_room hex24 hex_cast cast_message "sockB"
                  (JStr other_hex) (JStr bob_hex) created in
  let dropped := disconnect hex_cast cast_message "sockA" joined in
  (hex_cast ALICE_HEX = Some (admin party) /\
   found_room hex_cast party_world party_hex = Some party /\
   Rooms left = [party_of [bob_p]] /\ Messages left = [hello] /\
   gone_quietly left) /\
  (socketToUserMap joined !! "sockA" = Some ALICE_HEX /\
   map (fun r => (admin r, map p_id (users r))) (Rooms joined)
   = [(alice_id, [alice_id; bob_id])] /\
   map (fun r => (admin r, map p_id (users r))) (Rooms dropped)
   = [(alice_id, [bob_id])] /\
   gone_quietly dropped) /\
  Rooms (leave_room hex24 hex_cast cast_message "sockA"
           (JStr party_hex) (JStr alice_hex) party_world) = [].
Proof.
  intros gone_quietly left created joined dropped.
  split; [|split].
  - do 4 (split; [vm_compute; reflexivity|]).
    intros tg p H. vm_compute in H.
    repeat (destruct H as [H|H]; [discriminate|]). exact H.
  - do 3 (split; [vm_compute; reflexivity|]).
    intros tg p H. vm_compute in H.
    repeat (destruct H as [H|H]; [discriminate|]). exact H.
  - vm_compute. reflexivity.
Qed.

(** C3: the store holds Alice's room with Alice and Bob in it and is
    well formed. [leave-room] with the upper-case spelling of Alice's id
    pulls her from the participants and keeps the room: its admin is no
    longer among its participants. The test for the admin compares
    strings where the update casts, as in [leave-room] and [disconnect]
    throughout. *)
Theorem leave_room_breaks_membership :
  let w := on hex24 hex_cast cast_message later "sockA"
             (LeaveRoom (JStr party_hex) (JStr ALICE_HEX)) party_world in
  store_ok party_world /\
  Rooms w = [party_of [bob_p]] /\
  admin (party_of [bob_p]) = alice_id /\
  map p_id (users (party_of [bob_p])) = [bob_id] /\
  ~ store_ok w.
Proof.
  intros w.
  assert (HR : Rooms w = [party_of [bob_p]]) by (vm_compute; reflexivity).
  split.
  { split; repeat constructor; simpl; auto; lia. }
  split; [exact HR|]. do 2 (split; [reflexivity|]).
  intros [_ Hall]. rewrite HR in Hall.
  apply Forall_cons_1 in Hall as [[Hin _] _].
  simpl in Hin. destruct Hin as [Hin|[]]. discriminate Hin.
Qed.

(** C5: [join-room] looks for the user among the participants by
    comparing the string form of each stored id with the string it was
    given, and the push that follows casts that string. Two calls in a
    row that spell Bob's id in upper case both append him; so does a
    call in upper case after one in lower case. *)
Theorem join_room_twice_under_other_spelling :
  let join userId := join_room hex24 hex_cast cast_message "sockB"
                       (JStr party_hex) (JStr userId) in
  let w1 := join BOB_HEX fresh_world in
  let w2 := join BOB_HEX w1 in
  hex_cast BOB_HEX = Some bob_id /\
  map p_id (members fresh_world party_id) = [alice_id] /\
  map p_id (members w1 party_id) = [alice_id; bob_id] /\
  map p_id (members w2 party_id) = [alice_id; bob_id; bob_id] /\
  length (members w2 party_id) <> length (members w1 party_id) /\
  map p_id (members (join BOB_HEX (join bob_hex fresh_world)) party_id)
  = [alice_id; bob_id; bob_id].
Proof.
  intros join w1 w2.
  do 4 (split; [vm_compute; reflexivity|]).
  split; [vm_compute; discriminate | vm_compute; reflexivity].
Qed.

(** C7: [create-room] looks for the prior room of the user, deletes it
    and saves the new one in separate steps, with a suspension between
    any two. Alice, who administers a room, sends [create-room] from two
    connections; the second call looks for her room after the first has
    deleted it and before the first has saved, finds none, and both
    save: Alice administers two rooms. Run one after the other, the two
    calls leave her one. *)
Theorem interleaved_creations_leave_two_rooms :
  let a := creating later "sockA" alice_hex "Alice" in
  let b := creating later_still "sockC" alice_hex "Alice" in
  let turns := [true; false; false; false; false; true;
                false; true; false; true] in
  let in_a_row := [false; false; false; false; false; false;
                   true; true; true; true; true; true] in
  let after schedule :=
    interleave_creations hex24 hex_cast cast_message schedule a b party_world in
  one_room_per_admin party_world /\
  map c_pc [fst (fst (after turns)); snd (fst (after turns))]
  = [CreateDone; CreateDone] /\
  map (fun r => (r_id r, admin r)) (Rooms (snd (after turns)))
  = [(other_id, alice_id); (third_id, alice_id)] /\
  ~ one_room_per_admin (snd (after turns)) /\
  snd (after in_a_row)
  = create_room hex24 hex_cast cast_message later_still "sockC"
      (JStr alice_hex) (JStr "Alice")
      (create_room hex24 hex_cast cast_message later "sockA"
         (JStr alice_hex) (JStr "Alice") party_world) /\
  map (fun r => (r_id r, admin r)) (Rooms (snd (after in_a_row)))
  = [(third_id, alice_id)].
Proof.
  intros a b turns in_a_row after.
  split.
  { repeat constructor. simpl. tauto. }
  split; [vm_compute; reflexivity|].
  assert (Htwo : map admin (Rooms (snd (after turns))) = [alice_id; alice_id])
    by (vm_compute; reflexivity).
  split; [vm_compute; reflexivity|]. split.
  - unfold one_room_per_admin. rewrite Htwo. intros H.
    apply List.NoDup_cons_iff in H as [H _]. apply H. simpl. auto.
  - split; vm_compute; reflexivity.
Qed.

(** ** The further properties at the sample store *)

Lemma create_room_rejected_witness :
  isValidObjectId hex24 (JStr (" " ++ bob_hex)) = true /\
  creatable hex24 hex_cast party_world (JStr (" " ++ bob_hex)) (JStr "Bob") = false /\
  exists reason,
    create_room hex24 hex_cast cast_message later "sockB" (JStr (" " ++ bob_hex))
      (JStr "Bob") party_world
    = log (Emit (ToSocket "sockB") "room-error"
             (PText ("Failed to create room: " ++ reason))) party_world.
Proof.
  do 2 (split; [vm_compute; reflexivity|]).
  apply (create_room_rejected hex24 hex_cast cast_message later "sockB"
           (JStr (" " ++ bob_hex)) (JStr "Bob") party_world).
  vm_compute. reflexivity.
Defined.

Lemma join_room_rejected_witness :
  joinable hex24 hex_cast party_world (JStr other_hex) (JStr bob_hex) = false /\
  exists message,
    join_room hex24 hex_cast cast_message "sockB" (JStr other_hex) (JStr bob_hex)
      party_world
    = log (Emit (ToSocket "sockB") "room-error" (PText message)) party_world.
Proof.
  split; [vm_compute; reflexivity|].
  apply (join_room_rejected hex24 hex_cast cast_message "sockB" (JStr other_hex)
           (JStr bob_hex) party_world).
  vm_compute. reflexivity.
Defined.

Lemma playback_unknown_room_witness :
  found_room hex_cast party_world other_hex = None /\
  exists reason,
    pause_video hex24 hex_cast cast_message "sockA" (JStr other_hex) 5%Z
      (JStr alice_hex) party_world
    = log (Emit (ToSocket "sockA") "room-error"
             (PText ("Failed to pause video: " ++ reason))) party_world.
Proof.
  assert (H : found_room hex_cast party_world other_hex = None)
    by (vm_compute; reflexivity).
  split; [exact H|].
  destruct (playback_unknown_room hex24 hex_cast cast_message "sockA" (JStr other_hex)
              (JStr alice_hex) party_world (or_intror H)) as (reason & _ & Htime).
  exists reason. apply (Htime 5%Z).
Defined.

Lemma pause_resume_persist_then_broadcast_witness :
  isValidObjectId hex24 (JStr party_hex) = true /\
  hex_cast party_hex = Some party_id /\
  List.find (has_id party_id) (Rooms party_world) = Some party /\
  strict_eq_string (toString (admin party)) (JStr alice_hex) = true /\
  trace (pause_video hex24 hex_cast cast_message "sockA" (JStr party_hex) 42%Z
           (JStr alice_hex) party_world)
  = [Wrote (RoomFindByIdAndUpdate party_id
              (SetFields None None (Some false) (Some 42%Z)));
     Emit (ToChannel party_hex) "pause-video" (PTime 42%Z)].
Proof.
  do 4 (split; [vm_compute; reflexivity|]).
  apply (pause_resume_persist_then_broadcast hex24 hex_cast cast_message party_world
           "sockA" party_hex 42%Z (JStr alice_hex) party_id party
           eq_refl eq_refl eq_refl eq_refl).
Defined.

Lemma create_room_announces_witness :
  isValidObjectId hex24 (JStr bob_hex) = true /\
  hex_cast bob_hex = Some bob_id /\
  List.find (is_id bob_id) (Users party_world) = Some bob /\
  fresh later party_world /\
  socketToUserMap
    (create_room hex24 hex_cast cast_message later "sockB" (JStr bob_hex) (JStr "Bob")
       party_world)
  = <[ "sockB" := bob_hex ]> (socketToUserMap party_world) /\
  List.find (has_id other_id)
    (Rooms (create_room hex24 hex_cast cast_message later "sockB" (JStr bob_hex)
              (JStr "Bob") party_world))
  = Some (new_room later bob_id "Bob" bob).
Proof.
  assert (Hfresh : fresh later party_world).
  { unfold fresh. simpl. intros [H|[]]. discriminate. }
  assert (Hid : bob_hex <> "") by discriminate.
  assert (Hname : "Bob" <> "") by discriminate.
  assert (Huser : u_username bob <> "") by discriminate.
  do 3 (split; [vm_compute; reflexivity|]). split; [exact Hfresh|].
  destruct (create_room_announces hex24 hex_cast cast_message hex_cast_toString later
              "sockB" bob_hex "Bob" bob_id bob party_world
              eq_refl Hid Hname eq_refl eq_refl Huser Hfresh) as (Hmap & _ & Hfind & _).
  split; [exact Hmap | exact Hfind].
Defined.

Lemma join_room_accepted_witness :
  isValidObjectId hex24 (JStr BOB_HEX) = true /\
  isValidObjectId hex24 (JStr party_hex) = true /\
  hex_cast party_hex = Some party_id /\
  List.find (has_id party_id) (Rooms party_world) = Some party /\
  hex_cast BOB_HEX = Some bob_id /\
  List.find (is_id bob_id) (Users party_world) = Some bob /\
  members (join_room hex24 hex_cast cast_message "sockB" (JStr party_hex) (JStr BOB_HEX)
             party_world) party_id
  = [alice_p; bob_p; bob_p].
Proof.
  do 6 (split; [vm_compute; reflexivity|]).
  destruct (join_room_accepted hex24 hex_cast cast_message hex_cast_toString party_world
              "sockB" party_hex BOB_HEX party_id bob_id party bob
              eq_refl eq_refl eq_refl eq_refl eq_refl eq_refl)
    as (_ & _ & _ & Hmembers & _).
  exact Hmembers.
Defined.

Lemma leave_room_member_witness :
  isValidObjectId hex24 (JStr bob_hex) = true /\
  isValidObjectId hex24 (JStr party_hex) = true /\
  hex_cast party_hex = Some party_id /\
  List.find (has_id party_id) (Rooms party_world) = Some party /\
  hex_cast bob_hex = Some bob_id /\
  isAdmin party bob_hex = false /\
  List.find (has_id party_id)
    (Rooms (leave_room hex24 hex_cast cast_message "sockB" (JStr party_hex)
              (JStr bob_hex) party_world))
  = Some (party_of [alice_p]).
Proof.
  assert (Hrest : List.filter (fun p => negb (is_user bob_id p)) (users party) <> [])
    by discriminate.
  do 6 (split; [vm_compute; reflexivity|]).
  apply (leave_room_member hex24 hex_cast cast_message party_world "sockB" party_hex
           bob_hex party_id bob_id party eq_refl eq_refl eq_refl eq_refl eq_refl
           eq_refl Hrest).
Defined.

Lemma leave_room_unknown_room_witness :
  found_room hex_cast party_world other_hex = None /\
  Rooms (leave_room hex24 hex_cast cast_message "sockB" (JStr other_hex) (JStr bob_hex)
           party_world)
  = Rooms party_world /\
  trace (leave_room hex24 hex_cast cast_message "sockB" (JStr other_hex) (JStr bob_hex)
           party_world)
  = trace party_world.
Proof.
  assert (H : found_room hex_cast party_world other_hex = None)
    by (vm_compute; reflexivity).
  split; [exact H|].
  destruct (leave_room_unknown_room hex24 hex_cast cast_message "sockB" other_hex
              (JStr bob_hex) party_world H) as (HR & _ & Ht).
  split; [exact HR | exact Ht].
Defined.

Lemma disconnect_removes_user_everywhere_witness :
  keys_ok party_world /\
  socketToUserMap party_world !! "sockB" = Some bob_hex /\
  hex_cast bob_hex = Some bob_id /\
  forall r, In r (Rooms (disconnect hex_cast cast_message "sockB" party_world)) ->
            has_member bob_id r = false.
Proof.
  assert (Hok : keys_ok party_world).
  { repeat constructor; simpl; tauto. }
  assert (Hmap : socketToUserMap party_world !! "sockB" = Some bob_hex)
    by (vm_compute; reflexivity).
  assert (Hne : bob_hex <> "") by discriminate.
  assert (Hcast : hex_cast bob_hex = Some bob_id) by (vm_compute; reflexivity).
  split; [exact Hok|]. split; [exact Hmap|]. split; [exact Hcast|].
  apply (disconnect_removes_user_everywhere hex24 hex_cast cast_message
           hex_cast_toString "sockB" bob_hex bob_id party_world Hok Hmap Hne Hcast).
Defined.

Lemma messages_keep_their_room_witness :
  no_orphans party_world /\
  no_orphans
    (replay hex24 hex_cast cast_message
       [(later, "sockB", SendMessage (JStr party_hex) (JStr bob_hex) "again");
        (later, "sockA", LeaveRoom (JStr party_hex) (JStr alice_hex))]
       party_world).
Proof.
  assert (H : no_orphans party_world).
  { intros m [<-|[]]. simpl. auto. }
  split; [exact H|].
  apply (messages_keep_their_room hex24 hex_cast cast_message hex_cast_toString _
           party_world H).
Defined.

Lemma sent_message_is_listed_witness :
  sendable hex24 hex_cast party_world (JStr party_hex) (JStr BOB_HEX) "again" = true /\
  exists user uid rid,
    hex_cast BOB_HEX = Some uid /\
    message_route rid
      (send_message hex24 hex_cast cast_message later "sockB" (JStr party_hex)
         (JStr BOB_HEX) "again" party_world)
    = (message_route rid party_world ++
       [{| m_id := other_id; room := rid; senderId := uid; text := "again";
           timestamp := 1700000001000%Z; sender := user |}])%list.
Proof.
  assert (H : sendable hex24 hex_cast party_world (JStr party_hex) (JStr BOB_HEX)
                "again" = true) by (vm_compute; reflexivity).
  split; [exact H|].
  destruct (sent_message_is_listed hex24 hex_cast cast_message later "sockB"
              (JStr party_hex) (JStr BOB_HEX) "again" party_world H)
    as (user & uid & rid & Hu & _ & _ & Hlist & _).
  exists user, uid, rid. split; [exact Hu | exact Hlist].
Defined.

Lemma rooms_come_from_create_room_witness :
  In other_id
    (map r_id (Rooms (on hex24 hex_cast cast_message later "sockB"
                        (CreateRoom (JStr bob_hex) (JStr "Bob")) party_world))) /\
  (In other_id (map r_id (Rooms party_world)) \/
   (other_id = newObjectId later /\
    exists userId userName,
      CreateRoom (JStr bob_hex) (JStr "Bob") = CreateRoom userId userName)).
Proof.
  assert (H : In other_id
                (map r_id (Rooms (on hex24 hex_cast cast_message later "sockB"
                                    (CreateRoom (JStr bob_hex) (JStr "Bob"))
                                    party_world)))).
  { vm_compute. auto. }
  split; [exact H|].
  apply (rooms_come_from_create_room hex24 hex_cast cast_message hex_cast_toString
           later "sockB" _ party_world other_id H).
Defined.

Lemma join_after_dismissal_is_refused_witness :
  keys_ok party_world /\ In party (Rooms party_world) /\
  hex_cast party_hex = Some (r_id party) /\
  message_route party_id
    (leave_room hex24 hex_cast cast_message "sockA" (JStr party_hex) (JStr alice_hex)
       party_world) = [] /\
  exists message,
    join_room hex24 hex_cast cast_message "sockB" (JStr party_hex) (JStr bob_hex)
      (leave_room hex24 hex_cast cast_message "sockA" (JStr party_hex) (JStr alice_hex)
         party_world)
    = log (Emit (ToSocket "sockB") "room-error" (PText message))
        (leave_room hex24 hex_cast cast_message "sockA" (JStr party_hex)
           (JStr alice_hex) party_world).
Proof.
  assert (Hok : keys_ok party_world).
  { repeat constructor; simpl; tauto. }
  assert (Hin : In party (Rooms party_world)) by (simpl; auto).
  assert (Hcast : hex_cast party_hex = Some (r_id party)) by (vm_compute; reflexivity).
  destruct (join_after_dismissal_is_refused hex24 hex_cast cast_message
              hex_cast_toString party_world party "sockA" party_hex Hok Hin
              eq_refl Hcast eq_refl) as [Hlist Hjoin].
  split; [exact Hok|]. split; [exact Hin|]. split; [exact Hcast|].
  split; [exact Hlist|].
  apply (Hjoin "sockB" party_hex (JStr bob_hex) Hcast).
Defined.

Lemma legacy_gate_without_room_witness :
  Legacy.rooms legacy_state !! other_hex = None /\
  LegacyRooms.pause_video other_hex 5%Z JUndefined legacy_state
  = LegacyRooms.done legacy_state
      [LegacyRooms.Send (ToChannel other_hex) "pause-video" (LegacyRooms.Time 5%Z)] /\
  LegacyRooms.uncaught
    (LegacyRooms.play_video other_hex "https://y/next" "1" JUndefined legacy_state)
  = Some "Cannot set properties of undefined (setting 'videoUrl')" /\
  Legacy.rooms legacy_state !! "constructor" = None /\
  LegacyRooms.play_video "constructor" "https://y/next" "1" JUndefined legacy_state
  = LegacyRooms.done legacy_state
      [LegacyRooms.Send (ToChannel "constructor") "load-video"
         (LegacyRooms.Load "https://y/next" "1")].
Proof.
  assert (H : Legacy.rooms legacy_state !! other_hex = None)
    by (apply lookup_singleton_ne; discriminate).
  assert (H' : Legacy.rooms legacy_state !! "constructor" = None)
    by (apply lookup_singleton_ne; discriminate).
  destruct (legacy_gate_without_room other_hex legacy_state H) as (Htime & Hplay & _).
  destruct (legacy_gate_without_room "constructor" legacy_state H') as (_ & Hplay' & _).
  split; [exact H|]. split; [apply (Htime 5%Z)|].
  split; [rewrite Hplay; reflexivity|].
  split; [exact H' | apply Hplay'].
Defined.

Lemma legacy_last_leave_hides_room_witness :
  (exists entry,
      Legacy.rooms legacy_last !! party_hex = Some entry /\
      List.filter (fun id => negb (strict_eq_string id (JStr bob_hex)))
        (Legacy.participants entry) = []) /\
  In party_id
    (map Legacy.r_id
       (Legacy.Rooms
          (LegacyRooms.state
             (LegacyRooms.leave_room hex_cast "sockB" party_hex (JStr bob_hex)
                legacy_last)))) /\
  Legacy.get_room_details hex_cast "sockA" (JStr party_hex)
    (LegacyRooms.state
       (LegacyRooms.leave_room hex_cast "sockB" party_hex (JStr bob_hex) legacy_last))
  = Legacy.send (ToSocket "sockA") "room-error" (Legacy.RText "Room does not exist.")
      (LegacyRooms.state
         (LegacyRooms.leave_room hex_cast "sockB" party_hex (JStr bob_hex) legacy_last)).
Proof.
  pose (entry := {| Legacy.admin := alice_hex; Legacy.videoUrl := "";
                    Legacy.serviceId := "1"; Legacy.participants := [bob_hex] |}).
  assert (H : Legacy.rooms legacy_last !! party_hex = Some entry)
    by apply lookup_singleton_eq.
  assert (Hlast : List.filter (fun id => negb (strict_eq_string id (JStr bob_hex)))
                    (Legacy.participants entry) = []) by reflexivity.
  destruct (legacy_last_leave_hides_room hex_cast "sockB" party_hex (JStr bob_hex) entry
              legacy_last H Hlast) as (_ & _ & _ & Hdocs & Hdetails).
  split; [exists entry; split; assumption|].
  split; [rewrite Hdocs; simpl; auto | apply Hdetails].
Defined.

Lemma legacy_join_is_idempotent_witness :
  party_hex <> "" /\
  exists entry1,
    Legacy.rooms
      (LegacyRooms.state
         (LegacyRooms.join_room hex_cast "sockB" party_hex bob_hex JUndefined
            legacy_state))
      !! party_hex = Some entry1 /\
    Legacy.participants entry1 = [alice_hex; bob_hex].
Proof.
  pose (entry := {| Legacy.admin := alice_hex; Legacy.videoUrl := "";
                    Legacy.serviceId := "1";
                    Legacy.participants := [alice_hex; bob_hex] |}).
  assert (Hne : party_hex <> "") by discriminate.
  assert (H : Legacy.rooms legacy_state !! party_hex = Some entry)
    by apply lookup_singleton_eq.
  destruct (legacy_join_is_idempotent hex_cast "sockB" "sockC" party_hex bob_hex
              JUndefined JUndefined entry legacy_state Hne H)
    as (entry1 & Hlook & Hin & [Hsame | [_ Hnot]] & _).
  - split; [exact Hne|]. exists entry1. split; [exact Hlook | exact Hsame].
  - exfalso. apply Hnot. simpl. auto.
Defined.

Lemma admin_departure_dismisses_room_witness :
  keys_ok party_world /\ In party (Rooms party_world) /\
  hex_cast party_hex = Some (r_id party) /\
  toString (admin party) = alice_hex /\
  trace (leave_room hex24 hex_cast cast_message "sockA" (JStr party_hex)
           (JStr alice_hex) party_world)
  = dismissal party_hex party_id /\
  gone party_id
    (leave_room hex24 hex_cast cast_message "sockA" (JStr party_hex) (JStr alice_hex)
       party_world) /\
  gone party_id (disconnect hex_cast cast_message "sockA" party_world).
Proof.
  assert (Hok : keys_ok party_world).
  { repeat constructor; simpl; tauto. }
  assert (Hin : In party (Rooms party_world)) by (simpl; auto).
  assert (Hcast : hex_cast party_hex = Some (r_id party)) by (vm_compute; reflexivity).
  destruct (admin_departure_dismisses_room hex24 hex_cast cast_message
              hex_cast_toString party_world party party_hex Hok Hin
              eq_refl Hcast eq_refl) as [Hleave Hdisc].
  split; [exact Hok|]. split; [exact Hin|]. split; [exact Hcast|].
  split; [vm_compute; reflexivity|].
  destruct (Hleave "sockA") as [Ht Hg].
  split; [exact Ht|]. split; [exact Hg|].
  apply (Hdisc "sockA"); vm_compute; reflexivity.
Defined.

Lemma join_room_twice_witness :
  isValidObjectId hex24 (JStr (toString bob_id)) = true /\
  isValidObjectId hex24 (JStr party_hex) = true /\
  hex_cast party_hex = Some party_id /\
  List.find (has_id party_id) (Rooms fresh_world) = Some (party_of [alice_p]) /\
  List.find (is_id bob_id) (Users fresh_world) = Some bob /\
  length (members
            (join_room hex24 hex_cast cast_message "sockC" (JStr party_hex)
               (JStr (toString bob_id))
               (join_room hex24 hex_cast cast_message "sockB" (JStr party_hex)
                  (JStr (toString bob_id)) fresh_world))
            party_id)
  = length (members
              (join_room hex24 hex_cast cast_message "sockB" (JStr party_hex)
                 (JStr (toString bob_id)) fresh_world)
              party_id).
Proof.
  do 5 (split; [vm_compute; reflexivity|]).
  apply (join_room_twice hex24 hex_cast cast_message hex_cast_toString fresh_world
           "sockB" "sockC" party_hex party_id bob_id (party_of [alice_p]) bob
           eq_refl eq_refl eq_refl eq_refl eq_refl).
Defined.

Lemma create_room_replaces_prior_room_witness :
  isValidObjectId hex24 (JStr ALICE_HEX) = true /\
  hex_cast ALICE_HEX = Some alice_id /\
  List.find (is_id alice_id) (Users party_world) = Some alice /\
  one_room_per_admin party_world /\ fresh later party_world /\
  List.find (has_admin alice_id) (Rooms party_world) = Some party /\
  exists room,
    Rooms (create_room hex24 hex_cast cast_message later "sockA" (JStr ALICE_HEX)
             (JStr "Alice") party_world) = [room] /\
    r_id room = other_id /\ admin room = alice_id /\ users room = [alice_p] /\
    ~ In party (Rooms (create_room hex24 hex_cast cast_message later "sockA"
                         (JStr ALICE_HEX) (JStr "Alice") party_world)).
Proof.
  assert (Hone : one_room_per_admin party_world).
  { repeat constructor; simpl; tauto. }
  assert (Hfresh : fresh later party_world).
  { unfold fresh. simpl. intros [H|[]]. discriminate. }
  assert (Hu : ALICE_HEX <> "") by discriminate.
  assert (Hn : "Alice" <> "") by discriminate.
  assert (Hun : u_username alice <> "") by discriminate.
  destruct (create_room_replaces_prior_room hex24 hex_cast cast_message
              hex_cast_toString later "sockA" ALICE_HEX "Alice" alice_id alice party
              party_world eq_refl Hu Hn eq_refl eq_refl Hun Hone Hfresh eq_refl)
    as (room & HR & _ & Hprior & _ & _ & _ & Hid & Hadmin & _ & Husers & _).
  do 3 (split; [vm_compute; reflexivity|]).
  split; [exact Hone|]. split; [exact Hfresh|]. split; [vm_compute; reflexivity|].
  exists room. split; [exact HR|]. split; [exact Hid|]. split; [exact Hadmin|].
  split; [exact Husers | exact Hprior].
Defined.

Lemma membership_invariant_witness :
  keys_ok party_world /\
  plainly hex_cast (LeaveRoom (JStr party_hex) (JStr bob_hex)) /\
  store_ok (on hex24 hex_cast cast_message later "sockB"
              (LeaveRoom (JStr party_hex) (JStr bob_hex)) party_world) /\
  store_ok (on hex24 hex_cast cast_message later "sockB"
              (CreateRoom (JStr bob_hex) (JStr "Bob")) party_world) /\
  gone party_id
    (on hex24 hex_cast cast_message later "sockB"
       (LeaveRoom (JStr party_hex) (JStr BOB_HEX)) orphan_world) /\
  gone party_id (on hex24 hex_cast cast_message later "sockB" Disconnect orphan_world).
Proof.
  assert (Hnd : keys_ok party_world).
  { repeat constructor; simpl; tauto. }
  assert (Hall : Forall room_ok (Rooms party_world)).
  { repeat constructor; simpl; auto; lia. }
  assert (Hfresh : fresh later party_world).
  { unfold fresh. simpl. intros [H|[]]. discriminate. }
  assert (Hplain : forall id o, hex_cast id = Some o -> id = toString o ->
                                plain hex_cast id).
  { intros id o Ho -> o' Ho'. rewrite Ho in Ho'. now inversion Ho'. }
  assert (Hbob : plain hex_cast bob_hex).
  { apply (Hplain bob_hex bob_id); vm_compute; reflexivity. }
  assert (Halice : plain hex_cast alice_hex).
  { apply (Hplain alice_hex alice_id); vm_compute; reflexivity. }
  assert (Hreg : registry_plain hex_cast party_world).
  { intros sid userId Hl. unfold party_world, world_of in Hl. simpl in Hl.
    destruct (decide (sid = "sockA")) as [->|HA].
    - rewrite lookup_insert_eq in Hl. inversion Hl. exact Halice.
    - rewrite lookup_insert_ne in Hl by congruence.
      destruct (decide (sid = "sockB")) as [->|HB].
      + rewrite lookup_singleton_eq in Hl. inversion Hl. exact Hbob.
      + rewrite lookup_singleton_ne in Hl by congruence. discriminate. }
  split; [exact Hnd|]. split; [exact Hbob|].
  destruct (membership_invariant hex24 hex_cast cast_message hex_cast_toString later
              "sockB" party_world Hnd) as [Hinv _].
  split; [apply Hinv; assumption|]. split; [apply Hinv; assumption|].
  assert (Hnd' : keys_ok orphan_world).
  { repeat constructor; simpl; tauto. }
  destruct (membership_invariant hex24 hex_cast cast_message hex_cast_toString later
              "sockB" orphan_world Hnd') as [_ Hcol].
  assert (Hin : In (party_of [bob_p]) (Rooms orphan_world)) by (simpl; auto).
  split.
  - destruct (Hcol (party_of [bob_p]) party_hex BOB_HEX bob_id Hin
                eq_refl eq_refl eq_refl eq_refl) as [Hleave _].
    apply Hleave; reflexivity.
  - destruct (Hcol (party_of [bob_p]) party_hex bob_hex bob_id Hin
                eq_refl eq_refl eq_refl eq_refl) as [_ Hdisc].
    apply Hdisc; [vm_compute; reflexivity | discriminate | reflexivity].
Defined.
